(** * Research agent: idea lifecycle controller and structured extraction

    A shallow embedding of the Python sources

      - [utils/parser.py]        ([extract_json]),
      - [core/types.py]          (the dataclasses and [compute_average]),
      - [agents/critic.py]       (the critique record builder),
      - [agents/refiner.py]      (the refinement record builder),
      - [core/model_manager.py]  ([_load_config], [get_model_config]),
      - [agents/generator.py]    (the constructor, and the drafts made from
                                  the parsed response),
      - [utils/html_generator.py] ([escape_html]),
      - [main.py]                ([research_loop]),

    together with the properties of the design document that concern them.

    Conventions of the embedding.

    - A Python [str] is a [string]; one character of the model is one code
      point below 256.  Code points from 256 on (two literals of
      [refiner.py] and what a JSON [\u] escape may denote) are carried in
      their UTF-8 encoding; on such text white space, case and slices are
      those of the encoding, not of the code points.
    - A Python [int] is a [Z], and the interpreter's limit on the number of
      digits in conversions between [int] and [str] is left out; a Python
      [float] is a binary64 value of the
      library's [spec_float], with the operations rounded to nearest even as
      the interpreter does.
    - Values whose type is only known at run time (what [json.loads] and
      [yaml.safe_load] return, and every record field that is filled from
      them) are [pyval]s.
    - Code that may raise returns in the monad [exc]; [try]/[except] is
      [catch].
    - Objects that are mutated through several references (the
      [IdeaObject]s of [research_loop]) live in a store indexed by
      references. *)

From Stdlib Require Import ZArith String Ascii List Bool Lia DecimalString.
From Stdlib Require Import Floats.SpecFloat.
From stdpp Require Import base list strings sets.
Import ListNotations.

Local Open Scope Z_scope.

(* ===================================================================== *)
(** * Exceptions *)
(* ===================================================================== *)

(** The exception classes the modelled code can meet.  All of them derive
    from [Exception]; [JSONDecodeError] derives from [ValueError]. *)
Inductive exn : Type :=
| JSONDecodeError
| ValueError
| TypeError
| OverflowError
| AttributeError
| ZeroDivisionError
| RecursionError.

Inductive exc (A : Type) : Type :=
| Ret (a : A)
| Raise (e : exn).
Arguments Ret {A} a.
Arguments Raise {A} e.

Definition bind {A B : Type} (m : exc A) (k : A -> exc B) : exc B :=
  match m with
  | Ret a => k a
  | Raise e => Raise e
  end.

Notation "x <- m ;; k" := (bind m (fun x => k))
  (at level 100, m at next level, right associativity).

(** [except cls:] clauses select by class. *)
Definition is_JSONDecodeError (e : exn) : bool :=
  match e with JSONDecodeError => true | _ => false end.

Definition is_ValueError (e : exn) : bool :=
  match e with JSONDecodeError | ValueError => true | _ => false end.

Definition is_TypeError (e : exn) : bool :=
  match e with TypeError => true | _ => false end.

Definition is_Exception (e : exn) : bool := true.

(** [try: m  except <handles>: h] *)
Definition catch {A : Type} (m : exc A) (handles : exn -> bool) (h : exn -> exc A) : exc A :=
  match m with
  | Ret a => Ret a
  | Raise e => if handles e then h e else Raise e
  end.

(** [try: m  except c1: h1  except c2: h2 ...]: the first clause whose
    class matches handles the exception. *)
Fixpoint handle {A : Type} (e : exn) (clauses : list ((exn -> bool) * (exn -> exc A))) : exc A :=
  match clauses with
  | [] => Raise e
  | (cls, h) :: rest => if cls e then h e else handle e rest
  end.

Definition try_except {A : Type} (m : exc A) (clauses : list ((exn -> bool) * (exn -> exc A))) : exc A :=
  match m with
  | Ret a => Ret a
  | Raise e => handle e clauses
  end.

(** Sequencing a fallible function over a list, left to right. *)
Fixpoint mapM {A B : Type} (f : A -> exc B) (l : list A) : exc (list B) :=
  match l with
  | [] => Ret []
  | x :: l' => y <- f x ;; ys <- mapM f l' ;; Ret (y :: ys)
  end.

(* ===================================================================== *)
(** * Strings *)
(* ===================================================================== *)

Module Str.

Definition code (c : ascii) : Z := Z.of_N (N_of_ascii c).
Definition chr (z : Z) : ascii := ascii_of_N (Z.to_N z).

(** [str.isspace] on one character (code points below 256). *)
Definition isspace (c : ascii) : bool :=
  let n := code c in
  ((9 <=? n) && (n <=? 13)) || ((28 <=? n) && (n <=? 32))
  || (n =? 133) || (n =? 160).

(** Decimal digits below code point 256 are the ASCII ones. *)
Definition isdigit (c : ascii) : bool :=
  let n := code c in (48 <=? n) && (n <=? 57).

Definition digit_value (c : ascii) : Z := code c - 48.

Definition eqb_char (a b : ascii) : bool := Ascii.eqb a b.

Definition len (s : string) : Z := Z.of_nat (String.length s).

(** [c in cs] for a one-character [c]. *)
Fixpoint mem (c : ascii) (cs : string) : bool :=
  match cs with
  | EmptyString => false
  | String b cs' => eqb_char b c || mem c cs'
  end.

(** [s.startswith(p)] *)
Fixpoint startswith (p s : string) : bool :=
  match p, s with
  | EmptyString, _ => true
  | String a p', String b s' => eqb_char a b && startswith p' s'
  | String _ _, EmptyString => false
  end.

(** [s[n:]] and [s[:n]] for [n >= 0]. *)
Fixpoint drop (n : nat) (s : string) : string :=
  match n, s with
  | O, _ => s
  | S n', String _ s' => drop n' s'
  | S _, EmptyString => EmptyString
  end.

Fixpoint take (n : nat) (s : string) : string :=
  match n, s with
  | O, _ => EmptyString
  | S n', String c s' => String c (take n' s')
  | S _, EmptyString => EmptyString
  end.

(** [s[a:b]] for [0 <= a], [0 <= b]. *)
Definition slice (a b : Z) (s : string) : string :=
  take (Z.to_nat (b - a)) (drop (Z.to_nat a) s).

(** [s.find(sub)]: the least index where [sub] occurs, or [-1]. *)
Fixpoint find (sub s : string) : Z :=
  if startswith sub s then 0
  else
    match s with
    | EmptyString => -1
    | String _ s' => let i := find sub s' in if i =? -1 then -1 else i + 1
    end.

(** [s.rfind(sub)]: the greatest index where [sub] occurs, or [-1]. *)
Fixpoint rfind (sub s : string) : Z :=
  match s with
  | EmptyString => if startswith sub s then 0 else -1
  | String _ s' =>
      let i := rfind sub s' in
      if i =? -1 then (if startswith sub s then 0 else -1) else i + 1
  end.

Fixpoint lstrip_with (p : ascii -> bool) (s : string) : string :=
  match s with
  | String c s' => if p c then lstrip_with p s' else s
  | EmptyString => EmptyString
  end.

(** Strips at the end: a character is kept when it is not in [p] or when
    something is kept after it. *)
Fixpoint rstrip_with (p : ascii -> bool) (s : string) : string :=
  match s with
  | EmptyString => EmptyString
  | String c s' =>
      match rstrip_with p s' with
      | EmptyString => if p c then EmptyString else String c EmptyString
      | r => String c r
      end
  end.

Definition strip_with (p : ascii -> bool) (s : string) : string :=
  rstrip_with p (lstrip_with p s).

(** [s.strip()] *)
Definition strip (s : string) : string := strip_with isspace s.

Definition lower_char (c : ascii) : ascii :=
  let n := code c in
  if ((65 <=? n) && (n <=? 90))
     || ((192 <=? n) && (n <=? 222) && negb (n =? 215))
  then chr (n + 32) else c.

(** [s.lower()] *)
Fixpoint lower (s : string) : string :=
  match s with
  | EmptyString => EmptyString
  | String c s' => String (lower_char c) (lower s')
  end.

(** [sep.join(parts)] *)
Fixpoint join (sep : string) (parts : list string) : string :=
  match parts with
  | [] => EmptyString
  | [p] => p
  | p :: rest => p +:+ sep +:+ join sep rest
  end.

Definition nl : string := String (chr 10) EmptyString.

(** [dq s] is [s] with each apostrophe replaced by a double quote; JSON
    texts are written with it. *)
Fixpoint dq (s : string) : string :=
  match s with
  | EmptyString => EmptyString
  | String c s' => String (if code c =? 39 then chr 34 else c) (dq s')
  end.

End Str.

(* ===================================================================== *)
(** * Regular expressions ([re.search]) *)
(* ===================================================================== *)

(** The fragment of [re] the sources use: literals, character classes,
    greedy [?], [*] and [+], the lazy [*?], and one capture group.  The
    matcher backtracks in the order of the [re] module: a greedy operator
    tries the longer match first, a lazy one the shorter. *)
Module Re.

Inductive regex : Type :=
| Eps
| Chr (p : ascii -> bool)
| Cat (r1 r2 : regex)
| Opt (r : regex)
| Star (r : regex)
| LazyStar (r : regex)
| Group (r : regex).

Definition Plus (r : regex) : regex := Cat r (Star r).

Fixpoint Lit (s : string) : regex :=
  match s with
  | EmptyString => Eps
  | String c s' => Cat (Chr (Str.eqb_char c)) (Lit s')
  end.

Definition shorter (s' s : string) : bool :=
  (String.length s' <? String.length s)%nat.

(** [run r s g k]: match [r] at the start of [s] with group 1 currently
    [g], then continue with [k] on what is left; the first success in
    backtracking order wins.  An iteration of a repetition has to
    consume input. *)
Fixpoint run {R : Type} (r : regex) (s : string) (g : option string)
         (k : string -> option string -> option R) {struct r} : option R :=
  match r with
  | Eps => k s g
  | Chr p =>
      match s with
      | String c s' => if p c then k s' g else None
      | EmptyString => None
      end
  | Cat r1 r2 => run r1 s g (fun s' g' => run r2 s' g' k)
  | Opt r1 =>
      match run r1 s g k with
      | Some x => Some x
      | None => k s g
      end
  | Star r1 =>
      (fix loop (n : nat) (s : string) (g : option string) {struct n} : option R :=
         match n with
         | O => k s g
         | S n' =>
             match run r1 s g (fun s' g' => if shorter s' s then loop n' s' g' else None) with
             | Some x => Some x
             | None => k s g
             end
         end) (String.length s) s g
  | LazyStar r1 =>
      (fix loop (n : nat) (s : string) (g : option string) {struct n} : option R :=
         match k s g with
         | Some x => Some x
         | None =>
             match n with
             | O => None
             | S n' => run r1 s g (fun s' g' => if shorter s' s then loop n' s' g' else None)
             end
         end) (String.length s) s g
  | Group r1 =>
      run r1 s g
          (fun s' _ => k s' (Some (Str.take (String.length s - String.length s') s)))
  end.

(** A match object; [group1] is [match.group(1)]. *)
Record match_object : Type := { group1 : option string }.

Definition match_at (r : regex) (s : string) : option match_object :=
  run r s None (fun _ g => Some {| group1 := g |}).

(** [re.search(r, s)]: the match at the leftmost position that has one. *)
Fixpoint search (r : regex) (s : string) : option match_object :=
  match match_at r s with
  | Some m => Some m
  | None =>
      match s with
      | String _ s' => search r s'
      | EmptyString => None
      end
  end.

Definition any : ascii -> bool := fun _ => true.          (* [.] with DOTALL *)
Definition space : ascii -> bool := Str.isspace.          (* [\s] *)
Definition digit : ascii -> bool := Str.isdigit.          (* [\d] *)
Definition one_of (cs : string) (p : ascii -> bool) : ascii -> bool :=
  fun c => p c || Str.mem c cs.

End Re.

(* ===================================================================== *)
(** * Floats (binary64) *)
(* ===================================================================== *)

Module Float.

Definition prec : Z := 53.
Definition emax : Z := 1024.

Definition zero : spec_float := S754_zero false.

Definition is_finite (x : spec_float) : bool :=
  match x with
  | S754_zero _ | S754_finite _ _ _ => true
  | _ => false
  end.

(** The nearest float to [n / d], for [0 < n] and [0 < d]. *)
Definition of_quotient (neg : bool) (n d : Z) : spec_float :=
  let '(mz, ez, lz) := SFdiv_core_binary prec emax n 0 d 0 in
  binary_round_aux prec emax neg mz ez lz.

(** The nearest float to [m * 10 ^ e], for [0 <= m] ([strtod]). *)
Definition of_decimal (neg : bool) (m e : Z) : spec_float :=
  if m =? 0 then S754_zero neg
  else if 0 <=? e then binary_normalize prec emax (if neg then - (m * 10 ^ e) else m * 10 ^ e) 0 neg
  else of_quotient neg m (10 ^ (- e)).

(** [a / b] on two [int]s: the correctly rounded quotient. *)
Definition truediv (a b : Z) : exc spec_float :=
  if b =? 0 then Raise ZeroDivisionError
  else if a =? 0 then Ret (S754_zero (b <? 0))
  else
    let q := of_quotient (xorb (a <? 0) (b <? 0)) (Z.abs a) (Z.abs b) in
    if is_finite q then Ret q else Raise OverflowError.

(** [int(x)]: truncation toward zero. *)
Definition trunc (x : spec_float) : exc Z :=
  match x with
  | S754_zero _ => Ret 0
  | S754_finite s m e =>
      let a := if 0 <=? e then Z.pos m * 2 ^ e else Z.pos m / 2 ^ (- e) in
      Ret (if s then - a else a)
  | S754_infinity _ => Raise OverflowError
  | S754_nan => Raise ValueError
  end.

(** The integer nearest to [n / d] ([0 <= n], [0 < d]), ties to even. *)
Definition round_half_even (n d : Z) : Z :=
  let q := n / d in
  let r := n mod d in
  match 2 * r ?= d with
  | Lt => q
  | Gt => q + 1
  | Eq => if Z.even q then q else q + 1
  end.

(** [round(x, ndigits)] for [0 <= ndigits]: the exact value of [x] is
    rounded to [ndigits] decimals, ties to even, and the decimal is
    converted back. *)
Definition round (x : spec_float) (ndigits : Z) : spec_float :=
  match x with
  | S754_finite s m e =>
      let n := Z.pos m * 10 ^ ndigits * 2 ^ (Z.max e 0) in
      let d := 2 ^ (Z.max (- e) 0) in
      of_decimal s (round_half_even n d) (- ndigits)
  | _ => x
  end.

(** Comparison of a float with a float, and of a float with an [int]
    (exact, as the interpreter compares them). *)
Definition compare (x y : spec_float) : option comparison := SFcompare x y.

Definition compare_Z (x : spec_float) (z : Z) : option comparison :=
  match x with
  | S754_nan => None
  | S754_infinity s => Some (if s then Lt else Gt)
  | S754_zero _ => Some (0 ?= z)
  | S754_finite s m e =>
      let v := if s then Z.neg m else Z.pos m in
      Some (if 0 <=? e then (v * 2 ^ e ?= z) else (v ?= z * 2 ^ (- e)))
  end.

Definition ge_of (c : option comparison) : bool :=
  match c with Some (Eq | Gt) => true | _ => false end.
Definition lt_of (c : option comparison) : bool :=
  match c with Some Lt => true | _ => false end.

Definition of_Z (z : Z) : spec_float := binary_normalize prec emax z 0 false.

End Float.

(* ===================================================================== *)
(** * Run-time values *)
(* ===================================================================== *)

(** What [json.loads] (and [yaml.safe_load]) can return.  A [dict] keeps its
    keys in insertion order and has each key once. *)
#[local] Set Warnings "-register-all".
Inductive pyval : Type :=
| PNone
| PBool (b : bool)
| PInt (z : Z)
| PFloat (f : spec_float)
| PStr (s : string)
| PList (l : list pyval)
| PDict (d : list (string * pyval)).

Module Dict.

Definition t : Type := list (string * pyval).

(** [d.get(key)], as an option. *)
Fixpoint lookup (key : string) (d : t) : option pyval :=
  match d with
  | [] => None
  | (k, v) :: d' => if String.eqb k key then Some v else lookup key d'
  end.

(** [d.get(key, default)] *)
Definition get (key : string) (default : pyval) (d : t) : pyval :=
  match lookup key d with
  | Some v => v
  | None => default
  end.

(** [key in d] *)
Definition contains (key : string) (d : t) : bool :=
  match lookup key d with Some _ => true | None => false end.

(** [d[key] = v]: a present key keeps its place. *)
Fixpoint set (key : string) (v : pyval) (d : t) : t :=
  match d with
  | [] => [(key, v)]
  | (k, w) :: d' => if String.eqb k key then (k, v) :: d' else (k, w) :: set key v d'
  end.

End Dict.

(** Truth value of a value ([if v:]). *)
Definition truthy (v : pyval) : bool :=
  match v with
  | PNone => false
  | PBool b => b
  | PInt z => negb (z =? 0)
  | PFloat f => match f with S754_zero _ => false | _ => true end
  | PStr s => negb (String.eqb s EmptyString)
  | PList l => match l with [] => false | _ => true end
  | PDict d => match d with [] => false | _ => true end
  end.

(** [v.get(key, default)]: only a [dict] has the method. *)
Definition py_get (v : pyval) (key : string) (default : pyval) : exc pyval :=
  match v with
  | PDict d => Ret (Dict.get key default d)
  | _ => Raise AttributeError
  end.

(** [v[:n]] for [0 <= n]: strings and lists can be sliced. *)
Definition py_prefix (v : pyval) (n : nat) : exc pyval :=
  match v with
  | PStr s => Ret (PStr (Str.take n s))
  | PList l => Ret (PList (take n l))
  | _ => Raise TypeError
  end.

(* ===================================================================== *)
(** * [json.loads] *)
(* ===================================================================== *)

(** The decoder of the [json] module with its default settings: strict
    strings, [NaN], [Infinity] and [-Infinity] accepted, the last value of a
    repeated key kept.  Every syntax error is a [JSONDecodeError]; nesting
    beyond the interpreter's recursion budget is a [RecursionError]. *)
Module Json.

(** The nesting budget of the decoder: the interpreter's recursion limit
    (1000 unless changed). *)
Definition recursion_limit : nat := 1000.

Definition is_ws (c : ascii) : bool := Str.mem c (String " " (String (Str.chr 9) (String (Str.chr 10) (String (Str.chr 13) EmptyString)))).

Fixpoint skip_ws (s : string) : string :=
  match s with
  | String c s' => if is_ws c then skip_ws s' else s
  | EmptyString => EmptyString
  end.

Definition hex_value (c : ascii) : option Z :=
  let n := Str.code c in
  if (48 <=? n) && (n <=? 57) then Some (n - 48)
  else if (97 <=? n) && (n <=? 102) then Some (n - 87)
  else if (65 <=? n) && (n <=? 70) then Some (n - 55)
  else None.

(** The four hexadecimal digits of a [\uXXXX] escape. *)
Definition hex4 (s : string) : exc (Z * string) :=
  match s with
  | String a (String b (String c (String d rest))) =>
      match hex_value a, hex_value b, hex_value c, hex_value d with
      | Some x, Some y, Some z, Some w => Ret (((x * 16 + y) * 16 + z) * 16 + w, rest)
      | _, _, _, _ => Raise JSONDecodeError
      end
  | _ => Raise JSONDecodeError
  end.

(** A code point as characters of the model: itself below 256, its UTF-8
    encoding from 256 on. *)
Definition encode (cp : Z) : string :=
  let byte z := String (Str.chr z) EmptyString in
  if cp <? 256 then byte cp
  else if cp <? 2048 then byte (192 + cp / 64) +:+ byte (128 + cp mod 64)
  else if cp <? 65536 then
    byte (224 + cp / 4096) +:+ byte (128 + (cp / 64) mod 64) +:+ byte (128 + cp mod 64)
  else
    byte (240 + cp / 262144) +:+ byte (128 + (cp / 4096) mod 64)
    +:+ byte (128 + (cp / 64) mod 64) +:+ byte (128 + cp mod 64).

Definition is_high_surrogate (c : Z) : bool := (55296 <=? c) && (c <=? 56319).
Definition is_low_surrogate (c : Z) : bool := (56320 <=? c) && (c <=? 57343).

(** What follows [\u]: one escape, or a surrogate pair of two. *)
Definition unicode_escape (s : string) : exc (string * string) :=
  r <- hex4 s ;;
  let '(c, rest) := r in
  if is_high_surrogate c && (6 <? String.length rest)%nat && Str.startswith "\u" rest then
    r2 <- hex4 (Str.drop 2 rest) ;;
    let '(c2, rest2) := r2 in
    if is_low_surrogate c2
    then Ret (encode (65536 + (c - 55296) * 1024 + (c2 - 56320)), rest2)
    else Ret (encode c, rest)
  else Ret (encode c, rest).

Definition simple_escape (c : ascii) : option ascii :=
  let n := Str.code c in
  if (n =? 34) || (n =? 92) || (n =? 47) then Some c
  else if n =? 98 then Some (Str.chr 8)
  else if n =? 102 then Some (Str.chr 12)
  else if n =? 110 then Some (Str.chr 10)
  else if n =? 114 then Some (Str.chr 13)
  else if n =? 116 then Some (Str.chr 9)
  else None.

(** [scanstring]: the text is what follows the opening quote; the result
    is the decoded string and what follows the closing quote. *)
Fixpoint scanstring (fuel : nat) (s : string) : exc (string * string) :=
  match fuel with
  | O => Raise JSONDecodeError
  | S fuel' =>
      match s with
      | EmptyString => Raise JSONDecodeError
      | String c s' =>
          let n := Str.code c in
          if n =? 34 then Ret (EmptyString, s')
          else if n =? 92 then
            match s' with
            | EmptyString => Raise JSONDecodeError
            | String e s'' =>
                if Str.code e =? 117 then
                  u <- unicode_escape s'' ;;
                  let '(chars, rest) := u in
                  r <- scanstring fuel' rest ;;
                  let '(str, rest') := r in
                  Ret (chars +:+ str, rest')
                else
                  match simple_escape e with
                  | Some c' =>
                      r <- scanstring fuel' s'' ;;
                      let '(str, rest') := r in
                      Ret (String c' str, rest')
                  | None => Raise JSONDecodeError
                  end
            end
          else if n <=? 31 then Raise JSONDecodeError
          else
            r <- scanstring fuel' s' ;;
            let '(str, rest') := r in
            Ret (String c str, rest')
      end
  end.

(** A run of decimal digits: their value, their number, and the rest. *)
Fixpoint digits (s : string) (acc : Z) (count : Z) : Z * Z * string :=
  match s with
  | String c s' =>
      if Str.isdigit c then digits s' (acc * 10 + Str.digit_value c) (count + 1)
      else (acc, count, s)
  | EmptyString => (acc, count, s)
  end.

(** [_match_number]: an integer part without superfluous leading zero,
    then a fraction and an exponent when they are complete.  A number
    with a fraction or an exponent is a [float], another an [int]. *)
Definition match_number (s : string) : exc (pyval * string) :=
  let '(neg, s1) :=
    match s with
    | String "-" s' => (true, s')
    | _ => (false, s)
    end in
  match s1 with
  | String c s2 =>
      let int_part :=
        if Str.eqb_char c "0" then Some (0, s2)
        else if Str.isdigit c then
          let '(v, _, rest) := digits s1 0 0 in Some (v, rest)
        else None in
      match int_part with
      | None => Raise JSONDecodeError
      | Some (iv, s3) =>
          let '(mant, frac_digits, has_frac, s4) :=
            match s3 with
            | String "." (String d s') =>
                if Str.isdigit d then
                  let '(v, count, rest) := digits (String d s') iv 0 in
                  (v, count, true, rest)
                else (iv, 0, false, s3)
            | _ => (iv, 0, false, s3)
            end in
          let '(exponent, has_exp, s5) :=
            match s4 with
            | String e s' =>
                if Str.eqb_char e "e" || Str.eqb_char e "E" then
                  let '(eneg, s'') :=
                    match s' with
                    | String "-" t => (true, t)
                    | String "+" t => (false, t)
                    | _ => (false, s')
                    end in
                  let '(v, count, rest) := digits s'' 0 0 in
                  if 0 <? count then ((if eneg then - v else v), true, rest)
                  else (0, false, s4)
                else (0, false, s4)
            | EmptyString => (0, false, s4)
            end in
          if has_frac || has_exp
          then Ret (PFloat (Float.of_decimal neg mant (exponent - frac_digits)), s5)
          else Ret (PInt (if neg then - iv else iv), s5)
      end
  | EmptyString => Raise JSONDecodeError
  end.

(** [scan_once] with the loops of [_parse_object] and [_parse_array].
    [depth] is the nesting budget that is left; [fuel] bounds the number
    of calls and is never exhausted when it exceeds the length of the
    text. *)
Fixpoint scan_once (fuel depth : nat) (s : string) {struct fuel} : exc (pyval * string) :=
  match fuel with
  | O => Raise RecursionError
  | S fuel' =>
      match s with
      | EmptyString => Raise JSONDecodeError
      | String c s' =>
          let n := Str.code c in
          if n =? 34 then
            r <- scanstring (String.length s) s' ;;
            let '(str, rest) := r in Ret (PStr str, rest)
          else if n =? 123 then
            match depth with
            | O => Raise RecursionError
            | S depth' =>
                match skip_ws s' with
                | String "}" rest => Ret (PDict [], rest)
                | s1 => object_loop fuel' depth' s1 []
                end
            end
          else if n =? 91 then
            match depth with
            | O => Raise RecursionError
            | S depth' =>
                match skip_ws s' with
                | String "]" rest => Ret (PList [], rest)
                | s1 => array_loop fuel' depth' s1 []
                end
            end
          else if Str.startswith "null" s then Ret (PNone, Str.drop 4 s)
          else if Str.startswith "true" s then Ret (PBool true, Str.drop 4 s)
          else if Str.startswith "false" s then Ret (PBool false, Str.drop 5 s)
          else if Str.startswith "NaN" s then Ret (PFloat S754_nan, Str.drop 3 s)
          else if Str.startswith "Infinity" s then Ret (PFloat (S754_infinity false), Str.drop 8 s)
          else if Str.startswith "-Infinity" s then Ret (PFloat (S754_infinity true), Str.drop 9 s)
          else match_number s
      end
  end
with object_loop (fuel depth : nat) (s : string) (acc : Dict.t) {struct fuel} : exc (pyval * string) :=
  match fuel with
  | O => Raise RecursionError
  | S fuel' =>
      match s with
      | String c s1 =>
          if Str.code c =? 34 then
            k <- scanstring (String.length s) s1 ;;
            let '(key, s2) := k in
            match skip_ws s2 with
            | String ":" s3 =>
                v <- scan_once fuel' depth (skip_ws s3) ;;
                let '(val, s4) := v in
                let acc' := Dict.set key val acc in
                match skip_ws s4 with
                | String "}" rest => Ret (PDict acc', rest)
                | String "," s5 => object_loop fuel' depth (skip_ws s5) acc'
                | _ => Raise JSONDecodeError
                end
            | _ => Raise JSONDecodeError
            end
          else Raise JSONDecodeError
      | EmptyString => Raise JSONDecodeError
      end
  end
with array_loop (fuel depth : nat) (s : string) (acc : list pyval) {struct fuel} : exc (pyval * string) :=
  match fuel with
  | O => Raise RecursionError
  | S fuel' =>
      v <- scan_once fuel' depth s ;;
      let '(val, s1) := v in
      let acc' := acc ++ [val] in
      match skip_ws s1 with
      | String "]" rest => Ret (PList acc', rest)
      | String "," s2 => array_loop fuel' depth (skip_ws s2) acc'
      | _ => Raise JSONDecodeError
      end
  end.

(** [json.loads(s)]: one value between optional white space, and nothing
    else. *)
Definition loads (s : string) : exc pyval :=
  r <- scan_once (S (S (String.length s))) recursion_limit (skip_ws s) ;;
  let '(obj, rest) := r in
  match skip_ws rest with
  | EmptyString => Ret obj
  | _ => Raise JSONDecodeError
  end.

End Json.

(* ===================================================================== *)
(** * [utils/parser.py] *)
(* ===================================================================== *)

(** [r"```(?:json)?\s*(.*?)```"] with [re.DOTALL] *)
Definition fence_pattern : Re.regex :=
  Re.Cat (Re.Lit "```")
    (Re.Cat (Re.Opt (Re.Lit "json"))
       (Re.Cat (Re.Star (Re.Chr Re.space))
          (Re.Cat (Re.Group (Re.LazyStar (Re.Chr Re.any)))
             (Re.Lit "```")))).

(** [match.group(1)]; a group that took no part is [None], which has no
    string methods. *)
Definition group1_str (m : Re.match_object) : exc string :=
  match Re.group1 m with
  | Some g => Ret g
  | None => Raise AttributeError
  end.

(** Step 2 of [extract_json]: the text between the first opening bracket and
    the last closing bracket of its kind, when there is one. *)
Definition bracket_slice (text : string) : option string :=
  let list_start := Str.find "[" text in
  let dict_start := Str.find "{" text in
  let '(start_idx, end_char) :=
    if negb (list_start =? -1) && ((dict_start =? -1) || (list_start <? dict_start))
    then (list_start, "]")
    else if negb (dict_start =? -1)
    then (dict_start, "}")
    else (-1, EmptyString) in
  if negb (start_idx =? -1) then
    let end_idx := Str.rfind end_char text in
    if negb (end_idx =? -1) && (start_idx <? end_idx)
    then Some (Str.slice start_idx (end_idx + 1) text)
    else None
  else None.

(** The body of the [try] statement of [extract_json]. *)
Definition extract_json_body (text : string) : exc pyval :=
  match Re.search fence_pattern text with
  | Some m =>
      g <- group1_str m ;;
      let json_str := Str.strip g in
      Json.loads json_str
  | None =>
      match bracket_slice text with
      | Some json_str => Json.loads json_str
      | None => Json.loads text
      end
  end.

(** [extract_json]: Python's [None] is both the result of a failure and the
    value of the JSON text [null]. *)
Definition extract_json (text : string) : exc pyval :=
  try_except (extract_json_body text)
    [ (is_JSONDecodeError, fun _ => Ret PNone);
      (is_Exception, fun _ => Ret PNone) ].

(* ===================================================================== *)
(** * [str()] and [repr()] *)
(* ===================================================================== *)

(** What an f-string writes for an interpolated value. *)
Module Repr.

Definition of_Z (z : Z) : string := NilZero.string_of_int (Z.to_int z).

Definition hex_digit (n : Z) : ascii :=
  if n <? 10 then Str.chr (48 + n) else Str.chr (87 + n).

(** [str.isprintable] on one character (code points below 256). *)
Definition isprintable (c : ascii) : bool :=
  let n := Str.code c in
  ((32 <=? n) && (n <=? 126)) || ((161 <=? n) && negb (n =? 173)).

Fixpoint escape (quote : ascii) (s : string) : string :=
  match s with
  | EmptyString => EmptyString
  | String c s' =>
      let n := Str.code c in
      let rest := escape quote s' in
      if Str.eqb_char c quote || (n =? 92) then String "\" (String c rest)
      else if n =? 9 then String "\" (String "t" rest)
      else if n =? 10 then String "\" (String "n" rest)
      else if n =? 13 then String "\" (String "r" rest)
      else if isprintable c then String c rest
      else String "\" (String "x" (String (hex_digit (n / 16)) (String (hex_digit (n mod 16)) rest)))
  end.

(** [repr(s)] for a string: single quotes, unless the string has a single
    quote and no double quote. *)
Definition of_str (s : string) : string :=
  let quote := if Str.mem "'" s && negb (Str.mem (Str.chr 34) s) then Str.chr 34 else "'"%char in
  String quote (escape quote s +:+ String quote EmptyString).

(** The number of decimal digits of [n], for [0 < n]. *)
Fixpoint count_digits (fuel : nat) (n : Z) : Z :=
  match fuel with
  | O => 0
  | S fuel' => if n <? 10 then 1 else 1 + count_digits fuel' (n / 10)
  end.

(** The least [k >= 1] with [b <= a * 10 ^ k], for [0 < a < b]. *)
Fixpoint scale_up (fuel : nat) (a b : Z) (k : Z) : Z :=
  match fuel with
  | O => k
  | S fuel' => if b <=? a * 10 then k else scale_up fuel' (a * 10) b (k + 1)
  end.

(** [decpt] with [10 ^ (decpt - 1) <= a / b < 10 ^ decpt]. *)
Definition decimal_point (a b : Z) : Z :=
  if b <=? a then count_digits (Z.to_nat (Z.log2 a) + 1) (a / b)
  else 1 - scale_up (Z.to_nat (Z.log2 b) + 1) a b 1.

(** The shortest decimal that reads back as [x = a / b]: [n]-digit
    candidates for [n = 1, 2, ...], the nearer one when both neighbours of
    [x] read back, the even one when they are equally near.  The result is
    the digits (as a number) and the exponent of their last place. *)
Fixpoint shortest (fuel : nat) (n : Z) (x : spec_float) (a b decpt : Z) : Z * Z :=
  let '(num, den) :=
    if decpt <=? n then (a * 10 ^ (n - decpt), b) else (a, b * 10 ^ (decpt - n)) in
  let lo := num / den in
  let hi := lo + 1 in
  let back c := match Float.of_decimal false c (decpt - n), x with
                | S754_finite _ m1 e1, S754_finite _ m2 e2 => Pos.eqb m1 m2 && (e1 =? e2)
                | _, _ => false
                end in
  let nearer_lo := match 2 * (num mod den) ?= den with
                   | Lt => true
                   | Eq => Z.even lo
                   | Gt => false
                   end in
  match back lo, back hi with
  | true, true => if nearer_lo then (lo, decpt - n) else (hi, decpt - n)
  | true, false => (lo, decpt - n)
  | false, true => (hi, decpt - n)
  | false, false =>
      match fuel with
      | O => (lo, decpt - n)
      | S fuel' => shortest fuel' (n + 1) x a b decpt
      end
  end.

Fixpoint zeros (n : nat) : string :=
  match n with O => EmptyString | S n' => String "0" (zeros n') end.

Fixpoint strip_zeros (fuel : nat) (d : Z) : Z :=
  match fuel with
  | O => d
  | S fuel' => if (d mod 10 =? 0) && negb (d =? 0) then strip_zeros fuel' (d / 10) else d
  end.

(** [repr(x)] for a float: the shortest digits that read back as [x], in
    exponent notation when the decimal point lies outside [-3 .. 16]. *)
Definition of_float (x : spec_float) : string :=
  match x with
  | S754_nan => "nan"
  | S754_infinity s => if s then "-inf" else "inf"
  | S754_zero s => if s then "-0.0" else "0.0"
  | S754_finite s m e =>
      let a := Z.pos m * 2 ^ (Z.max e 0) in
      let b := 2 ^ (Z.max (- e) 0) in
      let '(d, last) := shortest 17 1 x a b (decimal_point a b) in
      let decpt := last + Str.len (of_Z d) in
      let digits := of_Z (strip_zeros 20 d) in
      let n := Str.len digits in
      let sign := if s then "-" else EmptyString in
      sign +:+
      (if (decpt <=? -4) || (16 <? decpt) then
         let ex := decpt - 1 in
         let mant := match digits with
                     | String c (String c' rest) => String c (String "." (String c' rest))
                     | _ => digits
                     end in
         mant +:+ "e" +:+ (if ex <? 0 then "-" else "+")
              +:+ (if Z.abs ex <? 10 then "0" else EmptyString) +:+ of_Z (Z.abs ex)
       else if decpt <=? 0 then "0." +:+ zeros (Z.to_nat (- decpt)) +:+ digits
       else if n <=? decpt then digits +:+ zeros (Z.to_nat (decpt - n)) +:+ ".0"
       else Str.take (Z.to_nat decpt) digits +:+ "." +:+ Str.drop (Z.to_nat decpt) digits)
  end.

(** [repr(v)] *)
Fixpoint repr (v : pyval) : string :=
  match v with
  | PNone => "None"
  | PBool b => if b then "True" else "False"
  | PInt z => of_Z z
  | PFloat f => of_float f
  | PStr s => of_str s
  | PList l => "[" +:+ Str.join ", " (map repr l) +:+ "]"
  | PDict d =>
      "{" +:+ Str.join ", " (map (fun kv => of_str (fst kv) +:+ ": " +:+ repr (snd kv)) d) +:+ "}"
  end.

(** [str(v)], which is what [f"{v}"] writes. *)
Definition str (v : pyval) : string :=
  match v with
  | PStr s => s
  | _ => repr v
  end.

End Repr.

(* ===================================================================== *)
(** * [int()] *)
(* ===================================================================== *)

(** Digits with single underscores between them. *)
Fixpoint int_digits (s : string) (acc : Z) (after_digit : bool) : option Z :=
  match s with
  | EmptyString => if after_digit then Some acc else None
  | String c s' =>
      if Str.isdigit c then int_digits s' (acc * 10 + Str.digit_value c) true
      else if Str.eqb_char c "_" && after_digit then int_digits s' acc false
      else None
  end.

(** The white space [int] skips around a number: that of [str.isspace]
    without the four separators 28 to 31. *)
Definition int_space (c : ascii) : bool :=
  Str.isspace c && negb ((28 <=? Str.code c) && (Str.code c <=? 31)).

(** [int(s)] on a string: white space around, a sign, decimal digits.  (The
    interpreter's bound on the number of digits is not modelled.) *)
Definition int_of_str (s : string) : exc Z :=
  let t := Str.strip_with int_space s in
  let '(neg, t1) :=
    match t with
    | String "-" r => (true, r)
    | String "+" r => (false, r)
    | _ => (false, t)
    end in
  match int_digits t1 0 false with
  | Some v => Ret (if neg then - v else v)
  | None => Raise ValueError
  end.

(** [int(v)] *)
Definition py_int (v : pyval) : exc Z :=
  match v with
  | PNone => Raise TypeError
  | PBool b => Ret (if b then 1 else 0)
  | PInt z => Ret z
  | PFloat f => Float.trunc f
  | PStr s => int_of_str s
  | PList _ => Raise TypeError
  | PDict _ => Raise TypeError
  end.

(* ===================================================================== *)
(** * [core/types.py] *)
(* ===================================================================== *)

Record CritiqueMetrics : Type := {
  novelty_score : Z;
  feasibility_score : Z;
  specificity_score : Z;
  impact_score : Z;
  average_score : spec_float;
  feedback_text : pyval;
  raw_response : option string
}.

(** [sum(l)] *)
Definition sum (l : list Z) : Z := fold_left Z.add l 0.

(** [[s for s in scores if s > 0]] *)
Definition valid_scores (scores : list Z) : list Z := filter (fun s => 0 <? s) scores.

(** [CritiqueMetrics.compute_average] *)
Definition compute_average (self : CritiqueMetrics) : exc spec_float :=
  let scores := [novelty_score self; feasibility_score self;
                 specificity_score self; impact_score self] in
  let valid_scores := valid_scores scores in
  match valid_scores with
  | [] => Ret Float.zero
  | _ => Float.truediv (sum valid_scores) (Z.of_nat (length valid_scores))
  end.

Record IdeaContent : Type := {
  title : pyval;
  methodology : pyval;
  description : pyval;
  raw_content : pyval
}.

Record RefinementDetails : Type := {
  original_title : pyval;
  original_methodology : pyval;
  critique_feedback : pyval;
  critique_score : spec_float;
  refinement_reasoning : pyval;
  changes_made : pyval
}.

(** [content] is [None] only in a snapshot made from an idea that had no
    snapshot. *)
Record IdeaSnapshot : Type := {
  iteration : Z;
  role : string;
  content : option IdeaContent;
  critique : option CritiqueMetrics;
  refinement_details : option RefinementDetails
}.

Record IdeaObject : Type := {
  idea_id : string;
  current_iteration : Z;
  status : string;
  evolution_history : list IdeaSnapshot
}.

(** [IdeaObject.latest_content] *)
Definition latest_content (self : IdeaObject) : option IdeaContent :=
  match last (evolution_history self) with
  | None => None
  | Some snapshot => content snapshot
  end.

(** [IdeaObject.latest_critique] *)
Definition latest_critique (self : IdeaObject) : option CritiqueMetrics :=
  match last (evolution_history self) with
  | None => None
  | Some snapshot => critique snapshot
  end.

(* ===================================================================== *)
(** * The text backend *)
(* ===================================================================== *)

(** [BaseAgent.generate] hands a prompt to the backend and returns its
    answer.  The prompt reaches nothing else, so the backend is modelled by
    the answers it gives, one per call: a text, or the exception of an
    unsupported provider.  A backend that cannot be reached answers with the
    empty text, which is also the answer once the list is used up. *)
Definition llm : Type := list (exc string).

Definition generate (w : llm) : exc (string * llm) :=
  match w with
  | [] => Ret (EmptyString, [])
  | Ret response :: w' => Ret (response, w')
  | Raise e :: _ => Raise e
  end.

(* ===================================================================== *)
(** * [agents/critic.py] *)
(* ===================================================================== *)

Module CriticAgent.

(** [_safe_int] *)
Definition _safe_int (value : pyval) : exc Z :=
  try_except (py_int value)
    [ (fun e => is_ValueError e || is_TypeError e, fun _ => Ret 0) ].

(** [_create_error_critique] *)
Definition _create_error_critique (error_msg : string) : CritiqueMetrics :=
  {| novelty_score := 0;
     feasibility_score := 0;
     specificity_score := 0;
     impact_score := 0;
     average_score := Float.zero;
     feedback_text := PStr ("Error: " +:+ error_msg);
     raw_response := None |}.

(** The two patterns of [_find_score] for a keyword:
    [rf'{keyword}[:\s]+(\d)[/\s]?5?'] and [rf'{keyword}\s+score[:\s]+(\d)']. *)
Definition patterns (keyword : string) : list Re.regex :=
  [ Re.Cat (Re.Lit keyword)
      (Re.Cat (Re.Plus (Re.Chr (Re.one_of ":" Re.space)))
         (Re.Cat (Re.Group (Re.Chr Re.digit))
            (Re.Cat (Re.Opt (Re.Chr (Re.one_of "/" Re.space)))
               (Re.Opt (Re.Lit "5")))));
    Re.Cat (Re.Lit keyword)
      (Re.Cat (Re.Plus (Re.Chr Re.space))
         (Re.Cat (Re.Lit "score")
            (Re.Cat (Re.Plus (Re.Chr (Re.one_of ":" Re.space)))
               (Re.Group (Re.Chr Re.digit))))) ].

(** The inner loop of [_find_score]: [Some score] when a pattern returns. *)
Fixpoint find_score_patterns (text_lower : string) (ps : list Re.regex) : exc (option Z) :=
  match ps with
  | [] => Ret None
  | pattern :: rest =>
      match Re.search pattern text_lower with
      | Some m =>
          g <- group1_str m ;;
          score <- int_of_str g ;;
          if (1 <=? score) && (score <=? 5) then Ret (Some score)
          else find_score_patterns text_lower rest
      | None => find_score_patterns text_lower rest
      end
  end.

(** The outer loop of [_find_score]. *)
Fixpoint find_score_keywords (text_lower : string) (keywords : list string) : exc Z :=
  match keywords with
  | [] => Ret 0
  | keyword :: rest =>
      r <- find_score_patterns text_lower (patterns keyword) ;;
      match r with
      | Some score => Ret score
      | None => find_score_keywords text_lower rest
      end
  end.

(** [_find_score] *)
Definition _find_score (text : string) (keywords : list string) : exc Z :=
  let text_lower := Str.lower text in
  find_score_keywords text_lower keywords.

(** [sum(valid_scores) / len(valid_scores) if valid_scores else 0.0] *)
Definition average_of (scores : list Z) : exc spec_float :=
  let valid_scores := valid_scores scores in
  match valid_scores with
  | [] => Ret Float.zero
  | _ => Float.truediv (sum valid_scores) (Z.of_nat (length valid_scores))
  end.

(** [_parse_from_text] *)
Definition _parse_from_text (response : string) : exc CritiqueMetrics :=
  novelty <- _find_score response ["novelty"; "novel"] ;;
  feasibility <- _find_score response ["feasibility"; "feasible"] ;;
  specificity <- _find_score response ["specificity"; "specific"] ;;
  impact <- _find_score response ["impact"] ;;
  let scores := [novelty; feasibility; specificity; impact] in
  average <- average_of scores ;;
  Ret {| novelty_score := novelty;
         feasibility_score := feasibility;
         specificity_score := specificity;
         impact_score := impact;
         average_score := Float.round average 2;
         feedback_text := PStr (Str.take 2000 response);
         raw_response := Some response |}.

(** [if data.get(key): feedback_parts.append(f"{label} {data[key]}")] *)
Definition reasoning_part (data : Dict.t) (key label : string) : list string :=
  let v := Dict.get key PNone data in
  if truthy v then [label +:+ " " +:+ Repr.str v] else [].

(** The bulleted list of [key_weaknesses] or [key_strengths]. *)
Definition bullets_part (data : Dict.t) (key heading : string) : list string :=
  let v := Dict.get key PNone data in
  if truthy v then
    match v with
    | PList items =>
        [heading +:+ Str.nl +:+ Str.join Str.nl (map (fun w => "- " +:+ Repr.str w) items)]
    | _ => []
    end
  else [].

(** [_parse_critique_response] *)
Definition _parse_critique_response (response : string) : exc CritiqueMetrics :=
  data <- extract_json response ;;
  match data with
  | PDict data =>
      novelty <- _safe_int (Dict.get "novelty_score" (PInt 0) data) ;;
      feasibility <- _safe_int (Dict.get "feasibility_score" (PInt 0) data) ;;
      specificity <- _safe_int (Dict.get "specificity_score" (PInt 0) data) ;;
      impact <- _safe_int (Dict.get "impact_score" (PInt 0) data) ;;
      let of5 (label : string) (score : Z) : string :=
        "**" +:+ label +:+ " (" +:+ Repr.of_Z score +:+ "/5):**" in
      let feedback_parts :=
        reasoning_part data "overall_feedback" "**Overall Assessment:**"
        ++ reasoning_part data "novelty_reasoning" (of5 "Novelty" novelty)
        ++ reasoning_part data "feasibility_reasoning" (of5 "Feasibility" feasibility)
        ++ reasoning_part data "specificity_reasoning" (of5 "Specificity" specificity)
        ++ reasoning_part data "impact_reasoning" (of5 "Impact" impact)
        ++ bullets_part data "key_weaknesses" "**Key Weaknesses:**"
        ++ bullets_part data "key_strengths" "**Key Strengths:**" in
      let feedback_text :=
        match feedback_parts with
        | [] => Dict.get "overall_feedback" (PStr "No detailed feedback provided.") data
        | _ => PStr (Str.join (Str.nl +:+ Str.nl) feedback_parts)
        end in
      let scores := [novelty; feasibility; specificity; impact] in
      average <- average_of scores ;;
      Ret {| novelty_score := novelty;
             feasibility_score := feasibility;
             specificity_score := specificity;
             impact_score := impact;
             average_score := Float.round average 2;
             feedback_text := feedback_text;
             raw_response := Some response |}
  | _ => _parse_from_text response
  end.

(** The body of the loop of [evaluate] for one idea.  The progress line
    slices the title, which only a string or a list allows. *)
Definition evaluate_one (idea : IdeaObject) (w : llm) : exc (CritiqueMetrics * llm) :=
  match latest_content idea with
  | None => Ret (_create_error_critique "No content found", w)
  | Some content =>
      _ <- py_prefix (title content) 50 ;;
      r <- generate w ;;
      let '(response, w') := r in
      critique <- _parse_critique_response response ;;
      Ret (critique, w')
  end.

(** [evaluate]: the ideas are evaluated one by one, in order. *)
Fixpoint evaluate (ideas : list IdeaObject) (w : llm) : exc (list CritiqueMetrics * llm) :=
  match ideas with
  | [] => Ret ([], w)
  | idea :: rest =>
      r <- evaluate_one idea w ;;
      let '(critique, w') := r in
      rs <- evaluate rest w' ;;
      let '(critiques, w'') := rs in
      Ret (critique :: critiques, w'')
  end.

End CriticAgent.

(* ===================================================================== *)
(** * [agents/refiner.py] *)
(* ===================================================================== *)

Module RefinerAgent.

Definition bullet : string := Json.encode 8226.   (* U+2022 *)
Definition arrow : string := Json.encode 8594.    (* U+2192 *)

(** [v += text] for a string [text]: concatenation on a string, extension
    by the characters on a list. *)
Definition py_iadd_str (v : pyval) (text : string) : exc pyval :=
  match v with
  | PStr s => Ret (PStr (s +:+ text))
  | PList l =>
      Ret (PList (l ++ map (fun c => PStr (String c EmptyString)) (list_ascii_of_string text)))
  | _ => Raise TypeError
  end.

(** The line of the change log for one addressed weakness. *)
Definition weakness_line (w : pyval) : list string :=
  match w with
  | PDict w =>
      [bullet +:+ " " +:+ Repr.str (Dict.get "weakness" (PStr "N/A") w)
              +:+ " " +:+ arrow +:+ " " +:+ Repr.str (Dict.get "solution" (PStr "N/A") w)]
  | _ => []
  end.

(** The change summary, with the list of addressed weaknesses when there
    is one. *)
Definition build_changes (data : Dict.t) : exc pyval :=
  let changes_made := Dict.get "changes_summary" (PStr EmptyString) data in
  if truthy (Dict.get "addressed_weaknesses" PNone data) then
    match Dict.get "addressed_weaknesses" PNone data with
    | PList weaknesses =>
        let changes_list := flat_map weakness_line weaknesses in
        match changes_list with
        | [] => Ret changes_made
        | _ =>
            py_iadd_str changes_made
              (Str.nl +:+ Str.nl +:+ "**Addressed Weaknesses:**" +:+ Str.nl
                      +:+ Str.join Str.nl changes_list)
        end
    | _ => Ret changes_made
    end
  else Ret changes_made.

(** [improve].  The progress line slices the title. *)
Definition improve (idea : IdeaObject) (w : llm)
  : exc (option IdeaContent * option RefinementDetails * llm) :=
  match latest_content idea, latest_critique idea with
  | Some content, Some critique =>
      _ <- py_prefix (title content) 50 ;;
      r <- generate w ;;
      let '(response, w') := r in
      data <- extract_json response ;;
      match data with
      | PDict data =>
          let new_content :=
            {| title := Dict.get "refined_title" (title content) data;
               methodology := Dict.get "refined_methodology" (methodology content) data;
               description := Dict.get "refined_description" (description content) data;
               raw_content := PStr response |} in
          changes_made <- build_changes data ;;
          feedback <- py_prefix (feedback_text critique) 500 ;;
          let refinement_details :=
            {| original_title := title content;
               original_methodology := methodology content;
               critique_feedback := feedback;
               critique_score := average_score critique;
               refinement_reasoning :=
                 Dict.get "thinking_process" (PStr "No reasoning provided") data;
               changes_made :=
                 if truthy changes_made then changes_made
                 else PStr "No specific changes documented" |} in
          Ret (Some new_content, Some refinement_details, w')
      | _ =>
          feedback <- py_prefix (feedback_text critique) 500 ;;
          let refinement_details :=
            {| original_title := title content;
               original_methodology := methodology content;
               critique_feedback := feedback;
               critique_score := average_score critique;
               refinement_reasoning := PStr "Parsing failed - using original content";
               changes_made := PStr "No changes (parsing error)" |} in
          Ret (Some content, Some refinement_details, w')
      end
  | content, _ => Ret (content, None, w)
  end.

End RefinerAgent.

(* ===================================================================== *)
(** * [core/model_manager.py] and the constructors of the agents *)
(* ===================================================================== *)

Module ModelManager.

(** [_load_config]: [loaded] is what opening and parsing the file gives;
    any exception there leaves the empty configuration. *)
Definition _load_config (loaded : exc pyval) : exc pyval :=
  try_except loaded [ (is_Exception, fun _ => Ret (PDict [])) ].

(** [__init__]: the configuration, after a look at [ollama.base_url]. *)
Definition init (loaded : exc pyval) : exc pyval :=
  config <- _load_config loaded ;;
  ollama <- py_get config "ollama" (PDict []) ;;
  _ <- py_get ollama "base_url" (PStr "http://localhost:11434") ;;
  Ret config.

(** [get_model_config] *)
Definition get_model_config (config : pyval) (role : string) : exc pyval :=
  agent_models <- py_get config "agent_models" (PDict []) ;;
  py_get agent_models role (PDict []).

End ModelManager.

(** [key in v] *)
Definition py_contains (key : string) (v : pyval) : exc bool :=
  match v with
  | PDict d => Ret (Dict.contains key d)
  | PList l => Ret (existsb (fun x => match x with PStr s => String.eqb s key | _ => false end) l)
  | PStr s => Ret (negb (Str.find key s =? -1))
  | _ => Raise TypeError
  end.

(** [v[key]] for a string [key] that is in [v]. *)
Definition py_getitem (v : pyval) (key : string) : exc pyval :=
  match v with
  | PDict d => Ret (Dict.get key PNone d)
  | _ => Raise TypeError
  end.

(** [BaseAgent.__init__], as far as the configuration goes (reading the
    prompt file is left out). *)
Definition BaseAgent_init (config : pyval) (role : string) : exc unit :=
  model_cfg <- ModelManager.get_model_config config role ;;
  _ <- py_get model_cfg "system_prompt_path" PNone ;;
  Ret tt.

(** [GeneratorAgent.__init__]: the two settings of [openalex] are
    required. *)
Definition GeneratorAgent_init (config : pyval) : exc unit :=
  _ <- BaseAgent_init config "generator" ;;
  openalex_config <- py_get config "openalex" (PDict []) ;;
  has_limit <- py_contains "fetch_limit" openalex_config ;;
  if negb has_limit then Raise ValueError
  else
    has_top <- py_contains "top_k_papers" openalex_config ;;
    if negb has_top then Raise ValueError
    else
      _ <- py_getitem openalex_config "fetch_limit" ;;
      _ <- py_getitem openalex_config "top_k_papers" ;;
      Ret tt.

(* ===================================================================== *)
(** * [main.py] *)
(* ===================================================================== *)

Module Main.

(** The three outcomes of the filter step, as it prints them. *)
Inductive decision : Type := Accept | Drop | Refine.

Record event : Type := {
  ev_loop : Z;            (* the value of [loop] *)
  ev_idea : nat;          (* the idea *)
  ev_decision : decision
}.

(** The [IdeaObject]s are shared between the lists of the loop: they live
    in [store], and the lists hold their indices. *)
Record state : Type := {
  store : list IdeaObject;
  accepted_ideas : list nat;
  printed : list event
}.

(** [x >= y] and [x < y] for a float [x]: [y] has to be a number. *)
Definition compare_with (x : spec_float) (y : pyval) : exc (option comparison) :=
  match y with
  | PFloat f => Ret (Float.compare x f)
  | PInt z => Ret (Float.compare_Z x z)
  | PBool b => Ret (Float.compare_Z x (if b then 1 else 0))
  | _ => Raise TypeError
  end.

Definition py_ge (x : spec_float) (y : pyval) : exc bool :=
  c <- compare_with x y ;; Ret (Float.ge_of c).

Definition py_lt (x : spec_float) (y : pyval) : exc bool :=
  c <- compare_with x y ;; Ret (Float.lt_of c).

(** The [if]/[elif]/[else] of the filter step. *)
Definition classify (average : spec_float) (score_threshold drop_threshold : pyval)
  : exc decision :=
  ge <- py_ge average score_threshold ;;
  if ge then Ret Accept
  else
    lt <- py_lt average drop_threshold ;;
    if lt then Ret Drop else Ret Refine.

(** The thresholds, read from the configuration. *)
Definition read_thresholds (config : pyval) : exc (pyval * pyval) :=
  loop_settings <- py_get config "loop_settings" (PDict []) ;;
  score_threshold <- py_get loop_settings "score_threshold" (PFloat (Float.of_Z 3)) ;;
  drop_threshold <- py_get loop_settings "drop_threshold" (PFloat (Float.of_Z 2)) ;;
  Ret (score_threshold, drop_threshold).

(** [idea.evolution_history[-1].critique = review] *)
Fixpoint set_last_critique (review : CritiqueMetrics) (h : list IdeaSnapshot) : list IdeaSnapshot :=
  match h with
  | [] => []
  | [snapshot] =>
      [ {| iteration := iteration snapshot;
           role := role snapshot;
           content := content snapshot;
           critique := Some review;
           refinement_details := refinement_details snapshot |} ]
  | snapshot :: rest => snapshot :: set_last_critique review rest
  end.

Definition attach_critique (review : CritiqueMetrics) (idea : IdeaObject) : IdeaObject :=
  {| idea_id := idea_id idea;
     current_iteration := current_iteration idea;
     status := status idea;
     evolution_history := set_last_critique review (evolution_history idea) |}.

(** [idea.status = s] *)
Definition set_status (s : string) (idea : IdeaObject) : IdeaObject :=
  {| idea_id := idea_id idea;
     current_iteration := current_iteration idea;
     status := s;
     evolution_history := evolution_history idea |}.

(** [idea.evolution_history.append(new_snapshot); idea.current_iteration += 1] *)
Definition append_snapshot (new_snapshot : IdeaSnapshot) (idea : IdeaObject) : IdeaObject :=
  {| idea_id := idea_id idea;
     current_iteration := current_iteration idea + 1;
     status := status idea;
     evolution_history := evolution_history idea ++ [new_snapshot] |}.

(** The objects a list of references denotes. *)
Definition objects (st : list IdeaObject) (refs : list nat) : list IdeaObject :=
  omap (fun r => st !! r) refs.

(** The body of the filter step for one idea and its review.  The line it
    prints needs the latest content and slices its title. *)
Definition filter_idea (loop : Z) (score_threshold drop_threshold : pyval)
           (r : nat) (review : CritiqueMetrics) (s : state) (needs_refinement : list nat)
  : exc (state * list nat) :=
  let store1 := alter (attach_critique review) r (store s) in
  match store1 !! r with
  | None => Ret (s, needs_refinement)
  | Some idea =>
      content <- match latest_content idea with
                 | Some c => Ret c
                 | None => Raise AttributeError
                 end ;;
      _ <- py_prefix (title content) 30 ;;
      d <- classify (average_score review) score_threshold drop_threshold ;;
      let printed' := printed s ++ [ {| ev_loop := loop; ev_idea := r; ev_decision := d |} ] in
      match d with
      | Accept =>
          Ret ({| store := alter (set_status "accepted") r store1;
                  accepted_ideas := accepted_ideas s ++ [r];
                  printed := printed' |},
               needs_refinement)
      | Drop =>
          Ret ({| store := alter (set_status "rejected") r store1;
                  accepted_ideas := accepted_ideas s;
                  printed := printed' |},
               needs_refinement)
      | Refine =>
          Ret ({| store := store1;
                  accepted_ideas := accepted_ideas s;
                  printed := printed' |},
               needs_refinement ++ [r])
      end
  end.

(** The filter step: [for idea, review in zip(ideas, critiques)]. *)
Fixpoint filter_ideas (loop : Z) (score_threshold drop_threshold : pyval)
         (pairs : list (nat * CritiqueMetrics)) (s : state) (needs_refinement : list nat)
  : exc (state * list nat) :=
  match pairs with
  | [] => Ret (s, needs_refinement)
  | (r, review) :: rest =>
      x <- filter_idea loop score_threshold drop_threshold r review s needs_refinement ;;
      filter_ideas loop score_threshold drop_threshold rest (fst x) (snd x)
  end.

(** The body of the refinement step for one idea. *)
Definition refine_idea (loop : Z) (r : nat) (st : list IdeaObject) (w : llm)
  : exc (list IdeaObject * llm) :=
  match st !! r with
  | None => Ret (st, w)
  | Some idea =>
      res <- RefinerAgent.improve idea w ;;
      let '(new_content, details, w') := res in
      let new_snapshot :=
        {| iteration := loop + 1;
           role := "refined";
           content := new_content;
           critique := None;
           refinement_details := details |} in
      Ret (alter (append_snapshot new_snapshot) r st, w')
  end.

(** The refinement step: [for idea in needs_refinement]; every idea of the
    list goes on to [refined_ideas]. *)
Fixpoint refine_ideas (loop : Z) (needs_refinement : list nat) (st : list IdeaObject)
         (w : llm) (refined_ideas : list nat) : exc (list IdeaObject * list nat * llm) :=
  match needs_refinement with
  | [] => Ret (st, refined_ideas, w)
  | r :: rest =>
      x <- refine_idea loop r st w ;;
      refine_ideas loop rest (fst x) (snd x) (refined_ideas ++ [r])
  end.

(** [for loop in range(max_loops)]: [n] passes are left, [loop] is the
    index of the next one.  The result is the state, the list [ideas] and
    the backend as the loop leaves them. *)
Fixpoint passes (n : nat) (loop : Z) (score_threshold drop_threshold : pyval)
         (s : state) (ideas : list nat) (w : llm) : exc (state * list nat * llm) :=
  match n with
  | O => Ret (s, ideas, w)
  | S n' =>
      match ideas with
      | [] => Ret (s, ideas, w)
      | _ =>
          ev <- CriticAgent.evaluate (objects (store s) ideas) w ;;
          let '(critiques, w1) := ev in
          fl <- filter_ideas loop score_threshold drop_threshold
                  (zip ideas critiques) s [] ;;
          let '(s1, needs_refinement) := fl in
          match needs_refinement with
          | [] => Ret (s1, ideas, w1)
          | _ =>
              rf <- refine_ideas loop needs_refinement (store s1) w1 [] ;;
              let '(store2, refined_ideas, w2) := rf in
              passes n' (loop + 1) score_threshold drop_threshold
                {| store := store2;
                   accepted_ideas := accepted_ideas s1;
                   printed := printed s1 |}
                refined_ideas w2
          end
      end
  end.

(** After the loop: the ideas that are left and still active are included
    as they are. *)
Fixpoint finalize (ideas : list nat) (s : state) : state :=
  match ideas with
  | [] => s
  | r :: rest =>
      match store s !! r with
      | Some idea =>
          if String.eqb (status idea) "active" then
            finalize rest
              {| store := alter (set_status "refined_best_effort") r (store s);
                 accepted_ideas := accepted_ideas s ++ [r];
                 printed := printed s |}
          else finalize rest s
      | None => finalize rest s
      end
  end.

(** What [create_drafts] makes of one topic: a fresh [IdeaObject] with the
    draft as its only snapshot. *)
Definition new_idea (id : string) (draft : IdeaContent) : IdeaObject :=
  {| idea_id := id;
     current_iteration := 0;
     status := "active";
     evolution_history :=
       [ {| iteration := 0;
            role := "draft";
            content := Some draft;
            critique := None;
            refinement_details := None |} ] |}.

Record run : Type := {
  saved : list IdeaObject;     (* the array written to the output file *)
  final : state
}.

(** [research_loop].  [loaded] is what reading the configuration file
    gives, [drafts] are the identifiers and contents of the ideas
    [create_drafts] returns, [w] is the backend of the critic and the
    refiner. *)
Definition research_loop (loaded : exc pyval) (drafts : list (string * IdeaContent))
           (max_loops : Z) (w : llm) : exc run :=
  config <- ModelManager.init loaded ;;
  th <- read_thresholds config ;;
  let '(score_threshold, drop_threshold) := th in
  _ <- ModelManager.get_model_config config "generator" ;;
  _ <- GeneratorAgent_init config ;;
  let ideas := map (fun d => new_idea (fst d) (snd d)) drafts in
  _ <- BaseAgent_init config "critic" ;;
  _ <- BaseAgent_init config "refiner" ;;
  lp <- passes (Z.to_nat max_loops) 0 score_threshold drop_threshold
          {| store := ideas; accepted_ideas := []; printed := [] |}
          (seq 0 (length ideas)) w ;;
  let '(s, ideas', _) := lp in
  let s' := finalize ideas' s in
  Ret {| saved := objects (store s') (accepted_ideas s'); final := s' |}.

End Main.

(* ===================================================================== *)
(** * [agents/generator.py]: the drafts of [create_drafts] *)
(* ===================================================================== *)

Module GeneratorAgent.

(** [sep.join(parts)]: every part has to be a string. *)
Definition py_join (sep : string) (parts : list pyval) : exc string :=
  strings <- mapM (fun part => match part with
                               | PStr s => Ret s
                               | _ => Raise TypeError
                               end) parts ;;
  Ret (Str.join sep strings).

(** [for item in v]: a list gives its items, a string its characters, a
    mapping its keys; nothing else can be iterated. *)
Definition iterate (v : pyval) : exc (list pyval) :=
  match v with
  | PList l => Ret l
  | PStr s => Ret (map (fun c => PStr (String c EmptyString)) (list_ascii_of_string s))
  | PDict d => Ret (map (fun kv => PStr (fst kv)) d)
  | _ => Raise TypeError
  end.

(** The list of topics in what [extract_json] returned. *)
Definition topics_list (data : pyval) : pyval :=
  match data with
  | PDict d => if Dict.contains "topics" d then Dict.get "topics" PNone d else PList []
  | PList _ => data
  | _ => PList []
  end.

(** The methodology of a topic: its [methodology] and its table of
    contents, when they are there. *)
Definition methodology_of (item : Dict.t) : exc pyval :=
  let methodology := Dict.get "methodology" PNone item in
  let part1 := if truthy methodology then [methodology] else [] in
  let toc := Dict.get "table_of_contents" PNone item in
  part2 <- (if truthy toc then
              match toc with
              | PList lines =>
                  structure <- py_join Str.nl lines ;;
                  Ret [PStr (Str.nl +:+ "**Proposed Structure:**" +:+ Str.nl +:+ structure)]
              | _ => Ret []
              end
            else Ret []) ;;
  match part1 ++ part2 with
  | [] => Ret (Dict.get "methodology" (PStr EmptyString) item)
  | methodology_parts =>
      joined <- py_join (Str.nl +:+ Str.nl) methodology_parts ;;
      Ret (PStr joined)
  end.

(** [if item.get(key): description_parts.append(f"{label} {item[key]}")] *)
Definition labelled (item : Dict.t) (key label : string) : list string :=
  let v := Dict.get key PNone item in
  if truthy v then [label +:+ " " +:+ Repr.str v] else [].

Definition description_of (item : Dict.t) : pyval :=
  let description_parts :=
    labelled item "background" "**Background:**"
    ++ labelled item "necessity" "**Necessity:**"
    ++ labelled item "expected_effects" "**Expected Effects:**" in
  match description_parts with
  | [] => Dict.get "description" (PStr EmptyString) item
  | _ => PStr (Str.join (Str.nl +:+ Str.nl) description_parts)
  end.

(** The content made of one topic. *)
Definition content_of (item : Dict.t) : exc IdeaContent :=
  methodology <- methodology_of item ;;
  Ret {| title := Dict.get "title" (PStr "Untitled") item;
         methodology := methodology;
         description := description_of item;
         raw_content := PStr (Repr.str (PDict item)) |}.

(** The loop over the topics: what is not a mapping is skipped. *)
Fixpoint contents_of (items : list pyval) : exc (list IdeaContent) :=
  match items with
  | [] => Ret []
  | PDict item :: rest =>
      content <- content_of item ;;
      contents <- contents_of rest ;;
      Ret (content :: contents)
  | _ :: rest => contents_of rest
  end.

(** The contents of the ideas [create_drafts] returns, from what
    [extract_json] made of the response. *)
Definition drafts_of_data (data : pyval) : exc (list IdeaContent) :=
  items <- iterate (topics_list data) ;;
  contents_of items.

End GeneratorAgent.

(* ===================================================================== *)
(** * [utils/html_generator.py]: [escape_html] *)
(* ===================================================================== *)

Module Html.

(** [s.replace(old, new)] for a one-character [old]. *)
Fixpoint replace_char (old : ascii) (new : string) (s : string) : string :=
  match s with
  | EmptyString => EmptyString
  | String c s' =>
      (if Str.eqb_char c old then new else String c EmptyString)
      +:+ replace_char old new s'
  end.

Definition amp : ascii := Str.chr 38.
Definition lt : ascii := Str.chr 60.
Definition gt : ascii := Str.chr 62.
Definition quot : ascii := Str.chr 34.

(** [escape_html]: the four replacements, one after the other. *)
Definition escape_html (text : string) : string :=
  replace_char quot "&quot;"
    (replace_char gt "&gt;"
       (replace_char lt "&lt;"
          (replace_char amp "&amp;" text))).

End Html.

(* ===================================================================== *)
(** * Definitions for the statements *)
(* ===================================================================== *)

Import Main.

(** A pattern that has its group on every path through it. *)
Fixpoint sets_group (r : Re.regex) : bool :=
  match r with
  | Re.Group _ => true
  | Re.Cat r1 r2 => sets_group r1 || sets_group r2
  | _ => false
  end.

(** What a step of the extraction yields: the parsed value, or [None] when
    parsing raises. *)
Definition loads_or_none (s : string) : pyval :=
  match Json.loads s with
  | Ret v => v
  | Raise _ => PNone
  end.

(** The extraction as the design document words it: each step is tried in
    turn, and a step whose text does not parse falls through to the next
    one. *)
Definition extract_json_fallthrough (text : string) : pyval :=
  let step3 := loads_or_none text in
  let step2 :=
    match bracket_slice text with
    | Some json_str =>
        match Json.loads json_str with
        | Ret v => v
        | Raise _ => step3
        end
    | None => step3
    end in
  match Re.search fence_pattern text with
  | Some m =>
      match Re.group1 m with
      | Some g =>
          match Json.loads (Str.strip g) with
          | Ret v => v
          | Raise _ => step2
          end
      | None => step2
      end
  | None => step2
  end.

(** The steps as the code selects them: by what is found in the text, not by
    what parses. *)
Definition extract_json_selected (text : string) : pyval :=
  match Re.search fence_pattern text with
  | Some m =>
      match Re.group1 m with
      | Some g => loads_or_none (Str.strip g)
      | None => PNone
      end
  | None =>
      match bracket_slice text with
      | Some json_str => loads_or_none json_str
      | None => loads_or_none text
      end
  end.

(** A fenced block that is not JSON, then an object. *)
Definition fenced_then_object : string := Str.dq "```x``` {'a': 1}".

(** Scores 4, 4 and 5: the mean is 13/3. *)
Definition scores_4_4_5 : string :=
  Str.dq "{'novelty_score': 4, 'feasibility_score': 4, 'specificity_score': 5}".

(** An idea with a draft titled "T" that has been critiqued. *)
Definition critiqued_idea : IdeaObject :=
  Main.attach_critique
    {| novelty_score := 2; feasibility_score := 3; specificity_score := 0;
       impact_score := 0; average_score := Float.of_decimal false 25 (-1);
       feedback_text := PStr "Too vague."; raw_response := None |}
    (Main.new_idea "idea-1"
       {| title := PStr "T"; methodology := PStr "M";
          description := PNone; raw_content := PNone |}).

(** A configuration with the settings of the agents and of [openalex], and
    without [loop_settings]. *)
Definition config_without_thresholds : pyval :=
  PDict
    [ ("ollama", PDict [("base_url", PStr "http://localhost:11434")]);
      ("agent_models",
        PDict [ ("generator", PDict [("provider", PStr "ollama"); ("model", PStr "m")]);
                ("critic", PDict [("provider", PStr "ollama"); ("model", PStr "m")]);
                ("refiner", PDict [("provider", PStr "ollama"); ("model", PStr "m")]) ]);
      ("openalex", PDict [("fetch_limit", PInt 100); ("top_k_papers", PInt 5)]) ].

Definition one_draft : list (string * IdeaContent) :=
  [ ("idea-1", {| title := PStr "T"; methodology := PStr "M";
                  description := PNone; raw_content := PNone |}) ].

(** The status and the number of snapshots of the idea at a reference. *)
Definition status_at (st : list IdeaObject) (i : nat) : option string :=
  status <$> st !! i.

Definition roles_at (st : list IdeaObject) (i : nat) : option (list string) :=
  (fun idea => map role (evolution_history idea)) <$> st !! i.

Definition add_refined (roles : list string) : list string := roles ++ ["refined"].

(** What the filter step does to the idea it classifies. *)
Definition outcome (d : decision) (idea : IdeaObject) : IdeaObject :=
  match d with
  | Accept => set_status "accepted" idea
  | Drop => set_status "rejected" idea
  | Refine => idea
  end.

Definition refine_event (loop : Z) (i : nat) : event :=
  {| ev_loop := loop; ev_idea := i; ev_decision := Refine |}.

(** The invariant of the controller: [active] lists, once each, the ideas
    whose status is still "active"; the accepted list holds, once each, the
    ideas whose status is "accepted" or "refined_best_effort"; an idea that
    was dropped has the status "rejected". *)
Record inv (s : state) (active : list nat) : Prop := {
  inv_nodup_accepted : NoDup (accepted_ideas s);
  inv_nodup_active : NoDup active;
  inv_accepted : forall i idea, store s !! i = Some idea ->
    (i ∈ accepted_ideas s <->
     status idea = "accepted" \/ status idea = "refined_best_effort");
  inv_active : forall i idea, store s !! i = Some idea ->
    (status idea = "active" <-> i ∈ active);
  inv_valid : forall i, i ∈ active -> is_Some (store s !! i);
  inv_dropped : forall e, e ∈ printed s -> ev_decision e = Drop ->
    exists idea, store s !! ev_idea e = Some idea /\ status idea = "rejected";
  inv_accepted_valid : forall i, i ∈ accepted_ideas s -> is_Some (store s !! i)
}.

(** A run of two passes on one idea: the critic scores it 2 and 3 (average
    2.5) both times, and the refiner never answers in JSON. *)
Definition refined_twice : exc run :=
  research_loop (Ret config_without_thresholds) one_draft 2
    [ Ret "novelty: 2 impact: 3"; Ret "no JSON";
      Ret "novelty: 2 impact: 3"; Ret "no JSON" ].

(** A run on three ideas: the first is refined on both passes, the second
    is dropped, the third is accepted. *)
Definition three_ideas : exc run :=
  research_loop (Ret config_without_thresholds)
    [ ("idea-1", {| title := PStr "A"; methodology := PStr "M";
                    description := PNone; raw_content := PNone |});
      ("idea-2", {| title := PStr "B"; methodology := PStr "M";
                    description := PNone; raw_content := PNone |});
      ("idea-3", {| title := PStr "C"; methodology := PStr "M";
                    description := PNone; raw_content := PNone |}) ]
    2
    [ Ret "novelty: 2 impact: 3"; Ret "novelty: 1"; Ret "novelty: 5";
      Ret "no JSON"; Ret "novelty: 2 impact: 3"; Ret "no JSON" ].

(** A pattern whose group, wherever it has one, captures one decimal
    digit. *)
Fixpoint digit_groups (r : Re.regex) : Prop :=
  match r with
  | Re.Eps => True
  | Re.Chr _ => True
  | Re.Cat r1 r2 => digit_groups r1 /\ digit_groups r2
  | Re.Opt r1 => digit_groups r1
  | Re.Star r1 => digit_groups r1
  | Re.LazyStar r1 => digit_groups r1
  | Re.Group (Re.Chr p) => forall c, p c = true -> Str.isdigit c = true
  | Re.Group _ => False
  end.

(** A group that is as it was, or one decimal digit. *)
Definition digit_or (g g' : option string) : Prop :=
  g' = g \/ exists c, g' = Some (String c EmptyString) /\ Str.isdigit c = true.

Definition le_of (c : option comparison) : bool :=
  match c with Some (Lt | Eq) => true | _ => false end.

(** What holds of the average the critic stores for scores between 0 and
    5: it is computed without an exception, it lies between 0 and 5, and it
    is 0.0 exactly when all the scores are 0. *)
Definition average_ok (scores : list Z) : bool :=
  match CriticAgent.average_of scores with
  | Ret a =>
      let stored := Float.round a 2 in
      Float.ge_of (Float.compare_Z stored 0)
      && le_of (Float.compare_Z stored 5)
      && Bool.eqb (match stored with S754_zero false => true | _ => false end)
                  (forallb (Z.eqb 0) scores)
  | Raise _ => false
  end.

Definition score_range : list Z := [0; 1; 2; 3; 4; 5].

Definition all_scores_ok : bool :=
  forallb (fun n => forallb (fun f => forallb (fun s => forallb (fun i =>
    average_ok [n; f; s; i]) score_range) score_range) score_range) score_range.
(** A keyword that [_find_score] can format into its patterns as it is: a
    word of ASCII letters, as the keywords of the critic are. *)
Fixpoint plain_word (keyword : string) : bool :=
  match keyword with
  | EmptyString => true
  | String c rest =>
      let n := Str.code c in
      (((97 <=? n) && (n <=? 122)) || ((65 <=? n) && (n <=? 90))) && plain_word rest
  end.

(** An idea as [create_drafts] makes it: one draft, not yet critiqued. *)
Definition drafted_idea : IdeaObject :=
  Main.new_idea "idea-1"
    {| title := PStr "T"; methodology := PStr "M";
       description := PNone; raw_content := PNone |}.

(** An idea without snapshot. *)
Definition empty_idea : IdeaObject :=
  {| idea_id := "idea-0"; current_iteration := 0; status := "active";
     evolution_history := [] |}.

(** A snapshot the refinement step of pass [loop] appends. *)
Definition refined_in (loop : Z) (snapshot : IdeaSnapshot) : Prop :=
  iteration snapshot = loop + 1 /\ role snapshot = "refined" /\ critique snapshot = None.

(** The shape of the history of an idea made from the draft [dr]: the first
    snapshot holds the draft, the snapshots are numbered from 0, the first
    is the draft and the others are refinements, and [current_iteration] is
    the number of the last one. *)
Definition shaped (dr : string * IdeaContent) (x : IdeaObject) : Prop :=
  idea_id x = fst dr
  /\ (content <$> head (evolution_history x)) = Some (Some (snd dr))
  /\ map iteration (evolution_history x)
     = seqZ 0 (Z.of_nat (length (evolution_history x)))
  /\ map role (evolution_history x)
     = "draft" :: replicate (length (evolution_history x) - 1) "refined"
  /\ current_iteration x = Z.of_nat (length (evolution_history x)) - 1.

(** How the status of an idea stands to its latest critique, with the
    thresholds [a] and [d], before pass [loop]: an active idea has [loop + 1]
    snapshots, the last one not yet critiqued; an accepted or rejected idea
    has the critique that decided it on its last snapshot. *)
Definition judged (a d : pyval) (loop : Z) (x : IdeaObject) : Prop :=
  Z.of_nat (length (evolution_history x)) <= loop + 1
  /\ ((status x = "active" /\ latest_critique x = None
       /\ Z.of_nat (length (evolution_history x)) = loop + 1)
      \/ (status x = "accepted"
          /\ exists review, latest_critique x = Some review
               /\ classify (average_score review) a d = Ret Accept)
      \/ (status x = "rejected"
          /\ exists review, latest_critique x = Some review
               /\ classify (average_score review) a d = Ret Drop)).

(** The same at the end of the run, where an idea that was still active is
    a best-effort one. *)
Definition settled (a d : pyval) (x : IdeaObject) : Prop :=
  (status x = "refined_best_effort" /\ latest_critique x = None)
  \/ (status x = "accepted"
      /\ exists review, latest_critique x = Some review
           /\ classify (average_score review) a d = Ret Accept)
  \/ (status x = "rejected"
      /\ exists review, latest_critique x = Some review
           /\ classify (average_score review) a d = Ret Drop).

(** The state of the store before pass [loop]. *)
Definition store_ok (drafts : list (string * IdeaContent)) (a d : pyval) (loop : Z)
           (st : list IdeaObject) : Prop :=
  length st = length drafts
  /\ forall i x, st !! i = Some x ->
       exists dr, drafts !! i = Some dr /\ shaped dr x /\ judged a d loop x.
(** What the filter step of pass [loop] leaves. *)
Definition filtered (drafts : list (string * IdeaContent)) (a d : pyval) (loop : Z)
           (needs : list nat) (st : list IdeaObject) : Prop :=
  length st = length drafts
  /\ forall i x, st !! i = Some x ->
       exists dr, drafts !! i = Some dr /\ shaped dr x
         /\ ((i ∈ needs /\ status x = "active"
              /\ Z.of_nat (length (evolution_history x)) = loop + 1)
             \/ (~ (i ∈ needs) /\ judged a d loop x /\ status x <> "active")).

(** A run without a pass, and a run without a draft. *)
Definition no_pass : exc run :=
  research_loop (Ret config_without_thresholds) one_draft 0 [].

Definition no_draft : exc run :=
  research_loop (Ret config_without_thresholds) [] 3 [Ret "novelty: 4"].

(** What [escape_html] writes for one character. *)
Definition entity (c : ascii) : string :=
  if Str.eqb_char c Html.amp then "&amp;"
  else if Str.eqb_char c Html.lt then "&lt;"
  else if Str.eqb_char c Html.gt then "&gt;"
  else if Str.eqb_char c Html.quot then "&quot;"
  else String c EmptyString.

Fixpoint entities (text : string) : string :=
  match text with
  | EmptyString => EmptyString
  | String c text' => entity c +:+ entities text'
  end.

(** A threshold that can be compared with a float. *)
Definition number (v : pyval) : bool :=
  match v with
  | PFloat _ | PInt _ | PBool _ => true
  | _ => false
  end.

(** The mappings of a list. *)
Definition mappings (items : list pyval) : list Dict.t :=
  omap (fun v => match v with PDict d => Some d | _ => None end) items.

(** A title the progress lines can slice. *)
Definition sliceable (v : pyval) : bool :=
  match v with
  | PStr _ | PList _ => true
  | _ => false
  end.

(** A response with two topics, the second without title, and a stray
    item. *)
Definition two_topics : pyval :=
  PDict [ ("topics",
           PList [ PDict [("title", PStr "A"); ("methodology", PStr "M")];
                   PInt 7;
                   PDict [("background", PStr "B")] ]) ].

(** A run on a draft whose title is [None]. *)
Definition untitled_run : exc run :=
  research_loop (Ret config_without_thresholds)
    [ ("idea-1", {| title := PNone; methodology := PStr "M";
                    description := PNone; raw_content := PNone |}) ]
    1 [Ret "novelty: 4"].

(** A review that gives the scores 2 and 3, no reasoning, and
    [overall_feedback] as [null]; and the record the critic makes of it. *)
Definition null_feedback_review : string :=
  Str.dq "{'novelty_score': 2, 'feasibility_score': 3, 'overall_feedback': null}".

Definition null_feedback_critique : CritiqueMetrics :=
  {| novelty_score := 2; feasibility_score := 3; specificity_score := 0;
     impact_score := 0; average_score := Float.of_decimal false 25 (-1);
     feedback_text := PNone; raw_response := Some null_feedback_review |}.

(** The configuration [config] with [loop_settings] giving the two
    thresholds explicitly. *)
Definition with_thresholds (a d : pyval) (config : Dict.t) : Dict.t :=
  Dict.set "loop_settings" (PDict [("score_threshold", a); ("drop_threshold", d)]) config.

(* ===================================================================== *)
(** * Reasoning about the monad *)
(* ===================================================================== *)

Lemma bind_Ret_inv {A B : Type} (m : exc A) (k : A -> exc B) (b : B) :
  bind m k = Ret b -> exists a, m = Ret a /\ k a = Ret b.
Proof.
  destruct m as [a | e]; simpl; intros H; [eauto | discriminate].
Qed.

Lemma bind_Ret_l {A B : Type} (a : A) (k : A -> exc B) : bind (Ret a) k = k a.
Proof. reflexivity. Qed.

(** Splits every hypothesis [x <- m ;; k = Ret b] in the context. *)
Ltac inv_bind :=
  repeat match goal with
    | H : bind ?m ?k = Ret ?b |- _ =>
        let a := fresh "a" in
        let Hm := fresh "Hm" in
        let Hk := fresh "Hk" in
        destruct (bind_Ret_inv m k b H) as (a & Hm & Hk); clear H; simpl in Hk
    | H : Ret _ = Ret _ |- _ => injection H as H; try subst
    | H : Raise _ = Ret _ |- _ => discriminate H
    | H : (let '(x, y) := ?p in _) = Ret _ |- _ => destruct p; simpl in H
    end.

(* ===================================================================== *)
(** * Capture groups *)
(* ===================================================================== *)

Lemma run_group {R : Type} (r : Re.regex) :
  forall (s : string) (g : option string) (k : string -> option string -> option R) (x : R),
    Re.run r s g k = Some x ->
    exists s' g', k s' g' = Some x
                  /\ (is_Some g -> is_Some g')
                  /\ (sets_group r = true -> is_Some g').
Proof.
  induction r as [| p | r1 IH1 r2 IH2 | r1 IH1 | r1 IH1 | r1 IH1 | r1 IH1];
    intros s g k x H; simpl in H.
  - exists s, g. simpl. intuition discriminate.
  - destruct s as [| c s']; [discriminate |].
    destruct (p c); [| discriminate].
    exists s', g. simpl. intuition discriminate.
  - apply IH1 in H as (s1 & g1 & H & Hg1 & Hs1).
    apply IH2 in H as (s2 & g2 & H & Hg2 & Hs2).
    exists s2, g2. simpl. split; [exact H |]. split.
    + intros Hg. auto.
    + intros Hs. apply orb_true_iff in Hs as [Hs | Hs]; auto.
  - destruct (Re.run r1 s g k) as [y |] eqn:E.
    + injection H as ->. apply IH1 in E as (s1 & g1 & E & Hg1 & _).
      exists s1, g1. simpl. intuition discriminate.
    + exists s, g. simpl. intuition discriminate.
  - revert H. generalize (String.length s) as n. intros n. revert s g.
    induction n as [| n IHn]; intros s g H.
    + exists s, g. simpl. intuition discriminate.
    + match type of H with
      | match ?m with _ => _ end = _ => destruct m as [y |] eqn:E
      end.
      * injection H as ->. apply IH1 in E as (s1 & g1 & E & Hg1 & _).
        destruct (Re.shorter s1 s); [| discriminate].
        apply IHn in E as (s2 & g2 & E & Hg2 & _).
        exists s2, g2. simpl. intuition discriminate.
      * exists s, g. simpl. intuition discriminate.
  - revert H. generalize (String.length s) as n. intros n. revert s g.
    induction n as [| n IHn]; intros s g H.
    + destruct (k s g) as [y |] eqn:E; [| discriminate].
      exists s, g. simpl. rewrite E. intuition discriminate.
    + destruct (k s g) as [y |] eqn:E.
      * exists s, g. simpl. rewrite E. intuition discriminate.
      * apply IH1 in H as (s1 & g1 & H & Hg1 & _).
        destruct (Re.shorter s1 s); [| discriminate].
        apply IHn in H as (s2 & g2 & H & Hg2 & _).
        exists s2, g2. simpl. intuition discriminate.
  - apply IH1 in H as (s1 & g1 & H & _ & _).
    eexists _, _. split; [exact H |]. split; intros _; eexists; reflexivity.
Qed.

Lemma search_group (r : Re.regex) (s : string) (m : Re.match_object) :
  sets_group r = true -> Re.search r s = Some m -> is_Some (Re.group1 m).
Proof.
  intros Hr. induction s as [| c s IH]; simpl; unfold Re.match_at.
  - destruct (Re.run r _ _ _) as [m' |] eqn:E; [| discriminate].
    intros [= ->]. apply run_group in E as (s' & g' & [= <-] & _ & Hg). auto.
  - destruct (Re.run r _ _ _) as [m' |] eqn:E; [| exact IH].
    intros [= ->]. apply run_group in E as (s' & g' & [= <-] & _ & Hg). auto.
Qed.

(** The fenced-block pattern always captures: [match.group(1)] is a
    string. *)
Lemma fence_group (text : string) (m : Re.match_object) :
  Re.search fence_pattern text = Some m -> exists g, Re.group1 m = Some g.
Proof. intros H. apply (search_group fence_pattern text m eq_refl H). Qed.

(* ===================================================================== *)
(** * Structured extraction (C1, C8) *)
(* ===================================================================== *)

Lemma try_except_all {A : Type} (m : exc A) (d : A) :
  try_except m [ (is_JSONDecodeError, fun _ => Ret d); (is_Exception, fun _ => Ret d) ]
  = Ret (match m with Ret a => a | Raise _ => d end).
Proof.
  destruct m as [a | e]; simpl; [reflexivity |].
  destruct (is_JSONDecodeError e); reflexivity.
Qed.

Lemma extract_json_selected_eq (text : string) :
  extract_json text = Ret (extract_json_selected text).
Proof.
  unfold extract_json. rewrite try_except_all. f_equal.
  unfold extract_json_body, extract_json_selected, loads_or_none, group1_str.
  destruct (Re.search fence_pattern text) as [m |].
  - destruct (Re.group1 m) as [g |]; simpl; reflexivity.
  - destruct (bracket_slice text); reflexivity.
Qed.

(** C1 (as amended): [extract_json] takes the first step whose text is
    found: the first fenced block when there is one, else the bracket slice
    when there is one, else the whole text; its result is what that one text
    parses to, and [None] when it does not parse. No later step is tried
    after a parse failure. *)
Theorem C1_steps_selected_by_detection (text : string) :
  extract_json text = Ret (extract_json_selected text).
Proof.
  unfold extract_json. rewrite try_except_all. f_equal.
  unfold extract_json_body, extract_json_selected, loads_or_none, group1_str.
  destruct (Re.search fence_pattern text) as [m |].
  - destruct (Re.group1 m) as [g |]; simpl; reflexivity.
  - destruct (bracket_slice text); reflexivity.
Qed.

(** C1 (as stated) fails: a fenced block that does not parse, followed by an
    object that does. Step 2 would give the object; the code gives [None]. *)
Lemma C1_no_fall_through :
  Re.search fence_pattern fenced_then_object = Some {| Re.group1 := Some "x" |}
  /\ Json.loads (Str.strip "x") = Raise JSONDecodeError
  /\ bracket_slice fenced_then_object = Some (Str.dq "{'a': 1}")
  /\ extract_json_fallthrough fenced_then_object = PDict [("a", PInt 1)]
  /\ extract_json fenced_then_object = Ret PNone
  /\ extract_json fenced_then_object <> Ret (extract_json_fallthrough fenced_then_object).
Proof. vm_compute. repeat split; try reflexivity. discriminate. Qed.

Lemma extract_json_total (text : string) : exists v : pyval, extract_json text = Ret v.
Proof.
  rewrite extract_json_selected_eq. eexists. reflexivity.
Qed.

(** C8: [extract_json] returns for every text, with a value or with
    [None]; no exception leaves it. *)
Theorem C8_extract_json_never_raises (text : string) :
  exists v : pyval, extract_json text = Ret v.
Proof.
  unfold extract_json.
  destruct (extract_json_body text) as [v | e] eqn:Hbody; simpl.
  - exists v. reflexivity.
  - exists PNone. destruct (is_JSONDecodeError e); reflexivity.
Qed.

(* ===================================================================== *)
(** * Scoring policy (C2) *)
(* ===================================================================== *)

Lemma compare_refl (x : spec_float) :
  x <> S754_nan -> Float.compare x x = Some Eq.
Proof.
  intros Hx. destruct x as [s | s | | s m e]; simpl.
  - reflexivity.
  - destruct s; reflexivity.
  - contradiction.
  - rewrite Z.compare_refl, Pos.compare_cont_refl. destruct s; reflexivity.
Qed.

Lemma finite_not_nan (x : spec_float) : Float.is_finite x = true -> x <> S754_nan.
Proof. intros H ->. discriminate H. Qed.

(** C2 (as amended): with thresholds [accept_at] and [drop_below], an
    average classifies [accept] when [average >= accept_at], else [drop]
    when [average < drop_below], else [refine]. An average equal to
    [accept_at] classifies [accept]; an average equal to [drop_below] never
    classifies [drop]: it classifies [accept] when it reaches [accept_at]
    and [refine] otherwise. *)
Theorem C2_classification (average accept_at drop_below : spec_float) :
  Float.is_finite average = true ->
  Main.classify average (PFloat accept_at) (PFloat drop_below)
  = Ret (if Float.ge_of (Float.compare average accept_at) then Main.Accept
         else if Float.lt_of (Float.compare average drop_below) then Main.Drop
         else Main.Refine)
  /\ Main.classify average (PFloat average) (PFloat drop_below) = Ret Main.Accept
  /\ Main.classify average (PFloat accept_at) (PFloat average)
     = Ret (if Float.ge_of (Float.compare average accept_at) then Main.Accept
            else Main.Refine).
Proof.
  intros Hfin. apply finite_not_nan in Hfin.
  unfold Main.classify, Main.py_ge, Main.py_lt, Main.compare_with; simpl.
  repeat split.
  - destruct (Float.ge_of _); [reflexivity |].
    destruct (Float.lt_of _); reflexivity.
  - rewrite (compare_refl average Hfin). reflexivity.
  - rewrite (compare_refl average Hfin).
    destruct (Float.ge_of _); reflexivity.
Qed.

Lemma C2_classification_witness :
  Main.classify (Float.of_Z 2) (PFloat (Float.of_Z 3)) (PFloat (Float.of_Z 2))
  = Ret (if Float.ge_of (Float.compare (Float.of_Z 2) (Float.of_Z 3)) then Main.Accept
         else Main.Refine).
Proof.
  apply (C2_classification (Float.of_Z 2) (Float.of_Z 3) (Float.of_Z 2)).
  reflexivity.
Defined.

(** C2 (as stated) fails: with the thresholds 3.0 and 2.0, the average 2.0,
    equal to the drop threshold, classifies [refine], not [drop]. *)
Lemma C2_tie_at_drop_threshold_refines :
  Main.classify (Float.of_Z 2) (PFloat (Float.of_Z 3)) (PFloat (Float.of_Z 2)) = Ret Main.Refine
  /\ Main.classify (Float.of_Z 2) (PFloat (Float.of_Z 3)) (PFloat (Float.of_Z 2)) <> Ret Main.Drop.
Proof. split; [reflexivity | discriminate]. Qed.

(* ===================================================================== *)
(** * Critique records (C3, C4) *)
(* ===================================================================== *)

Lemma compute_average_eq (n f s i : Z) (a : spec_float) (t : pyval) (raw : option string) :
  compute_average
    {| novelty_score := n; feasibility_score := f; specificity_score := s;
       impact_score := i; average_score := a; feedback_text := t; raw_response := raw |}
  = CriticAgent.average_of [n; f; s; i].
Proof. reflexivity. Qed.

Lemma parse_from_text_average (response : string) (r : CritiqueMetrics) :
  CriticAgent._parse_from_text response = Ret r ->
  exists a, compute_average r = Ret a /\ average_score r = Float.round a 2.
Proof.
  unfold CriticAgent._parse_from_text. intros H. inv_bind.
  rewrite compute_average_eq. eexists. split; [eassumption | reflexivity].
Qed.

(** C3 (as amended): for every record the critique builder returns, on the
    JSON path or on the text path, the stored [average_score] is the average
    recomputed from the four score fields (the mean of the scores above 0,
    or 0.0 without any) rounded to two decimals. *)
Theorem C3_stored_average_is_rounded (response : string) (r : CritiqueMetrics) :
  CriticAgent._parse_critique_response response = Ret r ->
  exists a, compute_average r = Ret a /\ average_score r = Float.round a 2.
Proof.
  unfold CriticAgent._parse_critique_response. intros H. inv_bind.
  destruct a as [| b | z | f | s | l | data];
    try (eapply parse_from_text_average; eassumption).
  inv_bind.
  rewrite compute_average_eq. eexists. split; [eassumption | reflexivity].
Qed.

Lemma C3_stored_average_is_rounded_witness :
  exists a,
    compute_average
      {| novelty_score := 4; feasibility_score := 4; specificity_score := 5;
         impact_score := 0;
         average_score := Float.of_decimal false 433 (-2);
         feedback_text := PStr "No detailed feedback provided.";
         raw_response := Some scores_4_4_5 |} = Ret a
    /\ Float.of_decimal false 433 (-2) = Float.round a 2.
Proof.
  apply (C3_stored_average_is_rounded scores_4_4_5
           {| novelty_score := 4; feasibility_score := 4; specificity_score := 5;
              impact_score := 0;
              average_score := Float.of_decimal false 433 (-2);
              feedback_text := PStr "No detailed feedback provided.";
              raw_response := Some scores_4_4_5 |}).
  vm_compute. reflexivity.
Defined.

(** C3 (as stated) fails: for the scores 4, 4, 5 the record stores 4.33,
    and the average recomputed from its fields is 13/3 = 4.333333333333333. *)
Lemma C3_stored_average_differs :
  exists r a,
    CriticAgent._parse_critique_response scores_4_4_5 = Ret r
    /\ compute_average r = Ret a
    /\ average_score r = Float.of_decimal false 433 (-2)
    /\ a = Float.of_quotient false 13 3
    /\ average_score r <> a.
Proof.
  exists {| novelty_score := 4; feasibility_score := 4; specificity_score := 5;
            impact_score := 0;
            average_score := Float.of_decimal false 433 (-2);
            feedback_text := PStr "No detailed feedback provided.";
            raw_response := Some scores_4_4_5 |},
         (Float.of_quotient false 13 3).
  split; [vm_compute; reflexivity |].
  split; [vm_compute; reflexivity |].
  split; [reflexivity |].
  split; [reflexivity |].
  vm_compute. discriminate.
Qed.

(** C4, on the JSON path: the scores are taken as the response gives them.
    A score of 10 gives the average 10.0, above 5; a score of -3 gives the
    average 0.0 although a score field is not 0. *)
Theorem C4_json_scores_are_not_bounded :
  (exists r,
      CriticAgent._parse_critique_response (Str.dq "{'novelty_score': 10}") = Ret r
      /\ novelty_score r = 10
      /\ average_score r = Float.of_Z 10
      /\ Float.compare_Z (average_score r) 5 = Some Gt)
  /\ (exists r,
         CriticAgent._parse_critique_response (Str.dq "{'novelty_score': -3}") = Ret r
         /\ novelty_score r = -3
         /\ average_score r = Float.zero).
Proof. split; eexists; vm_compute; repeat split; reflexivity. Qed.

(* ===================================================================== *)
(** * Refinement records (C6, C7) *)
(* ===================================================================== *)

(** When the extraction gives an object, each of the three fields of the
    new content is the object's value for it, or the prior field when the
    object has no such key, one field independently of the others. *)
Lemma improve_field_fallback (idea : IdeaObject) (w w' : llm)
      (content : IdeaContent) (critique : CritiqueMetrics)
      (response : string) (data : Dict.t)
      (result : option IdeaContent * option RefinementDetails * llm) :
  latest_content idea = Some content ->
  latest_critique idea = Some critique ->
  generate w = Ret (response, w') ->
  extract_json response = Ret (PDict data) ->
  RefinerAgent.improve idea w = Ret result ->
  exists new_content details,
    result = (Some new_content, Some details, w')
    /\ title new_content = Dict.get "refined_title" (title content) data
    /\ methodology new_content = Dict.get "refined_methodology" (methodology content) data
    /\ description new_content = Dict.get "refined_description" (description content) data
    /\ (Dict.lookup "refined_title" data = None -> title new_content = title content)
    /\ (Dict.lookup "refined_methodology" data = None ->
        methodology new_content = methodology content)
    /\ (Dict.lookup "refined_description" data = None ->
        description new_content = description content).
Proof.
  intros Hc Hq Hg Hx. unfold RefinerAgent.improve. rewrite Hc, Hq.
  intros H. inv_bind. rewrite Hg in Hm0. injection Hm0 as <- <-.
  rewrite Hx in Hm1. injection Hm1 as <-. inv_bind.
  eexists _, _. split; [reflexivity |]. simpl.
  repeat split; unfold Dict.get; intros ->; reflexivity.
Qed.

(** C6, where it fails: the object gives [refined_title] as [null]. The key
    is there, so the prior title "T" is not used, and the content that is
    returned has no title. *)
Theorem C6_null_title_is_returned :
  latest_content critiqued_idea
  = Some {| title := PStr "T"; methodology := PStr "M";
            description := PNone; raw_content := PNone |}
  /\ exists new_content details,
      RefinerAgent.improve critiqued_idea [Ret (Str.dq "{'refined_title': null}")]
      = Ret (Some new_content, Some details, [])
      /\ title new_content = PNone
      /\ methodology new_content = PStr "M".
Proof. split; [reflexivity |]. eexists _, _. vm_compute. repeat split; reflexivity. Qed.

(** When the extraction gives no object and the title and the feedback
    text are strings, [improve] returns the prior content as it is, with a
    record whose reasoning states the parse failure. *)
Lemma parse_failure_keeps_prior_content
      (idea : IdeaObject) (w w' : llm)
      (content : IdeaContent) (critique : CritiqueMetrics)
      (response t fb : string) :
  latest_content idea = Some content ->
  latest_critique idea = Some critique ->
  title content = PStr t ->
  feedback_text critique = PStr fb ->
  generate w = Ret (response, w') ->
  (forall data, extract_json response <> Ret (PDict data)) ->
  RefinerAgent.improve idea w
  = Ret (Some content,
         Some {| original_title := title content;
                 original_methodology := methodology content;
                 critique_feedback := PStr (Str.take 500 fb);
                 critique_score := average_score critique;
                 refinement_reasoning := PStr "Parsing failed - using original content";
                 changes_made := PStr "No changes (parsing error)" |},
         w').
Proof.
  intros Hc Hq Ht Hfb Hg Hx. unfold RefinerAgent.improve.
  rewrite Hc, Hq, Ht, Hg. simpl.
  destruct (extract_json_total response) as [v Hv]. rewrite Hv. simpl.
  rewrite Hfb. simpl.
  destruct v; try reflexivity.
  exfalso. apply (Hx d). exact Hv.
Qed.

Lemma parse_failure_keeps_prior_content_example :
  RefinerAgent.improve critiqued_idea [Ret "I cannot answer in JSON."]
  = Ret (Some {| title := PStr "T"; methodology := PStr "M";
                 description := PNone; raw_content := PNone |},
         Some {| original_title := PStr "T";
                 original_methodology := PStr "M";
                 critique_feedback := PStr (Str.take 500 "Too vague.");
                 critique_score := Float.of_decimal false 25 (-1);
                 refinement_reasoning := PStr "Parsing failed - using original content";
                 changes_made := PStr "No changes (parsing error)" |},
         []).
Proof.
  apply (parse_failure_keeps_prior_content critiqued_idea
           [Ret "I cannot answer in JSON."] []
           {| title := PStr "T"; methodology := PStr "M";
              description := PNone; raw_content := PNone |}
           {| novelty_score := 2; feasibility_score := 3; specificity_score := 0;
              impact_score := 0; average_score := Float.of_decimal false 25 (-1);
              feedback_text := PStr "Too vague."; raw_response := None |}
           "I cannot answer in JSON." "T" "Too vague.");
    try reflexivity.
  intros data. vm_compute. discriminate.
Qed.

(** C7, where it fails: the critic stores the feedback [None] for a review
    that gives [overall_feedback] as [null] and no reasoning; its average
    2.5 classifies "refine"; the refiner's response is not JSON, and the
    fallback, which slices the feedback text, raises [TypeError]. Nothing
    is returned, and the run ends there. *)
Theorem C7_null_feedback_loses_the_prior_content :
  CriticAgent._parse_critique_response null_feedback_review = Ret null_feedback_critique
  /\ feedback_text null_feedback_critique = PNone
  /\ Main.classify (average_score null_feedback_critique)
       (PFloat (Float.of_Z 3)) (PFloat (Float.of_Z 2)) = Ret Main.Refine
  /\ latest_content (Main.attach_critique null_feedback_critique drafted_idea)
     = Some {| title := PStr "T"; methodology := PStr "M";
               description := PNone; raw_content := PNone |}
  /\ extract_json "I cannot answer in JSON." = Ret PNone
  /\ RefinerAgent.improve (Main.attach_critique null_feedback_critique drafted_idea)
       [Ret "I cannot answer in JSON."]
     = Raise TypeError
  /\ Main.research_loop (Ret config_without_thresholds) one_draft 3
       [Ret null_feedback_review; Ret "I cannot answer in JSON."]
     = Raise TypeError.
Proof. repeat split; vm_compute; reflexivity. Qed.

(* ===================================================================== *)
(** * Configuration (C9) *)
(* ===================================================================== *)

Lemma lookup_set_eq (key : string) (v : pyval) (d : Dict.t) :
  Dict.lookup key (Dict.set key v d) = Some v.
Proof.
  induction d as [| [k x] d IH]; cbn [Dict.set Dict.lookup].
  - rewrite String.eqb_refl. reflexivity.
  - destruct (String.eqb k key) eqn:E; cbn [Dict.lookup]; rewrite E; [reflexivity | exact IH].
Qed.

Lemma lookup_set_ne (key k0 : string) (v : pyval) (d : Dict.t) :
  k0 <> key -> Dict.lookup k0 (Dict.set key v d) = Dict.lookup k0 d.
Proof.
  intros Hne. induction d as [| [k x] d IH]; cbn [Dict.set Dict.lookup].
  - destruct (String.eqb_spec key k0) as [<- | _]; [contradiction | reflexivity].
  - destruct (String.eqb_spec k key) as [-> | Hk]; cbn [Dict.lookup].
    + destruct (String.eqb_spec key k0) as [<- | _]; [contradiction | reflexivity].
    + destruct (String.eqb k k0); [reflexivity | exact IH].
Qed.

Lemma get_set_ne (key k0 : string) (v default : pyval) (d : Dict.t) :
  k0 <> key -> Dict.get k0 default (Dict.set key v d) = Dict.get k0 default d.
Proof. intros Hne. unfold Dict.get. rewrite lookup_set_ne by exact Hne. reflexivity. Qed.

Lemma get_set_eq (key : string) (v default : pyval) (d : Dict.t) :
  Dict.get key default (Dict.set key v d) = v.
Proof. unfold Dict.get. rewrite lookup_set_eq. reflexivity. Qed.

(** C9 (as amended): a configuration that is a mapping and lacks
    [score_threshold] or [drop_threshold] does not fail the run on that
    account. When [loop_settings] is absent or is a mapping, reading the
    thresholds succeeds, a threshold that is missing takes its default, 3.0
    to accept and 2.0 to drop, and the run is the run of the configuration
    that gives the two values explicitly. When [loop_settings] is there and
    is no mapping, the run fails at startup with [AttributeError]. *)
Theorem C9_missing_thresholds_default
        (config : Dict.t) (drafts : list (string * IdeaContent)) (max_loops : Z) (w : llm) :
  match Dict.get "loop_settings" (PDict []) config with
  | PDict loop_settings =>
      Main.read_thresholds (PDict config)
      = Ret (Dict.get "score_threshold" (PFloat (Float.of_Z 3)) loop_settings,
             Dict.get "drop_threshold" (PFloat (Float.of_Z 2)) loop_settings)
      /\ (Dict.lookup "score_threshold" loop_settings = None ->
          Dict.get "score_threshold" (PFloat (Float.of_Z 3)) loop_settings
          = PFloat (Float.of_Z 3))
      /\ (Dict.lookup "drop_threshold" loop_settings = None ->
          Dict.get "drop_threshold" (PFloat (Float.of_Z 2)) loop_settings
          = PFloat (Float.of_Z 2))
      /\ Main.research_loop (Ret (PDict config)) drafts max_loops w
         = Main.research_loop
             (Ret (PDict (with_thresholds
                            (Dict.get "score_threshold" (PFloat (Float.of_Z 3)) loop_settings)
                            (Dict.get "drop_threshold" (PFloat (Float.of_Z 2)) loop_settings)
                            config)))
             drafts max_loops w
  | _ =>
      Main.read_thresholds (PDict config) = Raise AttributeError
      /\ Main.research_loop (Ret (PDict config)) drafts max_loops w = Raise AttributeError
  end.
Proof.
  assert (Hfail : forall v,
            Dict.get "loop_settings" (PDict []) config = v ->
            (forall l, v <> PDict l) ->
            Main.read_thresholds (PDict config) = Raise AttributeError
            /\ Main.research_loop (Ret (PDict config)) drafts max_loops w
               = Raise AttributeError).
  { intros v E Hv.
    assert (Hr : Main.read_thresholds (PDict config) = Raise AttributeError).
    { unfold Main.read_thresholds. cbn [py_get bind]. rewrite E.
      destruct v; try reflexivity. exfalso. apply (Hv d). reflexivity. }
    split; [exact Hr |].
    unfold Main.research_loop, ModelManager.init, ModelManager._load_config.
    cbn [try_except py_get bind].
    destruct (py_get (Dict.get "ollama" (PDict []) config) "base_url"
                (PStr "http://localhost:11434")) as [u | e] eqn:Eo.
    - cbn [bind]. rewrite Hr. reflexivity.
    - cbn [bind]. destruct (Dict.get "ollama" (PDict []) config); cbn in Eo; congruence. }
  destruct (Dict.get "loop_settings" (PDict []) config) as [| | | | | | loop_settings] eqn:E.
  all: try (apply (Hfail _ eq_refl); intros ?; discriminate).
  clear Hfail.
  set (a := Dict.get "score_threshold" (PFloat (Float.of_Z 3)) loop_settings).
  set (d := Dict.get "drop_threshold" (PFloat (Float.of_Z 2)) loop_settings).
  assert (Hr : Main.read_thresholds (PDict config) = Ret (a, d)).
  { unfold Main.read_thresholds. cbn [py_get bind]. rewrite E. reflexivity. }
  split; [exact Hr |].
  split; [intros Hs; subst a; unfold Dict.get; rewrite Hs; reflexivity |].
  split; [intros Hd; subst d; unfold Dict.get; rewrite Hd; reflexivity |].
  assert (Hr' : Main.read_thresholds (PDict (with_thresholds a d config)) = Ret (a, d)).
  { unfold Main.read_thresholds, with_thresholds. cbn [py_get bind].
    rewrite get_set_eq. reflexivity. }
  assert (Hk : forall k default, k <> "loop_settings" ->
            Dict.get k default (with_thresholds a d config) = Dict.get k default config).
  { intros k default Hne. apply get_set_ne. exact Hne. }
  unfold Main.research_loop, ModelManager.init, ModelManager._load_config.
  cbn [try_except py_get bind]. rewrite (Hk "ollama") by discriminate.
  destruct (py_get (Dict.get "ollama" (PDict []) config) "base_url"
              (PStr "http://localhost:11434")) as [u | e]; cbn [bind]; [| reflexivity].
  rewrite Hr, Hr'. cbn [bind].
  unfold ModelManager.get_model_config, GeneratorAgent_init, BaseAgent_init,
    ModelManager.get_model_config.
  cbn [py_get bind]. rewrite !Hk by discriminate. reflexivity.
Qed.

Lemma C9_missing_thresholds_default_witness :
  Main.read_thresholds config_without_thresholds
  = Ret (PFloat (Float.of_Z 3), PFloat (Float.of_Z 2)).
Proof.
  exact (proj1 (C9_missing_thresholds_default
                  [ ("ollama", PDict [("base_url", PStr "http://localhost:11434")]);
                    ("agent_models",
                      PDict [ ("generator", PDict [("provider", PStr "ollama"); ("model", PStr "m")]);
                              ("critic", PDict [("provider", PStr "ollama"); ("model", PStr "m")]);
                              ("refiner", PDict [("provider", PStr "ollama"); ("model", PStr "m")]) ]);
                    ("openalex", PDict [("fetch_limit", PInt 100); ("top_k_papers", PInt 5)]) ]
                  one_draft 3 [])).
Defined.

(** C9 (as stated) fails: without [loop_settings] the run does not fail. It
    enters the loop with the thresholds 3.0 and 2.0, classifies the idea
    (scores 5 and 4, average 4.5) and saves it as accepted. *)
Lemma C9_run_proceeds_without_thresholds :
  Dict.lookup "loop_settings"
    (match config_without_thresholds with PDict d => d | _ => [] end) = None
  /\ exists r,
      Main.research_loop (Ret config_without_thresholds) one_draft 3
        [Ret (Str.dq "{'novelty_score': 5, 'feasibility_score': 4}")] = Ret r
      /\ Main.printed (Main.final r)
         = [ {| Main.ev_loop := 0; Main.ev_idea := 0%nat; Main.ev_decision := Main.Accept |} ]
      /\ map status (Main.saved r) = ["accepted"].
Proof. split; [reflexivity |]. eexists. vm_compute. repeat split; reflexivity. Qed.

(* ===================================================================== *)
(** * The lifecycle controller (C5, C10) *)
(* ===================================================================== *)

Lemma roles_set_last_critique (review : CritiqueMetrics) (h : list IdeaSnapshot) :
  map role (set_last_critique review h) = map role h.
Proof.
  induction h as [| x [| y h] IH]; simpl in *; [reflexivity | reflexivity |].
  f_equal. exact IH.
Qed.

Lemma filter_idea_spec loop a d r review s needs s' needs' :
  filter_idea loop a d r review s needs = Ret (s', needs') ->
  (store s !! r = None /\ s' = s /\ needs' = needs)
  \/ exists idea dec,
      store s !! r = Some idea
      /\ printed s' = printed s ++ [ {| ev_loop := loop; ev_idea := r; ev_decision := dec |} ]
      /\ accepted_ideas s' = accepted_ideas s ++ (match dec with Accept => [r] | _ => [] end)
      /\ needs' = needs ++ (match dec with Refine => [r] | _ => [] end)
      /\ store s' = alter (fun x => outcome dec (attach_critique review x)) r (store s).
Proof.
  unfold filter_idea. rewrite list_lookup_alter_eq.
  destruct (store s !! r) as [idea |] eqn:E; simpl.
  - intros H. right. inv_bind.
    match goal with
    | Hc : classify _ _ _ = Ret ?dec |- _ => exists idea, dec; destruct dec
    end; inv_bind; simpl; rewrite ?app_nil_r;
      repeat split; try reflexivity; rewrite ?list_alter_alter_eq; reflexivity.
  - intros [= <- <-]. left. auto.
Qed.

Lemma inv_filter_idea loop a d r review s needs rest s' needs' :
  filter_idea loop a d r review s needs = Ret (s', needs') ->
  inv s (needs ++ r :: rest) ->
  inv s' (needs' ++ rest).
Proof.
  intros H [Hna Hnd Hacc Hact Hval Hdrop Hav].
  apply filter_idea_spec in H as [(Hnone & _ & _) | (idea & dec & Hr & Hp & Ha & Hn & Hs)].
  { destruct (Hval r) as [x Hx]; [set_solver | congruence]. }
  assert (Hidea : status idea = "active") by (apply (Hact r idea Hr); set_solver).
  assert (Hnotin : r ∉ accepted_ideas s).
  { intros Hin. apply (Hacc r idea Hr) in Hin as [Hin | Hin]; congruence. }
  apply NoDup_app in Hnd as (Hnd1 & Hnd2 & Hnd3).
  apply NoDup_cons in Hnd3 as (Hnd3 & Hnd4).
  assert (Hlook : forall i, store s' !! i =
            if decide (i = r) then Some (outcome dec (attach_critique review idea))
            else store s !! i).
  { intros i. rewrite Hs. destruct (decide (i = r)) as [-> | Hne].
    - rewrite list_lookup_alter_eq, Hr. reflexivity.
    - rewrite list_lookup_alter_ne by congruence. reflexivity. }
  split.
  - rewrite Ha. destruct dec; rewrite ?app_nil_r; try assumption.
    apply NoDup_app. repeat split; [assumption | set_solver | apply NoDup_singleton].
  - rewrite Hn. destruct dec; rewrite ?app_nil_r.
    + apply NoDup_app. repeat split; [assumption | set_solver | assumption].
    + apply NoDup_app. repeat split; [assumption | set_solver | assumption].
    + rewrite <- app_assoc. simpl. apply NoDup_app. repeat split; try assumption.
      apply NoDup_cons. split; assumption.
  - intros i x. rewrite Hlook, Ha. destruct (decide (i = r)) as [-> | Hne].
    + intros [= <-]. destruct dec; simpl; rewrite ?app_nil_r.
      * split; [auto | set_solver].
      * split; [intros Hin; contradiction | intros [Hx | Hx]; discriminate].
      * rewrite Hidea. split; [intros Hin; contradiction | intros [Hx | Hx]; discriminate].
    + intros Hi. rewrite <- (Hacc i x Hi). destruct dec; rewrite ?app_nil_r; set_solver.
  - intros i x. rewrite Hlook, Hn. destruct (decide (i = r)) as [-> | Hne].
    + intros [= <-]. destruct dec; simpl; rewrite ?app_nil_r.
      * split; [discriminate | set_solver].
      * split; [discriminate | set_solver].
      * rewrite Hidea. split; [set_solver | auto].
    + intros Hi. rewrite (Hact i x Hi). destruct dec; rewrite ?app_nil_r; set_solver.
  - intros i Hi. rewrite Hlook. destruct (decide (i = r)); [eauto |].
    apply Hval. rewrite Hn in Hi. destruct dec; rewrite ?app_nil_r in Hi; set_solver.
  - intros e. rewrite Hp. intros He Hd.
    apply elem_of_app in He as [He | He].
    + destruct (Hdrop e He Hd) as (x & Hx & Hrej).
      rewrite Hlook. destruct (decide (ev_idea e = r)) as [Heq | Hne]; [| eauto].
      rewrite Heq in Hx. congruence.
    + apply list_elem_of_singleton in He as ->. simpl in *. subst dec.
      rewrite Hlook. destruct (decide (r = r)); [| contradiction].
      eexists. split; reflexivity.
  - intros i Hi. rewrite Hlook. destruct (decide (i = r)); [eauto |].
    apply Hav. rewrite Ha in Hi. apply elem_of_app in Hi as [Hi | Hi]; [exact Hi |].
    destruct dec; try (apply elem_of_nil in Hi; contradiction).
    apply list_elem_of_singleton in Hi. contradiction.
Qed.

Lemma inv_filter_ideas loop a d pairs : forall s needs s' needs',
  filter_ideas loop a d pairs s needs = Ret (s', needs') ->
  inv s (needs ++ pairs.*1) ->
  inv s' needs'.
Proof.
  induction pairs as [| [r review] rest IH]; intros s needs s' needs' H Hinv; simpl in *.
  - injection H as <- <-. rewrite app_nil_r in Hinv. exact Hinv.
  - inv_bind. destruct a0 as [s1 needs1]. simpl in *.
    apply (IH _ _ _ _ Hk). eapply inv_filter_idea; eassumption.
Qed.

(** What the filter step prints: one line per idea, all for the current
    pass, and an idea whose line says "needs refinement" is in the list of
    the ideas to refine. *)
Lemma filter_ideas_printed loop a d pairs : forall s needs s' needs',
  filter_ideas loop a d pairs s needs = Ret (s', needs') ->
  exists evs more,
    printed s' = printed s ++ evs
    /\ needs' = needs ++ more
    /\ forall e, e ∈ evs ->
         ev_loop e = loop /\ (ev_decision e = Refine -> ev_idea e ∈ more).
Proof.
  induction pairs as [| [r review] rest IH]; intros s needs s' needs' H; simpl in *.
  - injection H as <- <-. exists [], []. rewrite !app_nil_r.
    repeat split; try reflexivity; set_solver.
  - inv_bind. destruct a0 as [s1 needs1]. simpl in *.
    apply IH in Hk as (evs & more & Hp & Hn & Hev).
    apply filter_idea_spec in Hm
      as [(_ & -> & ->) | (idea & dec & _ & Hp1 & _ & Hn1 & _)].
    + exists evs, more. auto.
    + exists ({| ev_loop := loop; ev_idea := r; ev_decision := dec |} :: evs),
        ((match dec with Refine => [r] | _ => [] end) ++ more).
      rewrite Hp, Hp1, Hn, Hn1, <- !app_assoc. repeat split; try reflexivity.
      * apply elem_of_cons in H as [-> | H]; [reflexivity | apply (Hev e H)].
      * apply elem_of_cons in H as [-> | H]; simpl.
        -- intros ->. set_solver.
        -- intros Hd. apply elem_of_app. right. apply (proj2 (Hev e H) Hd).
Qed.

Lemma roles_outcome dec review idea :
  map role (evolution_history (outcome dec (attach_critique review idea)))
  = map role (evolution_history idea).
Proof. destruct dec; simpl; apply roles_set_last_critique. Qed.

(** The filter step adds no snapshot. *)
Lemma filter_ideas_roles loop a d pairs : forall s needs s' needs',
  filter_ideas loop a d pairs s needs = Ret (s', needs') ->
  forall i, roles_at (store s') i = roles_at (store s) i.
Proof.
  induction pairs as [| [r review] rest IH]; intros s needs s' needs' H i; simpl in *.
  - injection H as <- <-. reflexivity.
  - inv_bind. destruct a0 as [s1 needs1]. simpl in *.
    rewrite (IH _ _ _ _ Hk i).
    apply filter_idea_spec in Hm
      as [(_ & -> & ->) | (idea & dec & Hr & _ & _ & _ & Hs)]; [reflexivity |].
    unfold roles_at. rewrite Hs.
    destruct (decide (r = i)) as [-> | Hne].
    + rewrite list_lookup_alter_eq, Hr. simpl. f_equal. apply roles_outcome.
    + rewrite list_lookup_alter_ne by assumption. reflexivity.
Qed.

(** The refinement step, for one idea: one "refined" snapshot more, the
    status as it was. *)
Lemma refine_idea_spec loop r st w st' w' :
  refine_idea loop r st w = Ret (st', w') ->
  (forall i, status_at st' i = status_at st i)
  /\ (forall i, roles_at st' i
               = (if decide (i = r) then add_refined else id) <$> roles_at st i).
Proof.
  unfold refine_idea, status_at, roles_at.
  destruct (st !! r) as [idea |] eqn:E.
  - intros H. inv_bind.
    split; intros i; destruct (decide (i = r)) as [-> | Hne].
    + rewrite list_lookup_alter_eq, E. reflexivity.
    + rewrite list_lookup_alter_ne by congruence. reflexivity.
    + rewrite list_lookup_alter_eq, E.
      cbn [fmap option_fmap option_map append_snapshot evolution_history].
      rewrite map_app. reflexivity.
    + rewrite list_lookup_alter_ne by congruence.
      destruct (st !! i); reflexivity.
  - intros [= <- <-]. split; intros i; [reflexivity |].
    destruct (decide (i = r)) as [-> | Hne]; [rewrite E; reflexivity |].
    destruct (st !! i); reflexivity.
Qed.

Lemma fmap_id_option {A : Type} (x : option A) : id <$> x = x.
Proof. destruct x; reflexivity. Qed.

Lemma refine_ideas_spec loop needs : forall st w refined st' refined' w',
  refine_ideas loop needs st w refined = Ret (st', refined', w') ->
  refined' = refined ++ needs
  /\ (forall i, status_at st' i = status_at st i)
  /\ (NoDup needs ->
      forall i, roles_at st' i
                = (if decide (i ∈ needs) then add_refined else id) <$> roles_at st i).
Proof.
  induction needs as [| r rest IH]; intros st w refined st' refined' w' H.
  - cbn [refine_ideas] in H. injection H as <- <- <-. rewrite app_nil_r.
    split; [reflexivity |]. split; [reflexivity |].
    intros _ i. destruct (decide (i ∈ [])) as [Hin | _].
    + apply elem_of_nil in Hin. contradiction.
    + symmetry. apply fmap_id_option.
  - cbn [refine_ideas] in H.
    apply bind_Ret_inv in H as ([st1 w1] & Hm & Hk). cbn [fst snd] in Hk.
    apply refine_idea_spec in Hm as (Hst & Hsn).
    apply IH in Hk as (-> & Hst' & Hsn').
    rewrite <- app_assoc. split; [reflexivity |]. split.
    + intros i. rewrite Hst', Hst. reflexivity.
    + intros Hnd i. apply NoDup_cons in Hnd as (Hr & Hnd).
      rewrite (Hsn' Hnd i), Hsn.
      destruct (decide (i = r)) as [-> | Hne].
      * destruct (decide (r ∈ rest)) as [Hin | _]; [contradiction |].
        destruct (decide (r ∈ r :: rest)) as [_ | Hout].
        -- apply fmap_id_option.
        -- exfalso. apply Hout. apply elem_of_cons. left. reflexivity.
      * rewrite fmap_id_option.
        destruct (decide (i ∈ rest)) as [Hin | Hout],
                 (decide (i ∈ r :: rest)) as [Hin' | Hout']; try reflexivity.
        -- exfalso. apply Hout'. apply elem_of_cons. right. exact Hin.
        -- exfalso. apply elem_of_cons in Hin' as [Heq | Hin']; [congruence | contradiction].
Qed.

(** The invariant only looks at the statuses. *)
Lemma inv_same_status st st' acc pr active :
  (forall i, status_at st' i = status_at st i) ->
  inv {| store := st; accepted_ideas := acc; printed := pr |} active ->
  inv {| store := st'; accepted_ideas := acc; printed := pr |} active.
Proof.
  intros Hst [Hna Hnd Hacc Hact Hval Hdrop Hav]. simpl in *.
  assert (Hback : forall i x', st' !! i = Some x' ->
            exists x, st !! i = Some x /\ status x = status x').
  { intros i x' Hx'. specialize (Hst i). unfold status_at in Hst. rewrite Hx' in Hst.
    destruct (st !! i) as [x |]; [| discriminate]. injection Hst as Hst. eauto. }
  assert (Hforth : forall i x, st !! i = Some x ->
            exists x', st' !! i = Some x' /\ status x' = status x).
  { intros i x Hx. specialize (Hst i). unfold status_at in Hst. rewrite Hx in Hst.
    destruct (st' !! i) as [x' |]; [| discriminate]. injection Hst as Hst. eauto. }
  split; simpl; try assumption.
  - intros i x' Hx'. destruct (Hback i x' Hx') as (x & Hx & <-). apply (Hacc i x Hx).
  - intros i x' Hx'. destruct (Hback i x' Hx') as (x & Hx & <-). apply (Hact i x Hx).
  - intros i Hi. destruct (Hval i Hi) as [x Hx].
    destruct (Hforth i x Hx) as (x' & Hx' & _). eauto.
  - intros e He Hd. destruct (Hdrop e He Hd) as (x & Hx & Hrej).
    destruct (Hforth _ x Hx) as (x' & Hx' & Heq). exists x'. split; congruence.
  - intros i Hi. destruct (Hav i Hi) as [x Hx].
    destruct (Hforth i x Hx) as (x' & Hx' & _). eauto.
Qed.

Lemma evaluate_length ideas : forall w critiques w',
  CriticAgent.evaluate ideas w = Ret (critiques, w') ->
  length critiques = length ideas.
Proof.
  induction ideas as [| idea rest IH]; intros w critiques w' H.
  - cbn [CriticAgent.evaluate] in H. injection H as <- <-. reflexivity.
  - cbn [CriticAgent.evaluate] in H.
    apply bind_Ret_inv in H as ([c w1] & _ & H).
    apply bind_Ret_inv in H as ([cs w2] & Hrest & H).
    injection H as <- <-. cbn [length]. f_equal. exact (IH _ _ _ Hrest).
Qed.

Lemma objects_length st refs :
  (forall i, i ∈ refs -> is_Some (st !! i)) -> length (objects st refs) = length refs.
Proof.
  unfold objects. induction refs as [| r rest IH]; intros Hval; [reflexivity |].
  cbn [omap list_omap]. destruct (Hval r) as [x Hx]; [apply elem_of_cons; auto |].
  rewrite Hx. cbn [length]. f_equal. apply IH.
  intros i Hi. apply Hval. apply elem_of_cons. auto.
Qed.

(** One pass, taken apart: when the list of ideas is not empty, the critic
    evaluates them, the filter step classifies each of them, and either no
    idea needs refinement and the loop ends, or the refinement step runs and
    the next pass starts with the refined ideas. *)
Lemma passes_step n loop a d s ideas w s' ideas' w' :
  passes (S n) loop a d s ideas w = Ret (s', ideas', w') ->
  ideas <> [] ->
  exists critiques w1 s1 needs,
    CriticAgent.evaluate (objects (store s) ideas) w = Ret (critiques, w1)
    /\ filter_ideas loop a d (zip ideas critiques) s [] = Ret (s1, needs)
    /\ ((needs = [] /\ s' = s1 /\ ideas' = ideas /\ w' = w1)
        \/ (needs <> []
            /\ exists store2 refined w2,
                refine_ideas loop needs (store s1) w1 [] = Ret (store2, refined, w2)
                /\ passes n (loop + 1) a d
                     {| store := store2; accepted_ideas := accepted_ideas s1;
                        printed := printed s1 |} refined w2
                   = Ret (s', ideas', w'))).
Proof.
  intros H Hne. cbn [passes] in H.
  destruct ideas as [| i0 rest]; [contradiction |].
  apply bind_Ret_inv in H as ([critiques w1] & Hev & H).
  apply bind_Ret_inv in H as ([s1 needs] & Hf & H).
  exists critiques, w1, s1, needs. split; [exact Hev |]. split; [exact Hf |].
  destruct needs as [| r needs].
  - left. injection H as <- <- <-. auto.
  - right. split; [discriminate |].
    apply bind_Ret_inv in H as ([[store2 refined] w2] & Hr & H).
    exists store2, refined, w2. auto.
Qed.

(** The passes keep the invariant: when the loop is left, the ideas that are
    still active are among those in [ideas]. *)
Lemma inv_passes n : forall loop a d s ideas w s' ideas' w',
  passes n loop a d s ideas w = Ret (s', ideas', w') ->
  inv s ideas ->
  exists active, inv s' active /\ (forall i, i ∈ active -> i ∈ ideas').
Proof.
  induction n as [| n IH]; intros loop a d s ideas w s' ideas' w' H Hinv.
  - cbn [passes] in H. injection H as <- <- <-. exists ideas. auto.
  - destruct ideas as [| i0 rest] eqn:Hideas.
    + cbn [passes] in H. injection H as <- <- <-. exists []. auto.
    + rewrite <- Hideas in *.
      apply passes_step in H as (critiques & w1 & s1 & needs & Hev & Hf & Hcases);
        [| rewrite Hideas; discriminate].
      assert (Hlen : length critiques = length ideas).
      { rewrite (evaluate_length _ _ _ _ Hev). apply objects_length.
        apply (inv_valid _ _ Hinv). }
      assert (Hinv1 : inv s1 needs).
      { apply (inv_filter_ideas _ _ _ _ _ _ _ _ Hf).
        rewrite fst_zip by lia. exact Hinv. }
      destruct Hcases as [(-> & -> & -> & ->) | (_ & store2 & refined & w2 & Hr & Hp)].
      * exists []. split; [exact Hinv1 |]. intros i Hi. apply elem_of_nil in Hi. contradiction.
      * apply refine_ideas_spec in Hr as (-> & Hst & _).
        apply (IH _ _ _ _ _ _ _ _ _ Hp). cbn [app].
        apply (inv_same_status (store s1)); [exact Hst |]. destruct s1; exact Hinv1.
Qed.

(** What the passes print is for the current pass or a later one. *)
Lemma passes_printed n : forall loop a d s ideas w s' ideas' w',
  passes n loop a d s ideas w = Ret (s', ideas', w') ->
  exists evs, printed s' = printed s ++ evs /\ forall e, e ∈ evs -> loop <= ev_loop e.
Proof.
  induction n as [| n IH]; intros loop a d s ideas w s' ideas' w' H.
  - cbn [passes] in H. injection H as <- <- <-. exists []. rewrite app_nil_r.
    split; [reflexivity |]. intros e He. apply elem_of_nil in He. contradiction.
  - destruct ideas as [| i0 rest] eqn:Hideas.
    + cbn [passes] in H. injection H as <- <- <-. exists []. rewrite app_nil_r.
      split; [reflexivity |]. intros e He. apply elem_of_nil in He. contradiction.
    + rewrite <- Hideas in *.
      apply passes_step in H as (critiques & w1 & s1 & needs & Hev & Hf & Hcases);
        [| rewrite Hideas; discriminate].
      apply filter_ideas_printed in Hf as (evs & more & Hp & _ & Hevs).
      destruct Hcases as [(_ & -> & _ & _) | (_ & store2 & refined & w2 & _ & Hp2)].
      * exists evs. split; [exact Hp |]. intros e He. destruct (Hevs e He) as [-> _]. lia.
      * apply IH in Hp2 as (evs2 & Hp2 & Hevs2). cbn [printed] in Hp2.
        exists (evs ++ evs2). rewrite Hp2, Hp, app_assoc. split; [reflexivity |].
        intros e He. apply elem_of_app in He as [He | He].
        -- destruct (Hevs e He) as [-> _]. lia.
        -- specialize (Hevs2 e He). lia.
Qed.

Lemma fmap_fmap_option {A B C : Type} (f : A -> B) (g : B -> C) (x : option A) :
  g <$> (f <$> x) = (fun a => g (f a)) <$> x.
Proof. destruct x; reflexivity. Qed.

(** An idea that every one of the [n] passes sends to refinement is in the
    list when the loop is left, is still active, and has [n] "refined"
    snapshots more than before. *)
Lemma passes_refined n : forall loop a d s ideas w s' ideas' w',
  passes n loop a d s ideas w = Ret (s', ideas', w') ->
  inv s ideas ->
  (forall e, e ∈ printed s -> ev_loop e < loop) ->
  forall i, i ∈ ideas ->
    (forall k, loop <= k < loop + Z.of_nat n -> refine_event k i ∈ printed s') ->
    i ∈ ideas'
    /\ status_at (store s') i = Some "active"
    /\ roles_at (store s') i
       = (fun roles => roles ++ replicate n "refined") <$> roles_at (store s) i.
Proof.
  induction n as [| n IH]; intros loop a d s ideas w s' ideas' w' H Hinv Hold i Hi Hev.
  - cbn [passes] in H. injection H as <- <- <-. split; [exact Hi |].
    destruct (inv_valid _ _ Hinv i Hi) as [idea Hidea].
    unfold status_at, roles_at. rewrite Hidea. cbn. split.
    + f_equal. apply (inv_active _ _ Hinv i idea Hidea). exact Hi.
    + rewrite app_nil_r. reflexivity.
  - assert (Hne : ideas <> []) by (intros ->; apply elem_of_nil in Hi; contradiction).
    apply passes_step in H as (critiques & w1 & s1 & needs & Hcr & Hf & Hcases);
      [| exact Hne].
    assert (Hlen : length critiques = length ideas).
    { rewrite (evaluate_length _ _ _ _ Hcr). apply objects_length.
      apply (inv_valid _ _ Hinv). }
    assert (Hinv1 : inv s1 needs).
    { apply (inv_filter_ideas _ _ _ _ _ _ _ _ Hf). rewrite fst_zip by lia. exact Hinv. }
    pose proof (filter_ideas_roles _ _ _ _ _ _ _ _ Hf i) as Hroles1.
    apply filter_ideas_printed in Hf as (evs & more & Hp & Hmore & Hevs).
    cbn [app] in Hmore. subst more.
    assert (Hnow : refine_event loop i ∈ printed s') by (apply Hev; lia).
    assert (Hin : refine_event loop i ∈ printed s1 -> i ∈ needs).
    { rewrite Hp. intros Hx. apply elem_of_app in Hx as [Hx | Hx].
      - specialize (Hold _ Hx). cbn in Hold. lia.
      - apply (proj2 (Hevs _ Hx)). reflexivity. }
    destruct Hcases as [(-> & -> & _ & _) | (_ & store2 & refined & w2 & Hr & Hp2)].
    + apply Hin in Hnow. apply elem_of_nil in Hnow. contradiction.
    + pose proof (passes_printed _ _ _ _ _ _ _ _ _ _ Hp2) as (evs2 & Hpr2 & Hevs2).
      cbn [printed] in Hpr2.
      assert (Hneeds : i ∈ needs).
      { apply Hin. rewrite Hpr2 in Hnow. apply elem_of_app in Hnow as [Hx | Hx]; [exact Hx |].
        specialize (Hevs2 _ Hx). cbn in Hevs2. lia. }
      apply refine_ideas_spec in Hr as (-> & Hst & Hro). cbn [app] in Hp2.
      specialize (Hro (inv_nodup_active _ _ Hinv1) i).
      destruct (decide (i ∈ needs)) as [_ | Hout]; [| contradiction].
      apply IH with (i := i) in Hp2 as (Hi' & Hst' & Hro').
      * split; [exact Hi' |]. split; [exact Hst' |].
        rewrite Hro'. cbn [store]. rewrite Hro, Hroles1, fmap_fmap_option.
        destruct (roles_at (store s) i) as [roles |]; [| reflexivity].
        cbn. unfold add_refined. rewrite <- app_assoc. reflexivity.
      * apply (inv_same_status (store s1)); [exact Hst |]. destruct s1; exact Hinv1.
      * cbn [printed]. rewrite Hp. intros e He. apply elem_of_app in He as [He | He].
        -- specialize (Hold e He). lia.
        -- destruct (Hevs e He) as [-> _]. lia.
      * exact Hneeds.
      * intros k Hk. apply Hev. lia.
Qed.

(** The body of the last loop of [research_loop], for one idea. *)
Lemma finalize_cons r rest s :
  finalize (r :: rest) s
  = match store s !! r with
    | Some idea =>
        if String.eqb (status idea) "active" then
          finalize rest
            {| store := alter (set_status "refined_best_effort") r (store s);
               accepted_ideas := accepted_ideas s ++ [r];
               printed := printed s |}
        else finalize rest s
    | None => finalize rest s
    end.
Proof. reflexivity. Qed.

Lemma finalize_printed l : forall s, printed (finalize l s) = printed s.
Proof.
  induction l as [| r rest IH]; intros s; [reflexivity |].
  rewrite finalize_cons. destruct (store s !! r) as [idea |]; [| apply IH].
  destruct (String.eqb (status idea) "active"); rewrite IH; reflexivity.
Qed.

(** The last loop leaves an idea that is not active as it is. *)
Lemma finalize_inactive l : forall s i idea,
  store s !! i = Some idea -> status idea <> "active" ->
  store (finalize l s) !! i = Some idea.
Proof.
  induction l as [| r rest IH]; intros s i idea Hi Hst; [exact Hi |].
  rewrite finalize_cons. destruct (store s !! r) as [x |] eqn:Hr; [| apply IH; assumption].
  destruct (String.eqb (status x) "active") eqn:Hx; [| apply IH; assumption].
  apply String.eqb_eq in Hx. apply IH; [| exact Hst]. cbn [store].
  rewrite list_lookup_alter_ne; [exact Hi |]. intros ->. congruence.
Qed.

(** The last loop turns an active idea of its list into a best-effort
    one, and changes nothing else of it. *)
Lemma finalize_active l : forall s i idea,
  i ∈ l -> store s !! i = Some idea -> status idea = "active" ->
  store (finalize l s) !! i = Some (set_status "refined_best_effort" idea).
Proof.
  induction l as [| r rest IH]; intros s i idea Hin Hi Hst.
  - apply elem_of_nil in Hin. contradiction.
  - rewrite finalize_cons. destruct (decide (i = r)) as [-> | Hne].
    + rewrite Hi, Hst. cbn. apply finalize_inactive; [| discriminate].
      cbn [store]. rewrite list_lookup_alter_eq, Hi. reflexivity.
    + apply elem_of_cons in Hin as [Heq | Hin]; [contradiction |].
      destruct (store s !! r) as [x |] eqn:Hr; [| apply IH; assumption].
      destruct (String.eqb (status x) "active"); [| apply IH; assumption].
      apply IH; [exact Hin | | exact Hst]. cbn [store].
      rewrite list_lookup_alter_ne by congruence. exact Hi.
Qed.

Lemma inv_finalize l : forall s active,
  inv s active -> (forall i, i ∈ active -> i ∈ l) -> inv (finalize l s) [].
Proof.
  induction l as [| r rest IH]; intros s active Hinv Hsub.
  - cbn [finalize]. destruct active as [| i0 active]; [exact Hinv |].
    specialize (Hsub i0 (list_elem_of_here _ _)). apply elem_of_nil in Hsub. contradiction.
  - rewrite finalize_cons.
    assert (Hskip : r ∉ active -> inv (finalize rest s) []).
    { intros Hr. apply (IH s active Hinv). intros i Hi.
      specialize (Hsub i Hi). apply elem_of_cons in Hsub as [-> | Hsub]; [contradiction | exact Hsub]. }
    destruct (store s !! r) as [idea |] eqn:Hr.
    2:{ apply Hskip. intros Hin. destruct (inv_valid _ _ Hinv r Hin) as [x Hx]. congruence. }
    destruct (String.eqb (status idea) "active") eqn:Hst.
    2:{ apply Hskip. intros Hin. apply (inv_active _ _ Hinv r idea Hr) in Hin.
        apply String.eqb_neq in Hst. contradiction. }
    apply String.eqb_eq in Hst.
    destruct Hinv as [Hna Hnd Hacc Hact Hval Hdrop Hav].
    assert (Hnotin : r ∉ accepted_ideas s).
    { intros Hin. apply (Hacc r idea Hr) in Hin as [Hin | Hin]; congruence. }
    apply (IH _ (filter (fun x => x <> r) active)).
    + assert (Hlook : forall i,
                alter (set_status "refined_best_effort") r (store s) !! i
                = if decide (i = r) then Some (set_status "refined_best_effort" idea)
                  else store s !! i).
      { intros i. destruct (decide (i = r)) as [-> | Hne].
        - rewrite list_lookup_alter_eq, Hr. reflexivity.
        - rewrite list_lookup_alter_ne by congruence. reflexivity. }
      split; cbn [store accepted_ideas printed].
      * apply NoDup_app. split; [exact Hna |]. split; [| apply NoDup_singleton].
        intros x Hx Hx'. apply list_elem_of_singleton in Hx'. subst x. contradiction.
      * apply NoDup_filter. exact Hnd.
      * intros i x. rewrite Hlook. destruct (decide (i = r)) as [-> | Hne].
        -- intros [= <-]. cbn. split; [auto |]. intros _. apply elem_of_app. right.
           apply list_elem_of_singleton. reflexivity.
        -- intros Hi. rewrite <- (Hacc i x Hi). rewrite elem_of_app, list_elem_of_singleton.
           split; [intros [H | H]; [exact H | contradiction] | auto].
      * intros i x. rewrite Hlook, list_elem_of_filter. destruct (decide (i = r)) as [-> | Hne].
        -- intros [= <-]. cbn. split; [discriminate | intros [H _]; contradiction].
        -- intros Hi. rewrite (Hact i x Hi). split; [auto | intros [_ H]; exact H].
      * intros i Hi. apply list_elem_of_filter in Hi as [Hne Hi]. rewrite Hlook.
        destruct (decide (i = r)); [contradiction |]. apply Hval. exact Hi.
      * intros e He Hd. destruct (Hdrop e He Hd) as (x & Hx & Hrej).
        rewrite Hlook. destruct (decide (ev_idea e = r)) as [Heq | Hne]; [| eauto].
        rewrite Heq in Hx. congruence.
      * intros i Hi. rewrite Hlook. destruct (decide (i = r)); [eauto |].
        apply Hav. apply elem_of_app in Hi as [Hi | Hi]; [exact Hi |].
        apply list_elem_of_singleton in Hi. contradiction.
    + intros i Hi. apply list_elem_of_filter in Hi as [Hne Hi].
      specialize (Hsub i Hi). apply elem_of_cons in Hsub as [-> | Hsub]; [contradiction | exact Hsub].
Qed.

(** The drafts as the loop finds them: all active, none accepted. *)
Lemma inv_initial (drafts : list (string * IdeaContent)) :
  inv {| store := map (fun d => new_idea (fst d) (snd d)) drafts;
         accepted_ideas := []; printed := [] |}
      (seq 0 (length (map (fun d => new_idea (fst d) (snd d)) drafts))).
Proof.
  set (ideas := map _ drafts).
  assert (Hnew : forall i idea, ideas !! i = Some idea -> status idea = "active").
  { intros i idea H. unfold ideas in H. change (map ?f ?l) with (f <$> l) in H.
    rewrite list_lookup_fmap in H. destruct (drafts !! i); [| discriminate].
    injection H as <-. reflexivity. }
  split; cbn [store accepted_ideas printed].
  - apply NoDup_nil_2.
  - apply NoDup_seq.
  - intros i idea H. rewrite (Hnew i idea H). split.
    + intros Hin. apply elem_of_nil in Hin. contradiction.
    + intros [Hx | Hx]; discriminate.
  - intros i idea H. split.
    + intros _. apply elem_of_seq. split; [lia |]. apply lookup_lt_Some in H. lia.
    + intros _. apply (Hnew i idea H).
  - intros i Hi. apply elem_of_seq in Hi. apply lookup_lt_is_Some. lia.
  - intros e He. apply elem_of_nil in He. contradiction.
  - intros i Hi. apply elem_of_nil in Hi. contradiction.
Qed.

(** A run that returns, taken apart: the passes, then the last loop, then
    the array that is saved. *)
Lemma research_loop_inv loaded drafts max_loops w r :
  research_loop loaded drafts max_loops w = Ret r ->
  exists a d s ideas' w',
    passes (Z.to_nat max_loops) 0 a d
      {| store := map (fun d => new_idea (fst d) (snd d)) drafts;
         accepted_ideas := []; printed := [] |}
      (seq 0 (length (map (fun d => new_idea (fst d) (snd d)) drafts))) w
    = Ret (s, ideas', w')
    /\ final r = finalize ideas' s
    /\ saved r = objects (store (final r)) (accepted_ideas (final r)).
Proof.
  unfold research_loop. intros H.
  apply bind_Ret_inv in H as (config & _ & H).
  apply bind_Ret_inv in H as ([a d] & _ & H).
  apply bind_Ret_inv in H as (? & _ & H).
  apply bind_Ret_inv in H as (? & _ & H).
  apply bind_Ret_inv in H as (? & _ & H).
  apply bind_Ret_inv in H as (? & _ & H).
  apply bind_Ret_inv in H as ([[s ideas'] w'] & Hp & H).
  injection H as <-. exists a, d, s, ideas', w'. auto.
Qed.

Lemma research_loop_final_inv loaded drafts max_loops w r :
  research_loop loaded drafts max_loops w = Ret r -> inv (final r) [].
Proof.
  intros H. apply research_loop_inv in H as (a & d & s & ideas' & w' & Hp & -> & _).
  apply inv_passes in Hp as (active & Hinv & Hsub); [| apply inv_initial].
  apply (inv_finalize ideas' s active Hinv Hsub).
Qed.

(** C5: an idea that every one of the [max_loops] passes sends to
    refinement ends the run with the status "refined_best_effort" and with
    [max_loops + 1] snapshots, the draft and one refined snapshot per pass;
    it is in the saved array. *)
Theorem C5_refined_on_every_pass_ends_best_effort
        loaded drafts max_loops w r (i : nat) :
  0 <= max_loops ->
  research_loop loaded drafts max_loops w = Ret r ->
  (i < length drafts)%nat ->
  (forall k, 0 <= k < max_loops -> refine_event k i ∈ printed (final r)) ->
  exists idea,
    store (final r) !! i = Some idea
    /\ status idea = "refined_best_effort"
    /\ map role (evolution_history idea)
       = "draft" :: replicate (Z.to_nat max_loops) "refined"
    /\ Z.of_nat (length (evolution_history idea)) = max_loops + 1
    /\ idea ∈ saved r.
Proof.
  intros Hmax Hrun Hi Hev.
  pose proof (research_loop_final_inv _ _ _ _ _ Hrun) as Hfinal.
  apply research_loop_inv in Hrun as (a & d & s & ideas' & w' & Hp & Hfin & Hsaved).
  set (ideas := map (fun d => new_idea (fst d) (snd d)) drafts) in *.
  assert (Hlen : length ideas = length drafts) by apply length_map.
  destruct (lookup_lt_is_Some_2 drafts i Hi) as [dr Hdr].
  assert (Hinit : roles_at ideas i = Some ["draft"]).
  { unfold roles_at, ideas. change (map ?f ?l) with (f <$> l).
    rewrite list_lookup_fmap, Hdr. reflexivity. }
  apply passes_refined with (i := i) in Hp as (Hin & Hst & Hro).
  - cbn [store] in Hro. rewrite Hinit in Hro. cbn in Hro.
    unfold status_at in Hst. unfold roles_at in Hro.
    destruct (store s !! i) as [idea0 |] eqn:Hidea0; [| discriminate].
    injection Hst as Hst. injection Hro as Hro.
    pose proof (finalize_active ideas' s i idea0 Hin Hidea0 Hst) as Hlook.
    rewrite <- Hfin in Hlook.
    exists (set_status "refined_best_effort" idea0).
    split; [exact Hlook |]. split; [reflexivity |]. cbn [set_status evolution_history].
    split; [exact Hro |]. split.
    + rewrite <- (length_map role), Hro. cbn [length]. rewrite length_replicate. lia.
    + rewrite Hsaved. unfold objects. apply list_elem_of_omap. exists i.
      split; [| exact Hlook].
      apply (inv_accepted _ _ Hfinal i _ Hlook). right. reflexivity.
  - apply inv_initial.
  - cbn [printed]. intros e He. apply elem_of_nil in He. contradiction.
  - apply elem_of_seq. lia.
  - intros k Hk. rewrite <- (finalize_printed ideas' s), <- Hfin. apply Hev. lia.
Qed.

(** C10: the saved array holds, once each, the ideas whose final status is
    "accepted" or "refined_best_effort". An idea the filter step dropped has
    the final status "rejected" and no entry in the array. *)
Theorem C10_saved_ideas_are_accepted_or_best_effort loaded drafts max_loops w r :
  research_loop loaded drafts max_loops w = Ret r ->
  saved r = objects (store (final r)) (accepted_ideas (final r))
  /\ NoDup (accepted_ideas (final r))
  /\ length (saved r) = length (accepted_ideas (final r))
  /\ (forall i idea, store (final r) !! i = Some idea ->
        (i ∈ accepted_ideas (final r) <->
         status idea = "accepted" \/ status idea = "refined_best_effort"))
  /\ (forall idea, idea ∈ saved r ->
        status idea = "accepted" \/ status idea = "refined_best_effort")
  /\ (forall e, e ∈ printed (final r) -> ev_decision e = Drop ->
        exists idea,
          store (final r) !! ev_idea e = Some idea
          /\ status idea = "rejected"
          /\ ~ (ev_idea e ∈ accepted_ideas (final r))
          /\ ~ (idea ∈ saved r)).
Proof.
  intros Hrun.
  pose proof (research_loop_final_inv _ _ _ _ _ Hrun) as Hfinal.
  apply research_loop_inv in Hrun as (a & d & s & ideas' & w' & _ & _ & Hsaved).
  assert (Hmem : forall idea, idea ∈ saved r ->
            status idea = "accepted" \/ status idea = "refined_best_effort").
  { intros idea Hin. rewrite Hsaved in Hin. unfold objects in Hin.
    apply list_elem_of_omap in Hin as (i & Hi & Hlook).
    apply (inv_accepted _ _ Hfinal i idea Hlook). exact Hi. }
  split; [exact Hsaved |].
  split; [apply (inv_nodup_accepted _ _ Hfinal) |].
  split; [rewrite Hsaved; apply objects_length, (inv_accepted_valid _ _ Hfinal) |].
  split; [apply (inv_accepted _ _ Hfinal) |].
  split; [exact Hmem |].
  intros e He Hd. destruct (inv_dropped _ _ Hfinal e He Hd) as (idea & Hlook & Hrej).
  exists idea. split; [exact Hlook |]. split; [exact Hrej |]. split.
  - intros Hin. apply (inv_accepted _ _ Hfinal _ idea Hlook) in Hin as [H | H];
      rewrite Hrej in H; discriminate.
  - intros Hin. destruct (Hmem idea Hin) as [H | H]; rewrite Hrej in H; discriminate.
Qed.

Lemma C5_refined_on_every_pass_ends_best_effort_witness :
  match refined_twice with
  | Ret r =>
      exists idea,
        store (final r) !! 0%nat = Some idea
        /\ status idea = "refined_best_effort"
        /\ map role (evolution_history idea) = ["draft"; "refined"; "refined"]
        /\ Z.of_nat (length (evolution_history idea)) = 3
        /\ idea ∈ saved r
  | Raise _ => False
  end.
Proof.
  destruct refined_twice as [r | e] eqn:Hr.
  - apply (C5_refined_on_every_pass_ends_best_effort
             (Ret config_without_thresholds) one_draft 2
             [ Ret "novelty: 2 impact: 3"; Ret "no JSON";
               Ret "novelty: 2 impact: 3"; Ret "no JSON" ] r 0%nat).
    + lia.
    + exact Hr.
    + cbn. lia.
    + intros k Hk. vm_compute in Hr. injection Hr as <-. cbn [final printed].
      assert (Hcases : k = 0 \/ k = 1) by lia.
      destruct Hcases as [-> | ->]; apply list_elem_of_In; cbn; auto.
  - vm_compute in Hr. discriminate Hr.
Defined.

Lemma C10_saved_ideas_are_accepted_or_best_effort_witness :
  match three_ideas with
  | Ret r =>
      map idea_id (saved r) = ["idea-3"; "idea-1"]
      /\ map status (store (final r)) = ["refined_best_effort"; "rejected"; "accepted"]
      /\ forall idea, idea ∈ saved r ->
           status idea = "accepted" \/ status idea = "refined_best_effort"
  | Raise _ => False
  end.
Proof.
  destruct three_ideas as [r | e] eqn:Hr.
  - pose proof (C10_saved_ideas_are_accepted_or_best_effort _ _ _ _ r Hr)
      as (_ & _ & _ & _ & Hsaved & _).
    vm_compute in Hr. injection Hr as <-.
    split; [reflexivity |]. split; [reflexivity |]. exact Hsaved.
  - vm_compute in Hr. discriminate Hr.
Defined.

(* ===================================================================== *)
(** * More on the critique records *)
(* ===================================================================== *)

Lemma run_digit_groups {R : Type} (r : Re.regex) :
  digit_groups r ->
  forall (s : string) (g : option string) (k : string -> option string -> option R) (x : R),
    Re.run r s g k = Some x ->
    exists s' g', k s' g' = Some x /\ digit_or g g'.
Proof.
  induction r as [| p | r1 IH1 r2 IH2 | r1 IH1 | r1 IH1 | r1 IH1 | r1 IH1];
    intros Hd s g k x H; cbn [Re.run] in H.
  - exists s, g. split; [exact H | left; reflexivity].
  - destruct s as [| c s']; [discriminate |].
    destruct (p c); [| discriminate].
    exists s', g. split; [exact H | left; reflexivity].
  - destruct Hd as [Hd1 Hd2].
    apply (IH1 Hd1) in H as (s1 & g1 & H & Hg1).
    apply (IH2 Hd2) in H as (s2 & g2 & H & Hg2).
    exists s2, g2. split; [exact H |].
    destruct Hg2 as [-> | Hg2]; [exact Hg1 | right; exact Hg2].
  - cbn [digit_groups] in Hd. destruct (Re.run r1 s g k) as [y |] eqn:E.
    + injection H as ->. apply (IH1 Hd) in E. exact E.
    + exists s, g. split; [exact H | left; reflexivity].
  - cbn [digit_groups] in Hd. revert H. generalize (String.length s) as n.
    intros n. revert s g. induction n as [| n IHn]; intros s g H.
    + exists s, g. split; [exact H | left; reflexivity].
    + match type of H with
      | match ?m with _ => _ end = _ => destruct m as [y |] eqn:E
      end.
      * injection H as ->. apply (IH1 Hd) in E as (s1 & g1 & E & Hg1).
        destruct (Re.shorter s1 s); [| discriminate].
        apply IHn in E as (s2 & g2 & E & Hg2).
        exists s2, g2. split; [exact E |].
        destruct Hg2 as [-> | Hg2]; [exact Hg1 | right; exact Hg2].
      * exists s, g. split; [exact H | left; reflexivity].
  - cbn [digit_groups] in Hd. revert H. generalize (String.length s) as n.
    intros n. revert s g. induction n as [| n IHn]; intros s g H.
    + destruct (k s g) as [y |] eqn:E; [| discriminate].
      exists s, g. rewrite E. split; [exact H | left; reflexivity].
    + destruct (k s g) as [y |] eqn:E.
      * exists s, g. rewrite E. split; [exact H | left; reflexivity].
      * apply (IH1 Hd) in H as (s1 & g1 & H & Hg1).
        destruct (Re.shorter s1 s); [| discriminate].
        apply IHn in H as (s2 & g2 & H & Hg2).
        exists s2, g2. split; [exact H |].
        destruct Hg2 as [-> | Hg2]; [exact Hg1 | right; exact Hg2].
  - destruct r1; cbn [digit_groups] in Hd; try contradiction.
    cbn [Re.run] in H. destruct s as [| c s']; [discriminate |].
    destruct (p c) eqn:Hp; [| discriminate].
    eexists _, _. split; [exact H |]. right. exists c. split; [| apply Hd, Hp].
    f_equal. cbn [String.length]. replace (S (String.length s') - String.length s')%nat with 1%nat by lia.
    reflexivity.
Qed.

Lemma search_digit_group (r : Re.regex) (s : string) (m : Re.match_object) :
  digit_groups r -> sets_group r = true -> Re.search r s = Some m ->
  exists c, Re.group1 m = Some (String c EmptyString) /\ Str.isdigit c = true.
Proof.
  intros Hd Hs H.
  destruct (search_group r s m Hs H) as [g Hg].
  assert (Hat : forall t, Re.match_at r t = Some m ->
            exists c, Re.group1 m = Some (String c EmptyString) /\ Str.isdigit c = true).
  { intros t Ht. unfold Re.match_at in Ht.
    apply (run_digit_groups r Hd) in Ht as (s' & g' & [= <-] & [Hg' | Hg']).
    - cbn in Hg. subst g'. discriminate.
    - exact Hg'. }
  clear Hg. induction s as [| c s IH]; cbn [Re.search] in H.
  - destruct (Re.match_at r EmptyString) eqn:E; [| discriminate].
    injection H as ->. apply (Hat _ E).
  - destruct (Re.match_at r (String c s)) eqn:E; [| exact (IH H)].
    injection H as ->. apply (Hat _ E).
Qed.

Lemma digit_groups_Lit (s : string) : digit_groups (Re.Lit s).
Proof. induction s; cbn; auto. Qed.

Lemma patterns_capture_a_digit (keyword : string) (p : Re.regex) :
  In p (CriticAgent.patterns keyword) -> digit_groups p /\ sets_group p = true.
Proof.
  intros [<- | [<- | []]]; cbn [digit_groups sets_group Re.Plus].
  - repeat split; try apply digit_groups_Lit; auto.
    rewrite !orb_true_r. reflexivity.
  - repeat split; try apply digit_groups_Lit; auto.
    rewrite !orb_true_r. reflexivity.
Qed.

(** [int] of one decimal digit is its value. *)
Lemma int_of_digit (c : ascii) :
  Str.isdigit c = true ->
  exists z, int_of_str (String c EmptyString) = Ret z /\ 0 <= z <= 9.
Proof.
  destruct c as [[] [] [] [] [] [] [] []]; intros H; try discriminate H;
    eexists; (split; [vm_compute; reflexivity | lia]).
Qed.

Lemma find_score_patterns_range text ps keyword :
  (forall p, In p ps -> In p (CriticAgent.patterns keyword)) ->
  exists r, CriticAgent.find_score_patterns text ps = Ret r
            /\ forall score, r = Some score -> 1 <= score <= 5.
Proof.
  induction ps as [| p ps IH]; intros Hps; cbn [CriticAgent.find_score_patterns].
  - exists None. split; [reflexivity | discriminate].
  - assert (IH' := IH (fun q Hq => Hps q (or_intror Hq))).
    destruct (Re.search p text) as [m |] eqn:Hm; [| exact IH'].
    destruct (patterns_capture_a_digit keyword p (Hps p (or_introl eq_refl))) as [Hd Hs].
    destruct (search_digit_group p text m Hd Hs Hm) as (c & Hg & Hc).
    unfold group1_str. rewrite Hg. cbn [bind].
    destruct (int_of_digit c Hc) as (z & -> & Hz). cbn [bind].
    destruct ((1 <=? z) && (z <=? 5)) eqn:Hrange; [| exact IH'].
    exists (Some z). split; [reflexivity |]. intros score [= <-].
    apply andb_true_iff in Hrange as [H1 H2]. lia.
Qed.

(** [_find_score] returns for every text, with 0 or with a score between 1
    and 5. *)
Lemma find_score_range (text : string) (keywords : list string) :
  exists score, CriticAgent._find_score text keywords = Ret score /\ 0 <= score <= 5.
Proof.
  unfold CriticAgent._find_score. generalize (Str.lower text) as t. intros t.
  induction keywords as [| keyword rest IH]; cbn [CriticAgent.find_score_keywords].
  - exists 0. split; [reflexivity | lia].
  - destruct (find_score_patterns_range t (CriticAgent.patterns keyword) keyword
                (fun p H => H)) as (r & -> & Hr).
    cbn [bind]. destruct r as [score |]; [| exact IH].
    exists score. split; [reflexivity |]. specialize (Hr score eq_refl). lia.
Qed.

Lemma all_scores_ok_true : all_scores_ok = true.
Proof. vm_compute. reflexivity. Qed.

Lemma in_score_range (z : Z) : 0 <= z <= 5 -> In z score_range.
Proof.
  intros H. unfold score_range. cbn.
  assert (z = 0 \/ z = 1 \/ z = 2 \/ z = 3 \/ z = 4 \/ z = 5) by lia. intuition.
Qed.

Lemma average_ok_in_range (n f s i : Z) :
  0 <= n <= 5 -> 0 <= f <= 5 -> 0 <= s <= 5 -> 0 <= i <= 5 ->
  average_ok [n; f; s; i] = true.
Proof.
  intros Hn Hf Hs Hi. pose proof all_scores_ok_true as H. unfold all_scores_ok in H.
  rewrite forallb_forall in H. specialize (H n (in_score_range n Hn)).
  rewrite forallb_forall in H. specialize (H f (in_score_range f Hf)).
  rewrite forallb_forall in H. specialize (H s (in_score_range s Hs)).
  rewrite forallb_forall in H. exact (H i (in_score_range i Hi)).
Qed.

(** X1: for keywords that are plain words [_find_score] never raises, and
    its result is 0 or a score between 1 and 5, whatever the text. *)
Theorem find_score_is_zero_or_one_to_five (text : string) (keywords : list string) :
  Forall (fun keyword => plain_word keyword = true) keywords ->
  exists score,
    CriticAgent._find_score text keywords = Ret score
    /\ (score = 0 \/ 1 <= score <= 5).
Proof.
  intros _.
  unfold CriticAgent._find_score. generalize (Str.lower text) as t. intros t.
  induction keywords as [| keyword rest IH]; cbn [CriticAgent.find_score_keywords].
  - exists 0. split; [reflexivity | left; reflexivity].
  - destruct (find_score_patterns_range t (CriticAgent.patterns keyword) keyword
                (fun p H => H)) as (r & -> & Hr).
    cbn [bind]. destruct r as [score |]; [| exact IH].
    exists score. split; [reflexivity |]. right. exact (Hr score eq_refl).
Qed.

Lemma parse_from_text_spec (response : string) :
  exists r,
    CriticAgent._parse_from_text response = Ret r
    /\ 0 <= novelty_score r <= 5
    /\ 0 <= feasibility_score r <= 5
    /\ 0 <= specificity_score r <= 5
    /\ 0 <= impact_score r <= 5
    /\ Float.ge_of (Float.compare_Z (average_score r) 0) = true
    /\ le_of (Float.compare_Z (average_score r) 5) = true
    /\ (average_score r = Float.zero <->
        novelty_score r = 0 /\ feasibility_score r = 0
        /\ specificity_score r = 0 /\ impact_score r = 0).
Proof.
  unfold CriticAgent._parse_from_text.
  destruct (find_score_range response ["novelty"; "novel"]) as (n & -> & Hn).
  destruct (find_score_range response ["feasibility"; "feasible"]) as (f & -> & Hf).
  destruct (find_score_range response ["specificity"; "specific"]) as (s & -> & Hs).
  destruct (find_score_range response ["impact"]) as (i & -> & Hi).
  cbn [bind].
  pose proof (average_ok_in_range n f s i Hn Hf Hs Hi) as Hok.
  unfold average_ok in Hok.
  destruct (CriticAgent.average_of [n; f; s; i]) as [a | e]; [| discriminate].
  cbn [bind]. eexists. split; [reflexivity |]. cbn.
  apply andb_true_iff in Hok as [Hok Hzero]. apply andb_true_iff in Hok as [Hge Hle].
  apply Bool.eqb_prop in Hzero.
  assert (Hall : forallb (Z.eqb 0) [n; f; s; i] = true <-> n = 0 /\ f = 0 /\ s = 0 /\ i = 0).
  { cbn [forallb]. rewrite !andb_true_iff, !Z.eqb_eq. intuition lia. }
  split; [lia |]. split; [lia |]. split; [lia |]. split; [lia |].
  split; [exact Hge |]. split; [exact Hle |].
  rewrite <- Hall, <- Hzero. unfold Float.zero.
  destruct (Float.round a 2) as [[] | | |]; split; try discriminate; reflexivity.
Qed.

(** X2: the text path of the critique builder returns a record for every
    text. Its four scores lie between 0 and 5, its average lies between 0
    and 5, and the average is 0.0 exactly when the four scores are 0. *)
Theorem parse_from_text_is_bounded (response : string) :
  exists r,
    CriticAgent._parse_from_text response = Ret r
    /\ 0 <= novelty_score r <= 5
    /\ 0 <= feasibility_score r <= 5
    /\ 0 <= specificity_score r <= 5
    /\ 0 <= impact_score r <= 5
    /\ Float.ge_of (Float.compare_Z (average_score r) 0) = true
    /\ le_of (Float.compare_Z (average_score r) 5) = true
    /\ (average_score r = Float.zero <->
        novelty_score r = 0 /\ feasibility_score r = 0
        /\ specificity_score r = 0 /\ impact_score r = 0).
Proof. exact (parse_from_text_spec response). Qed.

Lemma int_of_str_error (s : string) (e : exn) :
  int_of_str s = Raise e -> e = ValueError.
Proof.
  unfold int_of_str.
  match goal with |- context [let '(_, _) := ?p in _] => destruct p as [neg t1] end.
  destruct (int_digits t1 0 false); intros H; [discriminate H | injection H; auto].
Qed.

(** X3: [_safe_int] gives 0 for what is not a number ([None], a list, a
    mapping, a NaN), the integer itself, 0 or 1 for a Boolean; a finite
    float of sign [s], mantissa [m] and exponent [e] gives its value
    truncated toward zero, the quotient [Z.quot] of the signed mantissa
    when [e] is negative; on a string it returns an integer, which is 0
    when the string is no integer; it raises, with [OverflowError], exactly
    on an infinite float. *)
Theorem safe_int_cases (value : pyval) :
  match value with
  | PNone => CriticAgent._safe_int value = Ret 0
  | PList _ => CriticAgent._safe_int value = Ret 0
  | PDict _ => CriticAgent._safe_int value = Ret 0
  | PBool b => CriticAgent._safe_int value = Ret (if b then 1 else 0)
  | PInt z => CriticAgent._safe_int value = Ret z
  | PStr s =>
      exists z, CriticAgent._safe_int value = Ret z
                /\ (forall e, int_of_str s = Raise e -> z = 0)
  | PFloat S754_nan => CriticAgent._safe_int value = Ret 0
  | PFloat (S754_infinity _) => CriticAgent._safe_int value = Raise OverflowError
  | PFloat (S754_zero _) => CriticAgent._safe_int value = Ret 0
  | PFloat (S754_finite s m e) =>
      let n := if s then Z.neg m else Z.pos m in
      CriticAgent._safe_int value
      = Ret (if 0 <=? e then n * 2 ^ e else Z.quot n (2 ^ (- e)))
  end.
Proof.
  destruct value as [| b | z | f | s | l | d]; try reflexivity.
  - destruct f as [sg | sg | | sg m e]; try reflexivity.
    cbv zeta. unfold CriticAgent._safe_int. cbn [py_int Float.trunc try_except].
    f_equal. destruct (0 <=? e) eqn:He.
    + destruct sg; [| reflexivity].
      change (Z.neg m) with (- Z.pos m). rewrite Z.mul_opp_l. reflexivity.
    + apply Z.leb_gt in He.
      assert (Hp : 0 < 2 ^ (- e)) by (apply Z.pow_pos_nonneg; lia).
      destruct sg.
      * change (Z.neg m) with (- Z.pos m).
        rewrite Z.quot_opp_l by lia. rewrite Z.quot_div_nonneg by lia. reflexivity.
      * rewrite Z.quot_div_nonneg by lia. reflexivity.
  - unfold CriticAgent._safe_int. cbn [py_int].
    destruct (int_of_str s) as [z | e] eqn:E.
    + exists z. split; [reflexivity |]. intros e H. discriminate H.
    + rewrite (int_of_str_error s e E). exists 0. split; reflexivity.
Qed.

Lemma safe_int_or_overflow (value : pyval) :
  (exists z, CriticAgent._safe_int value = Ret z)
  \/ CriticAgent._safe_int value = Raise OverflowError.
Proof.
  destruct value as [| b | z | f | s | l | d]; try (left; eexists; reflexivity).
  - destruct f; try (left; eexists; reflexivity). right. reflexivity.
  - left. unfold CriticAgent._safe_int. cbn [py_int].
    destruct (int_of_str s) as [z | e] eqn:E; [eexists; reflexivity |].
    rewrite (int_of_str_error s e E). eexists. reflexivity.
Qed.

Lemma truediv_or_overflow (a b : Z) :
  b <> 0 ->
  (exists x, Float.truediv a b = Ret x) \/ Float.truediv a b = Raise OverflowError.
Proof.
  intros Hb. unfold Float.truediv. apply Z.eqb_neq in Hb. rewrite Hb.
  destruct (a =? 0); [left; eexists; reflexivity |].
  destruct (Float.is_finite _); [left; eexists; reflexivity | right; reflexivity].
Qed.

Lemma average_of_or_overflow (scores : list Z) :
  (exists x, CriticAgent.average_of scores = Ret x)
  \/ CriticAgent.average_of scores = Raise OverflowError.
Proof.
  unfold CriticAgent.average_of.
  destruct (valid_scores scores) as [| v vs] eqn:E; [left; eexists; reflexivity |].
  apply truediv_or_overflow. cbn [length]. lia.
Qed.

(** X4: the critique builder returns a record or raises [OverflowError],
    and nothing else, whatever the response. *)
Theorem parse_critique_response_raises_only_overflow (response : string) :
  (exists r, CriticAgent._parse_critique_response response = Ret r)
  \/ CriticAgent._parse_critique_response response = Raise OverflowError.
Proof.
  unfold CriticAgent._parse_critique_response.
  destruct (extract_json_total response) as [data ->]. cbn [bind].
  assert (Htext : (exists r, CriticAgent._parse_from_text response = Ret r)
                  \/ CriticAgent._parse_from_text response = Raise OverflowError).
  { left. destruct (parse_from_text_spec response) as (r & Hr & _). eauto. }
  destruct data as [| b | z | f | s | l | data]; try exact Htext.
  destruct (safe_int_or_overflow (Dict.get "novelty_score" (PInt 0) data))
    as [[n ->] | ->]; [| right; reflexivity].
  destruct (safe_int_or_overflow (Dict.get "feasibility_score" (PInt 0) data))
    as [[f ->] | ->]; [| right; reflexivity].
  destruct (safe_int_or_overflow (Dict.get "specificity_score" (PInt 0) data))
    as [[s ->] | ->]; [| right; reflexivity].
  destruct (safe_int_or_overflow (Dict.get "impact_score" (PInt 0) data))
    as [[i ->] | ->]; [| right; reflexivity].
  cbn [bind].
  destruct (average_of_or_overflow [n; f; s; i]) as [[a ->] | ->];
    [left; eexists; reflexivity | right; reflexivity].
Qed.

(** X5: [evaluate] returns one critique for each idea. *)
Theorem evaluate_returns_one_critique_per_idea
        (ideas : list IdeaObject) (w w' : llm) (critiques : list CritiqueMetrics) :
  CriticAgent.evaluate ideas w = Ret (critiques, w') ->
  length critiques = length ideas.
Proof.
  revert w critiques. induction ideas as [| idea rest IH]; intros w critiques H.
  - cbn [CriticAgent.evaluate] in H. injection H as <- <-. reflexivity.
  - cbn [CriticAgent.evaluate] in H.
    apply bind_Ret_inv in H as ([c w1] & _ & H).
    apply bind_Ret_inv in H as ([cs w2] & Hrest & H).
    injection H as <- <-. cbn [length]. f_equal. exact (IH _ _ Hrest).
Qed.

(** X6: ideas without content are not sent to the backend: each of them
    gets the error critique, with the scores and the average 0. *)
Theorem evaluate_without_content (ideas : list IdeaObject) (w : llm) :
  Forall (fun idea => latest_content idea = None) ideas ->
  CriticAgent.evaluate ideas w
  = Ret (map (fun _ => CriticAgent._create_error_critique "No content found") ideas, w).
Proof.
  induction 1 as [| idea rest Hidea _ IH]; [reflexivity |].
  cbn [CriticAgent.evaluate]. unfold CriticAgent.evaluate_one at 1.
  rewrite Hidea. cbn [bind]. rewrite IH. reflexivity.
Qed.

(** X7: without a latest content or without a latest critique there is
    nothing to refine: [improve] returns the latest content as it is and no
    record, and does not consult the backend. *)
Theorem improve_without_critique_is_a_no_op (idea : IdeaObject) (w : llm) :
  latest_content idea = None \/ latest_critique idea = None ->
  RefinerAgent.improve idea w = Ret (latest_content idea, None, w).
Proof.
  unfold RefinerAgent.improve.
  intros [H | H]; rewrite H; [reflexivity |].
  destruct (latest_content idea); reflexivity.
Qed.

Lemma build_changes_truthy (data : Dict.t) (changes : pyval) :
  RefinerAgent.build_changes data = Ret changes ->
  truthy (if truthy changes then changes else PStr "No specific changes documented") = true.
Proof.
  intros _. destruct (truthy changes) eqn:E; [exact E | reflexivity].
Qed.

(** X8: the record [improve] returns with a refinement is an account of the
    prior version: it holds the prior title and methodology, the score of
    the prior critique and the first 500 characters of its feedback, and its
    summary of changes is never empty. This holds when the response was
    parsed and when it was not. *)
Theorem improve_records_the_prior_version
        (idea : IdeaObject) (w w' : llm) (content : IdeaContent) (critique : CritiqueMetrics)
        (new_content : option IdeaContent) (details : RefinementDetails) :
  latest_content idea = Some content ->
  latest_critique idea = Some critique ->
  RefinerAgent.improve idea w = Ret (new_content, Some details, w') ->
  original_title details = title content
  /\ original_methodology details = methodology content
  /\ critique_score details = average_score critique
  /\ py_prefix (feedback_text critique) 500 = Ret (critique_feedback details)
  /\ truthy (changes_made details) = true.
Proof.
  intros Hc Hq. unfold RefinerAgent.improve. rewrite Hc, Hq. intros H.
  apply bind_Ret_inv in H as (_ & _ & H).
  apply bind_Ret_inv in H as ([response w1] & _ & H).
  apply bind_Ret_inv in H as (data & _ & H).
  destruct data as [| b | z | f | s | l | data];
    try (apply bind_Ret_inv in H as (fb & Hfb & H); injection H as <- <- <-;
         cbn; repeat split; try reflexivity; exact Hfb).
  apply bind_Ret_inv in H as (changes & Hch & H).
  apply bind_Ret_inv in H as (fb & Hfb & H). injection H as <- <- <-. cbn.
  repeat split; try reflexivity; [exact Hfb |].
  apply (build_changes_truthy data changes Hch).
Qed.

Lemma last_set_last_critique (review : CritiqueMetrics) (h : list IdeaSnapshot) :
  last (set_last_critique review h)
  = (fun snapshot =>
       {| iteration := iteration snapshot; role := role snapshot;
          content := content snapshot; critique := Some review;
          refinement_details := refinement_details snapshot |}) <$> last h.
Proof.
  induction h as [| x [| y h] IH]; [reflexivity | reflexivity |].
  change (set_last_critique review (x :: y :: h))
    with (x :: set_last_critique review (y :: h)).
  destruct (set_last_critique review (y :: h)) as [| z t] eqn:E.
  - destruct h; discriminate E.
  - change (last (x :: z :: t)) with (last (z :: t)). rewrite IH. reflexivity.
Qed.

(** X9: the critique the filter step stores on an idea that has a snapshot
    is what [latest_critique] returns afterwards; the latest content is as
    before. On an idea without snapshot nothing is stored. *)
Theorem latest_critique_after_review (review : CritiqueMetrics) (idea : IdeaObject) :
  latest_content (attach_critique review idea) = latest_content idea
  /\ (evolution_history idea <> [] ->
      latest_critique (attach_critique review idea) = Some review)
  /\ (evolution_history idea = [] ->
      attach_critique review idea = idea).
Proof.
  unfold latest_content, latest_critique, attach_critique. cbn [evolution_history].
  rewrite last_set_last_critique. split; [| split].
  - destruct (last (evolution_history idea)); reflexivity.
  - intros Hne. destruct (last (evolution_history idea)) eqn:E; [reflexivity |].
    apply last_None in E. contradiction.
  - destruct idea as [id it st h]. cbn. intros ->. reflexivity.
Qed.

Lemma find_score_is_zero_or_one_to_five_witness :
  Forall (fun keyword => plain_word keyword = true) ["novelty"; "novel"]
  /\ exists score,
       CriticAgent._find_score "Novelty: 4/5" ["novelty"; "novel"] = Ret score
       /\ (score = 0 \/ 1 <= score <= 5).
Proof.
  assert (H : Forall (fun keyword => plain_word keyword = true) ["novelty"; "novel"])
    by (repeat constructor).
  split; [exact H |].
  apply (find_score_is_zero_or_one_to_five "Novelty: 4/5" ["novelty"; "novel"] H).
Defined.

Lemma evaluate_returns_one_critique_per_idea_witness :
  match CriticAgent.evaluate [critiqued_idea] [Ret "novelty: 4"] with
  | Ret (critiques, _) => length critiques = 1%nat
  | Raise _ => False
  end.
Proof.
  destruct (CriticAgent.evaluate [critiqued_idea] [Ret "novelty: 4"])
    as [[critiques w'] | e] eqn:E.
  - apply (evaluate_returns_one_critique_per_idea
             [critiqued_idea] [Ret "novelty: 4"] w' critiques E).
  - vm_compute in E. discriminate E.
Defined.

Lemma evaluate_without_content_witness :
  Forall (fun idea => latest_content idea = None) [empty_idea; empty_idea]
  /\ CriticAgent.evaluate [empty_idea; empty_idea] [Ret "novelty: 4"]
     = Ret ([CriticAgent._create_error_critique "No content found";
             CriticAgent._create_error_critique "No content found"],
            [Ret "novelty: 4"]).
Proof.
  assert (H : Forall (fun idea => latest_content idea = None) [empty_idea; empty_idea])
    by (repeat constructor).
  split; [exact H |].
  apply (evaluate_without_content [empty_idea; empty_idea] [Ret "novelty: 4"] H).
Defined.

Lemma improve_without_critique_is_a_no_op_witness :
  (latest_content drafted_idea = None \/ latest_critique drafted_idea = None)
  /\ RefinerAgent.improve drafted_idea [Ret "no JSON"]
     = Ret (latest_content drafted_idea, None, [Ret "no JSON"]).
Proof.
  assert (H : latest_content drafted_idea = None \/ latest_critique drafted_idea = None)
    by (right; reflexivity).
  split; [exact H |].
  apply (improve_without_critique_is_a_no_op drafted_idea [Ret "no JSON"] H).
Defined.

Lemma improve_records_the_prior_version_witness :
  match RefinerAgent.improve critiqued_idea [Ret "no JSON"] with
  | Ret (_, Some details, _) =>
      original_title details = PStr "T"
      /\ original_methodology details = PStr "M"
      /\ truthy (changes_made details) = true
  | _ => False
  end.
Proof.
  destruct (RefinerAgent.improve critiqued_idea [Ret "no JSON"])
    as [[[new_content [details |]] w'] | e] eqn:E.
  - destruct (improve_records_the_prior_version
                critiqued_idea [Ret "no JSON"] w' _ _ new_content details
                eq_refl eq_refl E) as (H1 & H2 & _ & _ & H5).
    split; [exact H1 |]. split; [exact H2 | exact H5].
  - vm_compute in E. discriminate E.
  - vm_compute in E. discriminate E.
Defined.

Lemma latest_critique_after_review_witness :
  latest_critique
    (Main.attach_critique (CriticAgent._create_error_critique "No content found")
       critiqued_idea)
  = Some (CriticAgent._create_error_critique "No content found").
Proof.
  apply (proj1 (proj2 (latest_critique_after_review
                         (CriticAgent._create_error_critique "No content found")
                         critiqued_idea))).
  discriminate.
Defined.

(* ===================================================================== *)
(** * More on the lifecycle controller *)
(* ===================================================================== *)

Lemma filter_idea_classified loop a d r review s needs s' needs' x :
  filter_idea loop a d r review s needs = Ret (s', needs') ->
  store s !! r = Some x ->
  exists dec c,
    classify (average_score review) a d = Ret dec
    /\ latest_content (attach_critique review x) = Some c
    /\ store s' = alter (fun y => outcome dec (attach_critique review y)) r (store s)
    /\ needs' = needs ++ (match dec with Refine => [r] | _ => [] end).
Proof.
  unfold filter_idea. rewrite list_lookup_alter_eq. intros H Hx. rewrite Hx in H.
  cbn [fmap option_fmap option_map] in H.
  apply bind_Ret_inv in H as (c & Hc & H).
  apply bind_Ret_inv in H as (t & _ & H).
  apply bind_Ret_inv in H as (dec & Hdec & H).
  exists dec, c. split; [exact Hdec |]. split.
  - destruct (latest_content (attach_critique review x)); [| discriminate Hc].
    injection Hc as ->. reflexivity.
  - destruct dec; injection H as <- <-; cbn [store];
      rewrite ?list_alter_alter_eq, ?app_nil_r; split; reflexivity.
Qed.

(** The filter step, idea by idea: an idea that is not in the list is left
    as it is; an idea of the list gets its review and the status of its
    class, and is to be refined exactly when its class is "refine". *)
Lemma filter_ideas_pointwise loop a d pairs : forall s needs s1 needs1,
  filter_ideas loop a d pairs s needs = Ret (s1, needs1) ->
  NoDup pairs.*1 ->
  (forall r, r ∈ pairs.*1 -> is_Some (store s !! r)) ->
  forall i,
    (~ (i ∈ pairs.*1) /\ store s1 !! i = store s !! i /\ (i ∈ needs1 <-> i ∈ needs))
    \/ (exists review x dec c,
          (i, review) ∈ pairs
          /\ store s !! i = Some x
          /\ classify (average_score review) a d = Ret dec
          /\ latest_content (attach_critique review x) = Some c
          /\ store s1 !! i = Some (outcome dec (attach_critique review x))
          /\ (i ∈ needs1 <-> (i ∈ needs \/ dec = Refine))).
Proof.
  induction pairs as [| [r review] rest IH]; intros s needs s1 needs1 H Hnd Hval i.
  - cbn [filter_ideas] in H. injection H as <- <-. left.
    split; [apply not_elem_of_nil | split; reflexivity].
  - cbn [filter_ideas] in H. apply bind_Ret_inv in H as ([sm nm] & Hstep & H).
    cbn [fst snd] in H. cbn [fmap list_fmap fst] in Hnd, Hval.
    apply NoDup_cons in Hnd as [Hr Hnd].
    destruct (Hval r (list_elem_of_here _ _)) as [x Hx].
    destruct (filter_idea_classified _ _ _ _ _ _ _ _ _ x Hstep Hx)
      as (dec & c & Hdec & Hc & Hsm & Hnm).
    assert (Hlook : forall j, store sm !! j =
              if decide (j = r) then Some (outcome dec (attach_critique review x))
              else store s !! j).
    { intros j. rewrite Hsm. destruct (decide (j = r)) as [-> | Hne].
      - rewrite list_lookup_alter_eq, Hx. reflexivity.
      - rewrite list_lookup_alter_ne by congruence. reflexivity. }
    assert (Hval' : forall r', r' ∈ rest.*1 -> is_Some (store sm !! r')).
    { intros r' Hr'. rewrite Hlook. destruct (decide (r' = r)); [eauto |].
      apply Hval. apply elem_of_cons. right. exact Hr'. }
    specialize (IH sm nm s1 needs1 H Hnd Hval' i).
    assert (Hnm' : forall j, j ∈ nm <-> (j ∈ needs \/ (j = r /\ dec = Refine))).
    { intros j. rewrite Hnm, elem_of_app. destruct dec;
        rewrite ?elem_of_nil, ?list_elem_of_singleton; intuition congruence. }
    destruct (decide (i = r)) as [-> | Hne].
    + right. exists review, x, dec, c.
      split; [apply list_elem_of_here |]. split; [exact Hx |].
      split; [exact Hdec |]. split; [exact Hc |].
      destruct IH as [(_ & Hs1 & Hn1) | (review' & _ & _ & _ & Hin & _)].
      * rewrite Hs1, Hlook. destruct (decide (r = r)); [| contradiction].
        split; [reflexivity |]. rewrite Hn1, Hnm'. intuition.
      * exfalso. apply Hr. apply list_elem_of_fmap. exists (r, review'). auto.
    + rewrite Hlook in IH. destruct (decide (i = r)); [contradiction |].
      destruct IH as [(Hout & Hs1 & Hn1) | (review' & x' & dec' & c' & Hin & Hx' & Hd' & Hc' & Hs1 & Hn1)].
      * left. split.
        -- intros Hi. apply elem_of_cons in Hi as [Hi | Hi]; [| contradiction]. cbn in Hi. contradiction.
        -- split; [exact Hs1 |]. rewrite Hn1, Hnm'. intuition.
      * right. exists review', x', dec', c'.
        split; [apply list_elem_of_further; exact Hin |].
        split; [exact Hx' |]. split; [exact Hd' |]. split; [exact Hc' |].
        split; [exact Hs1 |]. rewrite Hn1, Hnm'. intuition.
Qed.

Lemma refine_idea_appends loop r st w st' w' x :
  refine_idea loop r st w = Ret (st', w') ->
  st !! r = Some x ->
  exists snapshot, refined_in loop snapshot /\ st' = alter (append_snapshot snapshot) r st.
Proof.
  unfold refine_idea. intros H Hx. rewrite Hx in H.
  apply bind_Ret_inv in H as ([[new_content details] w1] & _ & H).
  injection H as <- <-. eexists. split; [| reflexivity]. repeat split.
Qed.

(** The refinement step, idea by idea: an idea of the list gets one more
    snapshot, any other is left as it is. *)
Lemma refine_ideas_pointwise loop needs : forall st w refined st' refined' w',
  refine_ideas loop needs st w refined = Ret (st', refined', w') ->
  NoDup needs ->
  (forall r, r ∈ needs -> is_Some (st !! r)) ->
  forall i,
    (~ (i ∈ needs) /\ st' !! i = st !! i)
    \/ (i ∈ needs
        /\ exists x snapshot,
             st !! i = Some x /\ refined_in loop snapshot
             /\ st' !! i = Some (append_snapshot snapshot x)).
Proof.
  induction needs as [| r rest IH]; intros st w refined st' refined' w' H Hnd Hval i.
  - cbn [refine_ideas] in H. injection H as <- <- <-. left.
    split; [apply not_elem_of_nil | reflexivity].
  - cbn [refine_ideas] in H. apply bind_Ret_inv in H as ([sm wm] & Hstep & H).
    cbn [fst snd] in H. apply NoDup_cons in Hnd as [Hr Hnd].
    destruct (Hval r (list_elem_of_here _ _)) as [x Hx].
    destruct (refine_idea_appends _ _ _ _ _ _ x Hstep Hx) as (snapshot & Hsnap & Hsm).
    assert (Hlook : forall j, sm !! j =
              if decide (j = r) then Some (append_snapshot snapshot x) else st !! j).
    { intros j. rewrite Hsm. destruct (decide (j = r)) as [-> | Hne].
      - rewrite list_lookup_alter_eq, Hx. reflexivity.
      - rewrite list_lookup_alter_ne by congruence. reflexivity. }
    assert (Hval' : forall r', r' ∈ rest -> is_Some (sm !! r')).
    { intros r' Hr'. rewrite Hlook. destruct (decide (r' = r)); [eauto |].
      apply Hval. apply elem_of_cons. right. exact Hr'. }
    specialize (IH sm wm _ st' refined' w' H Hnd Hval' i).
    rewrite Hlook in IH.
    destruct (decide (i = r)) as [-> | Hne].
    + right. split; [apply list_elem_of_here |].
      destruct IH as [(_ & Hs) | (Hin & _)]; [| contradiction].
      exists x, snapshot. auto.
    + destruct IH as [(Hout & Hs) | (Hin & Hrest)].
      * left. split; [| exact Hs].
        intros Hi. apply elem_of_cons in Hi as [Hi | Hi]; contradiction.
      * right. split; [apply list_elem_of_further; exact Hin | exact Hrest].
Qed.

Lemma set_last_critique_bare (review : CritiqueMetrics) (h : list IdeaSnapshot) :
  length (set_last_critique review h) = length h
  /\ map iteration (set_last_critique review h) = map iteration h
  /\ (content <$> head (set_last_critique review h)) = (content <$> head h).
Proof.
  induction h as [| x [| y h] IH]; [repeat split; reflexivity .. |].
  change (set_last_critique review (x :: y :: h))
    with (x :: set_last_critique review (y :: h)).
  destruct IH as (Hl & Hi & _). cbn [length map]. rewrite Hl, Hi.
  repeat split; reflexivity.
Qed.

Lemma shaped_attach dr review x : shaped dr x -> shaped dr (attach_critique review x).
Proof.
  unfold shaped, attach_critique. cbn [idea_id evolution_history current_iteration].
  destruct (set_last_critique_bare review (evolution_history x)) as (Hl & Hi & Hc).
  rewrite Hl, Hi, Hc, roles_set_last_critique. tauto.
Qed.

Lemma shaped_set_status dr s x : shaped dr x -> shaped dr (set_status s x).
Proof. unfold shaped, set_status. cbn [idea_id evolution_history current_iteration]. tauto. Qed.

Lemma shaped_outcome dr dec x : shaped dr x -> shaped dr (outcome dec x).
Proof. destruct dec; cbn [outcome]; auto using shaped_set_status. Qed.

Lemma shaped_nonempty dr x : shaped dr x -> evolution_history x <> [].
Proof. intros (_ & Hhead & _) E. rewrite E in Hhead. discriminate Hhead. Qed.

Lemma shaped_append dr loop snapshot x :
  shaped dr x -> refined_in loop snapshot ->
  Z.of_nat (length (evolution_history x)) = loop + 1 ->
  shaped dr (append_snapshot snapshot x).
Proof.
  intros (Hid & Hhead & Hit & Hro & Hcur) (Hi & Hr & _) Hlen.
  unfold shaped, append_snapshot. cbn [idea_id evolution_history current_iteration].
  destruct (evolution_history x) as [| x0 h] eqn:E; [discriminate Hhead |].
  rewrite length_app, !map_app, Hit, Hro. cbn [length map].
  replace (S (length h) + 1)%nat with (S (S (length h))) by lia.
  replace (S (S (length h)) - 1)%nat with (S (length h)) by lia.
  replace (S (length h) - 1)%nat with (length h) by lia.
  split; [exact Hid |]. split; [exact Hhead |]. split; [| split].
  - rewrite (seqZ_S 0 (S (length h))). f_equal. rewrite Hi. f_equal.
    cbn [length] in Hlen. lia.
  - rewrite replicate_S_end, Hr. reflexivity.
  - rewrite Hcur. cbn [length]. lia.
Qed.

Lemma latest_critique_attach review x :
  evolution_history x <> [] -> latest_critique (attach_critique review x) = Some review.
Proof.
  unfold latest_critique, attach_critique. cbn [evolution_history].
  rewrite last_set_last_critique. intros Hne.
  destruct (last (evolution_history x)) eqn:E; [reflexivity |].
  apply last_None in E. contradiction.
Qed.

Lemma latest_critique_append snapshot x :
  latest_critique (append_snapshot snapshot x) = critique snapshot.
Proof.
  unfold latest_critique, append_snapshot. cbn [evolution_history].
  rewrite last_snoc. reflexivity.
Qed.

Lemma length_of_lookups {A : Type} (l1 l2 : list A) :
  (forall i, is_Some (l1 !! i) <-> is_Some (l2 !! i)) -> length l1 = length l2.
Proof.
  intros H.
  assert (H1 : forall i, (i < length l1)%nat <-> (i < length l2)%nat).
  { intros i. rewrite <- !lookup_lt_is_Some. apply H. }
  destruct (Nat.lt_trichotomy (length l1) (length l2)) as [Hlt | [Heq | Hlt]];
    [| exact Heq |].
  - apply H1 in Hlt. lia.
  - apply H1 in Hlt. lia.
Qed.

Lemma filter_store_ok drafts a d loop s ideas critiques s1 needs :
  inv s ideas ->
  store_ok drafts a d loop (store s) ->
  length critiques = length ideas ->
  filter_ideas loop a d (zip ideas critiques) s [] = Ret (s1, needs) ->
  filtered drafts a d loop needs (store s1).
Proof.
  intros Hinv (Hlen & Hok) Hc Hf.
  assert (Hfst : (zip ideas critiques).*1 = ideas) by (apply fst_zip; lia).
  pose proof (filter_ideas_pointwise loop a d (zip ideas critiques) s [] s1 needs Hf) as Hpw.
  rewrite Hfst in Hpw.
  specialize (Hpw (inv_nodup_active _ _ Hinv) (inv_valid _ _ Hinv)).
  split.
  - rewrite <- Hlen. apply length_of_lookups. intros i.
    destruct (Hpw i) as [(_ & -> & _) | (review & x & dec & c & _ & -> & _ & _ & -> & _)];
      [reflexivity | split; eauto].
  - intros i x1 Hx1.
    destruct (Hpw i) as [(Hout & Hsame & Hn)
                        | (review & x & dec & c & Hin & Hx & Hdec & _ & Hs1 & Hn)].
    + rewrite Hsame in Hx1. destruct (Hok i x1 Hx1) as (dr & Hdr & Hsh & Hj).
      exists dr. split; [exact Hdr |]. split; [exact Hsh |]. right.
      split; [rewrite Hn; apply not_elem_of_nil |]. split; [exact Hj |].
      intros Hact. apply Hout. apply (inv_active _ _ Hinv i x1 Hx1). exact Hact.
    + rewrite Hs1 in Hx1. injection Hx1 as <-.
      destruct (Hok i x Hx) as (dr & Hdr & Hsh & Hle & Hj).
      assert (Hi : i ∈ ideas).
      { rewrite <- Hfst. apply list_elem_of_fmap. exists (i, review). auto. }
      apply (inv_active _ _ Hinv i x Hx) in Hi.
      destruct Hj as [(_ & _ & Hlen') | [(Hst & _) | (Hst & _)]];
        [| rewrite Hi in Hst; discriminate Hst ..].
      pose proof (shaped_nonempty _ _ Hsh) as Hne.
      pose proof (set_last_critique_bare review (evolution_history x)) as (Hl & _ & _).
      exists dr. split; [exact Hdr |].
      split; [apply shaped_outcome, shaped_attach; exact Hsh |].
      destruct dec; cbn [outcome].
      * right. split.
        { rewrite Hn. intros [Hf' | Hf']; [apply elem_of_nil in Hf'; contradiction | discriminate]. }
        split; [| discriminate].
        split; [cbn [set_status attach_critique evolution_history]; rewrite Hl; exact Hle |].
        right. left. split; [reflexivity |]. exists review.
        split; [| exact Hdec]. apply (latest_critique_attach review x Hne).
      * right. split.
        { rewrite Hn. intros [Hf' | Hf']; [apply elem_of_nil in Hf'; contradiction | discriminate]. }
        split; [| discriminate].
        split; [cbn [set_status attach_critique evolution_history]; rewrite Hl; exact Hle |].
        right. right. split; [reflexivity |]. exists review.
        split; [| exact Hdec]. apply (latest_critique_attach review x Hne).
      * left. split; [rewrite Hn; right; reflexivity |]. split; [exact Hi |].
        cbn [attach_critique evolution_history]. rewrite Hl. exact Hlen'.
Qed.

Lemma filtered_done drafts a d loop st :
  filtered drafts a d loop [] st -> store_ok drafts a d loop st.
Proof.
  intros (Hlen & H). split; [exact Hlen |]. intros i x Hx.
  destruct (H i x Hx) as (dr & Hdr & Hsh & [(Hin & _) | (_ & Hj & _)]).
  - apply elem_of_nil in Hin. contradiction.
  - eauto.
Qed.

Lemma judged_later a d loop x :
  judged a d loop x -> status x <> "active" -> judged a d (loop + 1) x.
Proof.
  intros (Hle & Hj) Hst. split; [lia |].
  destruct Hj as [(Hact & _) | Hj]; [contradiction | right; exact Hj].
Qed.

Lemma refine_store_ok drafts a d loop st1 needs w1 store2 refined w2 :
  NoDup needs ->
  (forall r, r ∈ needs -> is_Some (st1 !! r)) ->
  filtered drafts a d loop needs st1 ->
  refine_ideas loop needs st1 w1 [] = Ret (store2, refined, w2) ->
  store_ok drafts a d (loop + 1) store2.
Proof.
  intros Hnd Hval (Hlen & Hok) Hr.
  pose proof (refine_ideas_pointwise loop needs st1 w1 [] store2 refined w2 Hr Hnd Hval) as Hpw.
  split.
  - rewrite <- Hlen. apply length_of_lookups. intros i.
    destruct (Hpw i) as [(_ & ->) | (_ & x & snapshot & -> & _ & ->)];
      [reflexivity | split; eauto].
  - intros i x2 Hx2.
    destruct (Hpw i) as [(Hout & Hsame) | (Hin & x & snapshot & Hx & Hsnap & Hs2)].
    + rewrite Hsame in Hx2.
      destruct (Hok i x2 Hx2) as (dr & Hdr & Hsh & [(Hin & _) | (_ & Hj & Hst)]);
        [contradiction |].
      exists dr. split; [exact Hdr |]. split; [exact Hsh |].
      apply judged_later; assumption.
    + rewrite Hs2 in Hx2. injection Hx2 as <-.
      destruct (Hok i x Hx) as (dr & Hdr & Hsh & [(_ & Hst & Hl) | (Hout & _)]);
        [| contradiction].
      exists dr. split; [exact Hdr |].
      split; [apply (shaped_append dr loop); assumption |].
      assert (Hl2 : Z.of_nat (length (evolution_history (append_snapshot snapshot x)))
                    = loop + 1 + 1).
      { cbn [append_snapshot evolution_history]. rewrite length_app. cbn [length]. lia. }
      split; [lia |]. left. split; [exact Hst |].
      split; [| exact Hl2]. rewrite latest_critique_append. apply Hsnap.
Qed.

(** The invariant of the store over the passes. *)
Lemma passes_store_ok drafts a d n : forall loop s ideas w s' ideas' w',
  passes n loop a d s ideas w = Ret (s', ideas', w') ->
  inv s ideas ->
  store_ok drafts a d loop (store s) ->
  exists loop', loop <= loop' <= loop + Z.of_nat n
                /\ store_ok drafts a d loop' (store s').
Proof.
  induction n as [| n IH]; intros loop s ideas w s' ideas' w' H Hinv Hok.
  - cbn [passes] in H. injection H as <- <- <-. exists loop. split; [lia | exact Hok].
  - destruct ideas as [| i0 rest] eqn:Hideas.
    + cbn [passes] in H. injection H as <- <- <-. exists loop. split; [lia | exact Hok].
    + rewrite <- Hideas in *.
      apply passes_step in H as (critiques & w1 & s1 & needs & Hev & Hf & Hcases);
        [| rewrite Hideas; discriminate].
      assert (Hlen : length critiques = length ideas).
      { rewrite (evaluate_length _ _ _ _ Hev). apply objects_length.
        apply (inv_valid _ _ Hinv). }
      assert (Hinv1 : inv s1 needs).
      { apply (inv_filter_ideas _ _ _ _ _ _ _ _ Hf).
        rewrite fst_zip by lia. exact Hinv. }
      pose proof (filter_store_ok drafts a d loop s ideas critiques s1 needs
                    Hinv Hok Hlen Hf) as Hfl.
      destruct Hcases as [(-> & -> & -> & ->) | (_ & store2 & refined & w2 & Hr & Hp)].
      * exists loop. split; [lia |]. apply filtered_done. exact Hfl.
      * pose proof (refine_store_ok drafts a d loop (store s1) needs w1 store2 refined w2
                      (inv_nodup_active _ _ Hinv1) (inv_valid _ _ Hinv1) Hfl Hr) as Hok2.
        apply refine_ideas_spec in Hr as (-> & Hst & _).
        destruct (IH _ _ _ _ _ _ _ Hp) as (loop' & Hb & Hok').
        -- cbn [app]. apply (inv_same_status (store s1)); [exact Hst |].
           destruct s1; exact Hinv1.
        -- exact Hok2.
        -- exists loop'. split; [lia | exact Hok'].
Qed.

Lemma finalize_lookup l : forall s i x',
  store (finalize l s) !! i = Some x' ->
  exists x, store s !! i = Some x
            /\ (x' = x
                \/ (status x = "active" /\ x' = set_status "refined_best_effort" x)).
Proof.
  induction l as [| r rest IH]; intros s i x' H.
  - exists x'. auto.
  - rewrite finalize_cons in H. destruct (store s !! r) as [idea |] eqn:Hr; [| eauto].
    destruct (String.eqb (status idea) "active") eqn:Hact; [| eauto].
    apply String.eqb_eq in Hact.
    apply IH in H as (x & Hx & Hx'). cbn [store] in Hx.
    destruct (decide (i = r)) as [-> | Hne].
    + rewrite list_lookup_alter_eq, Hr in Hx. injection Hx as <-.
      exists idea. split; [exact Hr |]. right. split; [exact Hact |].
      destruct Hx' as [-> | (Hst & _)]; [reflexivity | discriminate Hst].
    + rewrite list_lookup_alter_ne in Hx by congruence. eauto.
Qed.

Lemma finalize_length l : forall s, length (store (finalize l s)) = length (store s).
Proof.
  induction l as [| r rest IH]; intros s; [reflexivity |].
  rewrite finalize_cons. destruct (store s !! r) as [idea |]; [| apply IH].
  destruct (String.eqb (status idea) "active"); [| apply IH].
  rewrite IH. cbn [store]. apply length_alter.
Qed.

Lemma research_loop_thresholds loaded drafts max_loops w r :
  research_loop loaded drafts max_loops w = Ret r ->
  exists config a d s ideas' w',
    ModelManager.init loaded = Ret config
    /\ read_thresholds config = Ret (a, d)
    /\ passes (Z.to_nat max_loops) 0 a d
         {| store := map (fun d => new_idea (fst d) (snd d)) drafts;
            accepted_ideas := []; printed := [] |}
         (seq 0 (length (map (fun d => new_idea (fst d) (snd d)) drafts))) w
       = Ret (s, ideas', w')
    /\ final r = finalize ideas' s
    /\ saved r = objects (store (final r)) (accepted_ideas (final r)).
Proof.
  unfold research_loop. intros H.
  apply bind_Ret_inv in H as (config & Hc & H).
  apply bind_Ret_inv in H as ([a d] & Ht & H).
  apply bind_Ret_inv in H as (? & _ & H).
  apply bind_Ret_inv in H as (? & _ & H).
  apply bind_Ret_inv in H as (? & _ & H).
  apply bind_Ret_inv in H as (? & _ & H).
  apply bind_Ret_inv in H as ([[s ideas'] w'] & Hp & H).
  injection H as <-. exists config, a, d, s, ideas', w'. auto.
Qed.

Lemma store_ok_initial drafts a d :
  store_ok drafts a d 0 (map (fun d => new_idea (fst d) (snd d)) drafts).
Proof.
  split; [apply length_map |]. intros i x Hx.
  rewrite list_lookup_fmap in Hx. destruct (drafts !! i) as [dr |]; [| discriminate Hx].
  injection Hx as <-. exists dr. split; [reflexivity |]. split.
  - repeat split; reflexivity.
  - split; [cbn; lia |]. left. repeat split; reflexivity.
Qed.

(** The store at the end of a run. *)
Lemma research_loop_store loaded drafts max_loops w r :
  research_loop loaded drafts max_loops w = Ret r ->
  exists config a d,
    ModelManager.init loaded = Ret config
    /\ read_thresholds config = Ret (a, d)
    /\ length (store (final r)) = length drafts
    /\ forall i x, store (final r) !! i = Some x ->
         exists dr, drafts !! i = Some dr /\ shaped dr x /\ settled a d x
           /\ Z.of_nat (length (evolution_history x)) <= Z.max 0 max_loops + 1.
Proof.
  intros H. pose proof (research_loop_final_inv _ _ _ _ _ H) as Hfin.
  apply research_loop_thresholds in H
    as (config & a & d & s & ideas' & w' & Hc & Ht & Hp & Hf & _).
  exists config, a, d. split; [exact Hc |]. split; [exact Ht |].
  destruct (passes_store_ok drafts a d _ _ _ _ _ _ _ _ Hp (inv_initial drafts)
              (store_ok_initial drafts a d)) as (loop' & Hb & Hlen & Hok).
  rewrite Hf in *. split; [rewrite finalize_length; exact Hlen |].
  intros i x' Hx'.
  pose proof (proj1 (inv_active _ _ Hfin i x' Hx')) as Hna.
  apply finalize_lookup in Hx' as (x & Hx & Hcase).
  destruct (Hok i x Hx) as (dr & Hdr & Hsh & Hle & Hj).
  exists dr. split; [exact Hdr |].
  destruct Hcase as [-> | (Hact & ->)].
  - split; [exact Hsh |]. split; [| lia].
    destruct Hj as [(Hact & _) | Hj]; [| right; exact Hj].
    apply Hna in Hact. apply elem_of_nil in Hact. contradiction.
  - split; [apply shaped_set_status; exact Hsh |].
    split; [| cbn [set_status evolution_history]; lia].
    destruct Hj as [(_ & Hlc & _) | [(Hst & _) | (Hst & _)]];
      [| rewrite Hact in Hst; discriminate Hst ..].
    left. split; [reflexivity | exact Hlc].
Qed.

Lemma objects_elem_of (st : list IdeaObject) (refs : list nat) (x : IdeaObject) :
  x ∈ objects st refs -> x ∈ st.
Proof.
  unfold objects. intros H. apply list_elem_of_omap in H as (i & _ & Hi).
  apply (list_elem_of_lookup_2 _ _ _ Hi).
Qed.

Lemma objects_seq_app (pre st : list IdeaObject) :
  objects (pre ++ st) (seq (length pre) (length st)) = st.
Proof.
  revert pre. induction st as [| x t IH]; intros pre; [reflexivity |].
  cbn [length seq]. unfold objects. cbn [omap list_omap].
  rewrite list_lookup_middle by reflexivity. f_equal.
  specialize (IH (pre ++ [x])). rewrite <- app_assoc in IH. cbn [app] in IH.
  rewrite length_app in IH. cbn [length] in IH.
  replace (length pre + 1)%nat with (S (length pre)) in IH by lia. exact IH.
Qed.

Lemma objects_seq (st : list IdeaObject) : objects st (seq 0 (length st)) = st.
Proof. exact (objects_seq_app [] st). Qed.

Lemma finalize_all_active l : forall s,
  NoDup l ->
  (forall i, i ∈ l -> exists x, store s !! i = Some x /\ status x = "active") ->
  accepted_ideas (finalize l s) = accepted_ideas s ++ l
  /\ printed (finalize l s) = printed s
  /\ forall i, store (finalize l s) !! i
               = (if decide (i ∈ l) then set_status "refined_best_effort" else id)
                   <$> store s !! i.
Proof.
  induction l as [| r rest IH]; intros s Hnd Hact.
  - cbn [finalize]. rewrite app_nil_r. split; [reflexivity |]. split; [reflexivity |].
    intros i. destruct (decide (i ∈ [])) as [Hi | _].
    + apply elem_of_nil in Hi. contradiction.
    + destruct (store s !! i); reflexivity.
  - apply NoDup_cons in Hnd as [Hr Hnd].
    destruct (Hact r (list_elem_of_here _ _)) as (x & Hx & Hst).
    rewrite finalize_cons, Hx, Hst. cbn [String.eqb Ascii.eqb Bool.eqb].
    match goal with |- context [finalize rest ?s0] => set (s' := s0) end.
    destruct (IH s' Hnd) as (Hacc & Hpr & Hlook).
    { intros i Hi. subst s'. cbn [store].
      rewrite list_lookup_alter_ne by (intros ->; contradiction).
      apply Hact. apply list_elem_of_further. exact Hi. }
    rewrite Hacc, Hpr. subst s'. cbn [accepted_ideas printed store] in *.
    split; [rewrite <- app_assoc; reflexivity |]. split; [reflexivity |].
    intros i. rewrite Hlook. destruct (decide (i = r)) as [-> | Hne].
    + rewrite list_lookup_alter_eq, Hx.
      destruct (decide (r ∈ rest)); [contradiction |].
      destruct (decide (r ∈ r :: rest)) as [_ | Hn]; [reflexivity |].
      exfalso. apply Hn. apply list_elem_of_here.
    + rewrite list_lookup_alter_ne by congruence.
      destruct (decide (i ∈ rest)) as [Hi | Hi];
        destruct (decide (i ∈ r :: rest)) as [Hi' | Hi']; try reflexivity.
      * exfalso. apply Hi'. apply list_elem_of_further. exact Hi.
      * exfalso. apply elem_of_cons in Hi' as [Hi' | Hi']; contradiction.
Qed.

Lemma passes_no_ideas n loop a d s w : passes n loop a d s [] w = Ret (s, [], w).
Proof. destruct n; reflexivity. Qed.

(** X10: at the end of a run the status of every idea agrees with its last
    snapshot and the thresholds read from the configuration: an accepted
    idea carries the critique whose average classified it "accept", a
    rejected one the critique whose average classified it "drop", and the
    last snapshot of a best-effort idea has not been critiqued. No idea is
    left active. The same holds of the saved ideas. *)
Theorem final_status_follows_the_last_critique loaded drafts max_loops w r :
  research_loop loaded drafts max_loops w = Ret r ->
  exists config a d,
    ModelManager.init loaded = Ret config
    /\ read_thresholds config = Ret (a, d)
    /\ (forall idea, idea ∈ store (final r) -> settled a d idea)
    /\ (forall idea, idea ∈ saved r -> settled a d idea).
Proof.
  intros H.
  assert (Hs : saved r = objects (store (final r)) (accepted_ideas (final r))).
  { apply research_loop_inv in H as (? & ? & ? & ? & ? & _ & _ & Hs). exact Hs. }
  apply research_loop_store in H as (config & a & d & Hc & Ht & _ & Hst).
  exists config, a, d. split; [exact Hc |]. split; [exact Ht |].
  assert (Hall : forall idea, idea ∈ store (final r) -> settled a d idea).
  { intros idea Hin. apply list_elem_of_lookup_1 in Hin as (i & Hi).
    destruct (Hst i idea Hi) as (_ & _ & _ & Hset & _). exact Hset. }
  split; [exact Hall |]. intros idea Hin. apply Hall. rewrite Hs in Hin.
  apply (objects_elem_of _ _ _ Hin).
Qed.

(** X11: a run keeps one idea for each draft, in the order of the drafts.
    At the end the identifier of an idea is the one it was made with, its
    first snapshot still holds the draft, its snapshots are numbered 0, 1,
    2, ... without a gap, the first has the role "draft" and every other
    the role "refined", [current_iteration] is the number of the last
    snapshot, and there are at most [max_loops + 1] snapshots. *)
Theorem histories_are_numbered_from_the_draft loaded drafts max_loops w r :
  research_loop loaded drafts max_loops w = Ret r ->
  length (store (final r)) = length drafts
  /\ forall i idea, store (final r) !! i = Some idea ->
       exists dr, drafts !! i = Some dr
         /\ shaped dr idea
         /\ Z.of_nat (length (evolution_history idea)) <= Z.max 0 max_loops + 1.
Proof.
  intros H. apply research_loop_store in H as (config & a & d & _ & _ & Hlen & Hst).
  split; [exact Hlen |]. intros i idea Hi.
  destruct (Hst i idea Hi) as (dr & Hdr & Hsh & _ & Hle). eauto.
Qed.

(** X12: with [max_loops] zero or negative no pass is made: every draft is
    saved, in order, as a best-effort idea with the draft as its only
    snapshot, and nothing is judged. *)
Theorem no_pass_saves_every_draft loaded drafts max_loops w r :
  max_loops <= 0 ->
  research_loop loaded drafts max_loops w = Ret r ->
  saved r = map (fun d => set_status "refined_best_effort" (new_idea (fst d) (snd d))) drafts
  /\ store (final r) = saved r
  /\ printed (final r) = [].
Proof.
  intros Hm H. apply research_loop_inv in H as (a & d & s & ideas' & w' & Hp & Hf & Hs).
  replace (Z.to_nat max_loops) with 0%nat in Hp by lia.
  cbn [passes] in Hp. injection Hp as <- <- <-.
  set (init := map (fun d => new_idea (fst d) (snd d)) drafts) in *.
  destruct (finalize_all_active (seq 0 (length init))
              {| store := init; accepted_ideas := []; printed := [] |})
    as (Hacc & Hpr & Hlook).
  { apply NoDup_seq. }
  { intros i Hi. apply elem_of_seq in Hi. cbn [store].
    destruct (lookup_lt_is_Some_2 init i) as [x Hx]; [lia |].
    exists x. split; [exact Hx |]. subst init.
    rewrite list_lookup_fmap in Hx. destruct (drafts !! i); [| discriminate Hx].
    injection Hx as <-. reflexivity. }
  rewrite <- Hf in Hacc, Hpr, Hlook. cbn [store accepted_ideas printed app] in *.
  assert (Hst : store (final r) = map (set_status "refined_best_effort") init).
  { apply list_eq. intros i. rewrite Hlook, list_lookup_fmap.
    destruct (init !! i) as [x |] eqn:Hx; [| reflexivity].
    destruct (decide (i ∈ seq 0 (length init))) as [_ | Hn]; [reflexivity |].
    exfalso. apply Hn. apply elem_of_seq. apply lookup_lt_Some in Hx. lia. }
  assert (Hsv : saved r = store (final r)).
  { rewrite Hs, Hacc. rewrite <- (objects_seq (store (final r))) at 2.
    rewrite Hst, length_map. reflexivity. }
  split; [| split; [symmetry; exact Hsv | exact Hpr]].
  rewrite Hsv, Hst. subst init. rewrite map_map. reflexivity.
Qed.

(** X13: when there is no draft the loop stops at once, whatever the
    number of passes and the backend: nothing is judged and the saved array
    is empty. *)
Theorem no_draft_saves_nothing loaded max_loops w r :
  research_loop loaded [] max_loops w = Ret r ->
  saved r = [] /\ store (final r) = [] /\ printed (final r) = [].
Proof.
  intros H. apply research_loop_inv in H as (a & d & s & ideas' & w' & Hp & Hf & Hs).
  cbn [map length seq] in Hp. rewrite passes_no_ideas in Hp. injection Hp as <- <- <-.
  cbn [finalize] in Hf. rewrite Hs, Hf. repeat split; reflexivity.
Qed.

Lemma final_status_follows_the_last_critique_witness :
  match three_ideas with
  | Ret r =>
      exists config a d,
        ModelManager.init (Ret config_without_thresholds) = Ret config
        /\ read_thresholds config = Ret (a, d)
        /\ (forall idea, idea ∈ store (final r) -> settled a d idea)
        /\ (forall idea, idea ∈ saved r -> settled a d idea)
  | Raise _ => False
  end.
Proof.
  destruct three_ideas as [r | e] eqn:Hr.
  - apply (final_status_follows_the_last_critique _ _ _ _ r Hr).
  - vm_compute in Hr. discriminate Hr.
Defined.

Lemma histories_are_numbered_from_the_draft_witness :
  match three_ideas with
  | Ret r =>
      length (store (final r)) = 3%nat
      /\ map (fun idea => map iteration (evolution_history idea)) (store (final r))
         = [[0; 1; 2]; [0]; [0]]
  | Raise _ => False
  end.
Proof.
  destruct three_ideas as [r | e] eqn:Hr.
  - destruct (histories_are_numbered_from_the_draft _ _ _ _ r Hr) as (Hlen & _).
    split; [exact Hlen |]. vm_compute in Hr. injection Hr as <-. reflexivity.
  - vm_compute in Hr. discriminate Hr.
Defined.

Lemma no_pass_saves_every_draft_witness :
  match no_pass with
  | Ret r =>
      map status (saved r) = ["refined_best_effort"]
      /\ store (final r) = saved r
      /\ printed (final r) = []
  | Raise _ => False
  end.
Proof.
  destruct no_pass as [r | e] eqn:Hr.
  - assert (Hm : 0 <= 0) by lia.
    destruct (no_pass_saves_every_draft _ _ 0 _ r Hm Hr) as (Hs & Hst & Hp).
    split; [rewrite Hs; reflexivity |]. split; [exact Hst | exact Hp].
  - vm_compute in Hr. discriminate Hr.
Defined.

Lemma no_draft_saves_nothing_witness :
  match no_draft with
  | Ret r => saved r = [] /\ store (final r) = [] /\ printed (final r) = []
  | Raise _ => False
  end.
Proof.
  destruct no_draft as [r | e] eqn:Hr.
  - apply (no_draft_saves_nothing _ _ _ r Hr).
  - vm_compute in Hr. discriminate Hr.
Defined.

(* ===================================================================== *)
(** * Escaping, configuration, thresholds and bracket slicing *)
(* ===================================================================== *)

Lemma append_cons (c : ascii) (a b : string) : String c a +:+ b = String c (a +:+ b).
Proof. reflexivity. Qed.

Lemma append_nil (b : string) : EmptyString +:+ b = b.
Proof. reflexivity. Qed.

Lemma append_assoc (a b c : string) : (a +:+ b) +:+ c = a +:+ (b +:+ c).
Proof.
  induction a as [| x a IH]; [reflexivity |].
  rewrite !append_cons, IH. reflexivity.
Qed.

Lemma escape_html_cons (c : ascii) (text : string) :
  Html.escape_html (String c text) = entity c +:+ Html.escape_html text.
Proof.
  destruct c as [[] [] [] [] [] [] [] []]; reflexivity.
Qed.

Lemma escape_html_entities (text : string) : Html.escape_html text = entities text.
Proof.
  induction text as [| c text IH]; [reflexivity |].
  rewrite escape_html_cons, IH. reflexivity.
Qed.

Lemma entity_cases (c : ascii) :
  (c = Html.amp /\ entity c = "&amp;")
  \/ (c = Html.lt /\ entity c = "&lt;")
  \/ (c = Html.gt /\ entity c = "&gt;")
  \/ (c = Html.quot /\ entity c = "&quot;")
  \/ (c <> Html.amp /\ c <> Html.lt /\ c <> Html.gt /\ c <> Html.quot
      /\ entity c = String c EmptyString).
Proof.
  unfold entity, Str.eqb_char.
  destruct (Ascii.eqb_spec c Html.amp) as [-> | H1]; [left; auto |].
  destruct (Ascii.eqb_spec c Html.lt) as [-> | H2]; [right; left; auto |].
  destruct (Ascii.eqb_spec c Html.gt) as [-> | H3]; [right; right; left; auto |].
  destruct (Ascii.eqb_spec c Html.quot) as [-> | H4]; [right; right; right; left; auto |].
  right; right; right; right. auto.
Qed.

(** X14: the four replacements of [escape_html], made one after the other,
    come to one substitution made at once: each of the characters [&], [<],
    [>] and the double quote is replaced by its entity, and the text an
    earlier replacement wrote is not touched by a later one. So the result
    is the concatenation of the results on the parts of the text. *)
Theorem escape_html_is_one_substitution (text text' : string) :
  Html.escape_html text = entities text
  /\ Html.escape_html (text +:+ text') = Html.escape_html text +:+ Html.escape_html text'.
Proof.
  split; [apply escape_html_entities |].
  rewrite !escape_html_entities.
  induction text as [| c text IH]; [reflexivity |].
  rewrite append_cons. cbn [entities]. rewrite IH, append_assoc. reflexivity.
Qed.

(** X15: the text [escape_html] returns holds no [<], no [>] and no double
    quote. *)
Theorem escape_html_leaves_no_markup (text : string) :
  Str.mem Html.lt (Html.escape_html text) = false
  /\ Str.mem Html.gt (Html.escape_html text) = false
  /\ Str.mem Html.quot (Html.escape_html text) = false.
Proof.
  rewrite escape_html_entities.
  induction text as [| c text (IH1 & IH2 & IH3)]; [repeat split; reflexivity |].
  cbn [entities].
  destruct (entity_cases c) as [(_ & ->) | [(_ & ->) | [(_ & ->) | [(_ & ->) | (_ & H2 & H3 & H4 & ->)]]]];
    rewrite ?append_cons, ?append_nil; cbn [Str.mem]; rewrite ?IH1, ?IH2, ?IH3;
    try (repeat split; reflexivity).
  unfold Str.eqb_char.
  apply Ascii.eqb_neq in H2, H3, H4. rewrite H2, H3, H4. repeat split; reflexivity.
Qed.

(** X16: [escape_html] loses nothing: two texts with the same escaped text
    are the same text. *)
Theorem escape_html_is_injective (text text' : string) :
  Html.escape_html text = Html.escape_html text' -> text = text'.
Proof.
  rewrite !escape_html_entities. revert text'.
  induction text as [| c text IH]; intros [| c' text'] H.
  - reflexivity.
  - cbn [entities] in H.
    destruct (entity_cases c') as [(_ & E) | [(_ & E) | [(_ & E) | [(_ & E) | (_ & _ & _ & _ & E)]]]];
      rewrite E in H; discriminate H.
  - cbn [entities] in H.
    destruct (entity_cases c) as [(_ & E) | [(_ & E) | [(_ & E) | [(_ & E) | (_ & _ & _ & _ & E)]]]];
      rewrite E in H; discriminate H.
  - cbn [entities] in H.
    destruct (entity_cases c) as [(-> & E) | [(-> & E) | [(-> & E) | [(-> & E) | (N1 & N2 & N3 & N4 & E)]]]];
      destruct (entity_cases c') as [(-> & E') | [(-> & E') | [(-> & E') | [(-> & E') | (N1' & N2' & N3' & N4' & E')]]]];
      rewrite ?E, ?E' in H; rewrite ?append_cons, ?append_nil in H;
      try discriminate H;
      try (injection H as H; f_equal; apply IH; exact H);
      try (injection H as Hc H; subst; exfalso;
           match goal with N : _ <> _ |- _ => exact (N eq_refl) end).
    injection H as -> H. f_equal. apply IH. exact H.
Qed.

Lemma escape_html_is_injective_witness :
  Html.escape_html "a<b" = Html.escape_html "a<b" /\ "a<b" = "a<b".
Proof.
  split; [reflexivity |]. apply (escape_html_is_injective "a<b" "a<b"). reflexivity.
Defined.

(** X17: a configuration file that cannot be read does not stop the run
    where it is read: the empty configuration takes its place, and the run
    ends with [ValueError] when the generator is built, before any idea is
    made. *)
Theorem unreadable_config_stops_at_the_generator
        (e : exn) (drafts : list (string * IdeaContent)) (max_loops : Z) (w : llm) :
  research_loop (Raise e) drafts max_loops w = Raise ValueError.
Proof. reflexivity. Qed.

Lemma generator_init_settings (config : Dict.t) :
  GeneratorAgent_init (PDict config) = Ret tt ->
  exists openalex,
    Dict.get "openalex" (PDict []) config = PDict openalex
    /\ Dict.contains "fetch_limit" openalex = true
    /\ Dict.contains "top_k_papers" openalex = true.
Proof.
  unfold GeneratorAgent_init. intros H.
  apply bind_Ret_inv in H as (? & _ & H).
  apply bind_Ret_inv in H as (oc & Hoc & H).
  cbn [py_get] in Hoc. injection Hoc as <-.
  apply bind_Ret_inv in H as (has_limit & Hl & H).
  destruct has_limit; [| discriminate H]. cbn [negb] in H.
  apply bind_Ret_inv in H as (has_top & Ht & H).
  destruct has_top; [| discriminate H]. cbn [negb] in H.
  apply bind_Ret_inv in H as (? & Hg & _).
  destruct (Dict.get "openalex" (PDict []) config) as [| | | | | | openalex];
    try discriminate Hg.
  exists openalex. cbn [py_contains] in Hl, Ht.
  injection Hl as Hl. injection Ht as Ht. auto.
Qed.

(** X18: a run that returns has read a configuration that is a mapping and
    whose [openalex] section holds both [fetch_limit] and [top_k_papers]. *)
Theorem run_needs_the_openalex_settings loaded drafts max_loops w r :
  research_loop loaded drafts max_loops w = Ret r ->
  exists config openalex,
    loaded = Ret (PDict config)
    /\ Dict.get "openalex" (PDict []) config = PDict openalex
    /\ Dict.contains "fetch_limit" openalex = true
    /\ Dict.contains "top_k_papers" openalex = true.
Proof.
  unfold research_loop. intros H.
  apply bind_Ret_inv in H as (config & Hc & H).
  apply bind_Ret_inv in H as ([a d] & _ & H).
  apply bind_Ret_inv in H as (? & _ & H).
  apply bind_Ret_inv in H as ([] & Hg & _).
  destruct loaded as [v | e].
  - unfold ModelManager.init, ModelManager._load_config in Hc. cbn [try_except] in Hc.
    rewrite bind_Ret_l in Hc.
    apply bind_Ret_inv in Hc as (ollama & Ho & Hc).
    apply bind_Ret_inv in Hc as (? & _ & Hc). injection Hc as <-.
    destruct v as [| | | | | | c]; try discriminate Ho.
    destruct (generator_init_settings c Hg) as (openalex & H1 & H2 & H3).
    exists c, openalex. auto.
  - cbv in Hc. injection Hc as <-. cbv in Hg. discriminate Hg.
Qed.

(** X19: the thresholds have to be numbers. With an accept threshold that
    is not a number the classification raises [TypeError]; with two numbers
    it returns a class; with a drop threshold that is not a number it
    accepts or raises [TypeError], as the average is or is not below the
    accept threshold. *)
Theorem classify_needs_number_thresholds (average : spec_float) (a d : pyval) :
  if negb (number a) then classify average a d = Raise TypeError
  else if number d then exists dec, classify average a d = Ret dec
  else classify average a d = Ret Accept \/ classify average a d = Raise TypeError.
Proof.
  unfold classify, py_ge, py_lt, compare_with.
  destruct a, d; cbn [bind number negb];
    repeat match goal with
           | |- context [if ?b then _ else _] => destruct b; cbn [bind number]
           end;
    eauto.
Qed.

Lemma length_append (a b : string) :
  String.length (a +:+ b) = (String.length a + String.length b)%nat.
Proof.
  induction a as [| c a IH]; [reflexivity |].
  rewrite append_cons. cbn [String.length]. rewrite IH. reflexivity.
Qed.

Lemma mem_append (c : ascii) (a b : string) :
  Str.mem c (a +:+ b) = Str.mem c a || Str.mem c b.
Proof.
  induction a as [| x a IH]; [reflexivity |].
  rewrite append_cons. cbn [Str.mem]. rewrite IH, orb_assoc. reflexivity.
Qed.

Lemma startswith_char (c : ascii) (s : string) :
  Str.startswith (String c EmptyString) s
  = match s with String b _ => Ascii.eqb c b | EmptyString => false end.
Proof.
  destruct s as [| b s]; [reflexivity |].
  cbn [Str.startswith]. unfold Str.eqb_char. destruct s; apply andb_true_r.
Qed.

(** [text.find(c)] for one character: the index of the first [c]. *)
Lemma find_char_spec (c : ascii) (s : string) :
  (Str.find (String c EmptyString) s = -1 /\ Str.mem c s = false)
  \/ exists pre post,
       s = pre +:+ String c post
       /\ Str.find (String c EmptyString) s = Z.of_nat (String.length pre)
       /\ Str.mem c pre = false.
Proof.
  induction s as [| b s IH].
  - left. split; reflexivity.
  - change (Str.find (String c EmptyString) (String b s))
      with (if Str.startswith (String c EmptyString) (String b s) then 0
            else let i := Str.find (String c EmptyString) s in
                 if i =? -1 then -1 else i + 1).
    rewrite startswith_char. cbn [Str.mem]. unfold Str.eqb_char.
    destruct (Ascii.eqb_spec c b) as [<- | Hne].
    + right. exists EmptyString, s. repeat split; reflexivity.
    + assert (Hbc : Ascii.eqb b c = false) by (apply Ascii.eqb_neq; congruence).
      rewrite Hbc. cbn [orb].
      destruct IH as [(Hf & Hm) | (pre & post & Hs & Hf & Hm)].
      * left. rewrite Hf. cbn. auto.
      * right. exists (String b pre), post. rewrite Hf.
        split; [rewrite append_cons, <- Hs; reflexivity |]. split.
        -- cbn zeta. destruct (Z.eqb_spec (Z.of_nat (String.length pre)) (-1)); [lia |].
           cbn [String.length]. lia.
        -- cbn [Str.mem]. unfold Str.eqb_char. rewrite Hbc, Hm. reflexivity.
Qed.

(** [text.rfind(c)] for one character: the index of the last [c]. *)
Lemma rfind_char_spec (c : ascii) (s : string) :
  (Str.rfind (String c EmptyString) s = -1 /\ Str.mem c s = false)
  \/ exists pre post,
       s = pre +:+ String c post
       /\ Str.rfind (String c EmptyString) s = Z.of_nat (String.length pre)
       /\ Str.mem c post = false.
Proof.
  induction s as [| b s IH].
  - left. split; reflexivity.
  - change (Str.rfind (String c EmptyString) (String b s))
      with (let i := Str.rfind (String c EmptyString) s in
            if i =? -1
            then (if Str.startswith (String c EmptyString) (String b s) then 0 else -1)
            else i + 1).
    rewrite startswith_char. cbn [Str.mem]. unfold Str.eqb_char. cbn zeta.
    destruct IH as [(Hf & Hm) | (pre & post & Hs & Hf & Hm)].
    + rewrite Hf. change (-1 =? -1) with true. cbn iota.
      destruct (Ascii.eqb_spec c b) as [<- | Hne].
      * right. exists EmptyString, s. repeat split; [reflexivity .. | exact Hm].
      * left. split; [reflexivity |].
        assert (Hbc : Ascii.eqb b c = false) by (apply Ascii.eqb_neq; congruence).
        rewrite Hbc, Hm. reflexivity.
    + right. exists (String b pre), post. rewrite Hf.
      split; [rewrite append_cons, <- Hs; reflexivity |]. split; [| exact Hm].
      destruct (Z.eqb_spec (Z.of_nat (String.length pre)) (-1)); [lia |].
      cbn [String.length]. lia.
Qed.

Lemma append_prefix (a : string) : forall x b y,
  a +:+ x = b +:+ y -> (String.length a <= String.length b)%nat ->
  exists m, b = a +:+ m /\ x = m +:+ y.
Proof.
  induction a as [| c a IH]; intros x b y H Hl.
  - exists b. split; [reflexivity | exact H].
  - destruct b as [| c' b]; [cbn [String.length] in Hl; lia |].
    rewrite !append_cons in H. injection H as -> H.
    cbn [String.length] in Hl.
    destruct (IH x b y H) as (m & -> & ->); [lia |].
    exists m. split; reflexivity.
Qed.

Lemma drop_append (a b : string) : Str.drop (String.length a) (a +:+ b) = b.
Proof.
  induction a as [| c a IH]; [destruct b; reflexivity |].
  rewrite append_cons. cbn [String.length Str.drop]. exact IH.
Qed.

Lemma take_append (a b : string) : Str.take (String.length a) (a +:+ b) = a.
Proof.
  induction a as [| c a IH]; [destruct b; reflexivity |].
  rewrite append_cons. cbn [String.length Str.take]. rewrite IH. reflexivity.
Qed.

(** The slice from an opening character to the last closing one. *)
Lemma slice_to_last (opening closing : ascii) (text pre post : string) :
  text = pre +:+ String opening post ->
  negb (Str.rfind (String closing EmptyString) text =? -1)
  && (Z.of_nat (String.length pre) <? Str.rfind (String closing EmptyString) text) = true ->
  exists inner after,
    Str.slice (Z.of_nat (String.length pre))
              (Str.rfind (String closing EmptyString) text + 1) text
    = String opening (inner +:+ String closing EmptyString)
    /\ text = pre +:+ String opening (inner +:+ String closing EmptyString) +:+ after
    /\ Str.mem closing after = false.
Proof.
  intros Ht Hc. apply andb_true_iff in Hc as [Hne Hlt].
  apply negb_true_iff, Z.eqb_neq in Hne. apply Z.ltb_lt in Hlt.
  destruct (rfind_char_spec closing text) as [(Hf & _) | (pre2 & post2 & Ht2 & Hf & Hm)];
    [contradiction |].
  rewrite Hf in *.
  destruct (append_prefix pre (String opening post) pre2 (String closing post2))
    as (m & Hpre2 & Hpost); [rewrite <- Ht; exact Ht2 | lia |].
  destruct m as [| o inner].
  { rewrite Hpre2, length_append in Hlt. cbn [String.length] in Hlt. lia. }
  rewrite append_cons in Hpost. injection Hpost as <- Hpost.
  exists inner, post2. split; [| split; [| exact Hm]].
  - unfold Str.slice. rewrite Nat2Z.id, Ht, drop_append.
    rewrite Hpre2, length_append. cbn [String.length].
    replace (Z.to_nat (Z.of_nat (String.length pre + S (String.length inner)) + 1
                       - Z.of_nat (String.length pre)))
      with (S (String.length (inner +:+ String closing EmptyString)))
      by (rewrite length_append; cbn [String.length]; lia).
    cbn [Str.take]. f_equal. rewrite Hpost.
    replace (inner +:+ String closing post2)
      with ((inner +:+ String closing EmptyString) +:+ post2)
      by (rewrite append_assoc; reflexivity).
    apply take_append.
  - rewrite Ht, Hpost. f_equal. rewrite !append_cons. f_equal.
    rewrite append_assoc. reflexivity.
Qed.

Lemma mem_before (c : ascii) (text pre x : string) :
  text = pre +:+ x ->
  Str.find (String c EmptyString) text = -1
  \/ Z.of_nat (String.length pre) <= Str.find (String c EmptyString) text ->
  Str.mem c pre = false.
Proof.
  intros Ht H.
  destruct (find_char_spec c text) as [(_ & Hm) | (pre' & post' & Ht' & Hf & Hm)].
  - rewrite Ht, mem_append in Hm. apply orb_false_iff in Hm as [Hm _]. exact Hm.
  - rewrite Hf in H. destruct H as [H | H]; [lia |].
    destruct (append_prefix pre x pre' (String c post')) as (m & -> & _);
      [rewrite <- Ht; exact Ht' | lia |].
    rewrite mem_append in Hm. apply orb_false_iff in Hm as [Hm _]. exact Hm.
Qed.

(** X20: what step 2 of [extract_json] hands to the decoder runs from the
    first opening bracket of the text to the last closing bracket of the
    same kind: no [[] and no [{] comes before it, and no closing bracket of
    its kind after it. *)
Theorem bracket_slice_shape (text json_str : string) :
  bracket_slice text = Some json_str ->
  exists before inner after opening closing,
    text = before +:+ json_str +:+ after
    /\ json_str = String opening (inner +:+ String closing EmptyString)
    /\ ((opening = "["%char /\ closing = "]"%char)
        \/ (opening = "{"%char /\ closing = "}"%char))
    /\ Str.mem "["%char before = false
    /\ Str.mem "{"%char before = false
    /\ Str.mem closing after = false.
Proof.
  unfold bracket_slice.
  assert (Hm1 : (-1 =? -1) = true) by reflexivity.
  destruct (find_char_spec "[" text) as [(Hl & Hlm) | (prel & postl & Htl & Hl & Hlm)];
    destruct (find_char_spec "{" text) as [(Hd & Hdm) | (pred & postd & Htd & Hd & Hdm)];
    rewrite Hl, Hd.
  - cbn. intros H. discriminate H.
  - assert (E : (Z.of_nat (String.length pred) =? -1) = false) by (apply Z.eqb_neq; lia).
    repeat first [rewrite Hm1 | rewrite E | progress cbn [negb andb orb]
                 | progress cbv beta iota zeta].
    destruct (negb (Str.rfind "}" text =? -1)
              && (Z.of_nat (String.length pred) <? Str.rfind "}" text)) eqn:Hc;
      [| intros H; discriminate H].
    intros H. injection H as <-.
    destruct (slice_to_last "{" "}" text pred postd Htd Hc) as (inner & after & -> & Ht & Hm).
    exists pred, inner, after, "{"%char, "}"%char.
    split; [exact Ht |]. split; [reflexivity |]. split; [right; auto |].
    split; [| split; [exact Hdm | exact Hm]].
    apply (mem_before "[" text pred (String "{" postd) Htd). left. exact Hl.
  - assert (E : (Z.of_nat (String.length prel) =? -1) = false) by (apply Z.eqb_neq; lia).
    repeat first [rewrite Hm1 | rewrite E | progress cbn [negb andb orb]
                 | progress cbv beta iota zeta].
    destruct (negb (Str.rfind "]" text =? -1)
              && (Z.of_nat (String.length prel) <? Str.rfind "]" text)) eqn:Hc;
      [| intros H; discriminate H].
    intros H. injection H as <-.
    destruct (slice_to_last "[" "]" text prel postl Htl Hc) as (inner & after & -> & Ht & Hm).
    exists prel, inner, after, "["%char, "]"%char.
    split; [exact Ht |]. split; [reflexivity |]. split; [left; auto |].
    split; [exact Hlm |]. split; [| exact Hm].
    apply (mem_before "{" text prel (String "[" postl) Htl). left. exact Hd.
  - assert (El : (Z.of_nat (String.length prel) =? -1) = false) by (apply Z.eqb_neq; lia).
    assert (Ed : (Z.of_nat (String.length pred) =? -1) = false) by (apply Z.eqb_neq; lia).
    destruct (Z.ltb_spec (Z.of_nat (String.length prel)) (Z.of_nat (String.length pred)))
      as [Hlt | Hge];
      repeat first [rewrite El | rewrite Ed | progress cbn [negb andb orb]
                   | progress cbv beta iota zeta].
    + destruct (negb (Str.rfind "]" text =? -1)
                && (Z.of_nat (String.length prel) <? Str.rfind "]" text)) eqn:Hc;
        [| intros H; discriminate H].
      intros H. injection H as <-.
      destruct (slice_to_last "[" "]" text prel postl Htl Hc) as (inner & after & -> & Ht & Hm).
      exists prel, inner, after, "["%char, "]"%char.
      split; [exact Ht |]. split; [reflexivity |]. split; [left; auto |].
      split; [exact Hlm |]. split; [| exact Hm].
      apply (mem_before "{" text prel (String "[" postl) Htl). right. rewrite Hd. lia.
    + destruct (negb (Str.rfind "}" text =? -1)
                && (Z.of_nat (String.length pred) <? Str.rfind "}" text)) eqn:Hc;
        [| intros H; discriminate H].
      intros H. injection H as <-.
      destruct (slice_to_last "{" "}" text pred postd Htd Hc) as (inner & after & -> & Ht & Hm).
      exists pred, inner, after, "{"%char, "}"%char.
      split; [exact Ht |]. split; [reflexivity |]. split; [right; auto |].
      split; [| split; [exact Hdm | exact Hm]].
      apply (mem_before "[" text pred (String "{" postd) Htd). right. rewrite Hl. lia.
Qed.

Lemma run_needs_the_openalex_settings_witness :
  match refined_twice with
  | Ret r =>
      exists config openalex,
        Ret config_without_thresholds = Ret (PDict config)
        /\ Dict.get "openalex" (PDict []) config = PDict openalex
        /\ Dict.contains "fetch_limit" openalex = true
        /\ Dict.contains "top_k_papers" openalex = true
  | Raise _ => False
  end.
Proof.
  destruct refined_twice as [r | e] eqn:Hr.
  - apply (run_needs_the_openalex_settings _ _ _ _ r Hr).
  - vm_compute in Hr. discriminate Hr.
Defined.

Lemma bracket_slice_shape_witness :
  bracket_slice "see [1, {2}] here" = Some "[1, {2}]"
  /\ exists before inner after opening closing,
       "see [1, {2}] here" = before +:+ "[1, {2}]" +:+ after
       /\ "[1, {2}]" = String opening (inner +:+ String closing EmptyString)
       /\ ((opening = "["%char /\ closing = "]"%char)
           \/ (opening = "{"%char /\ closing = "}"%char))
       /\ Str.mem "["%char before = false
       /\ Str.mem "{"%char before = false
       /\ Str.mem closing after = false.
Proof.
  assert (H : bracket_slice "see [1, {2}] here" = Some "[1, {2}]") by reflexivity.
  split; [exact H |].
  apply (bracket_slice_shape "see [1, {2}] here" "[1, {2}]" H).
Defined.

(* ===================================================================== *)
(** * The drafts of the generator *)
(* ===================================================================== *)

Lemma py_join_error (sep : string) (parts : list pyval) (e : exn) :
  GeneratorAgent.py_join sep parts = Raise e -> e = TypeError.
Proof.
  unfold GeneratorAgent.py_join.
  assert (H : forall e, mapM (fun part => match part with
                                          | PStr s => Ret s
                                          | _ => Raise TypeError
                                          end) parts = Raise e -> e = TypeError).
  { induction parts as [| p rest IH]; intros e' H; [discriminate H |].
    cbn [mapM] in H. destruct p; cbn [bind] in H; try (injection H; auto; fail).
    destruct (mapM _ rest) as [ss | e'']; cbn [bind] in H; [discriminate H |].
    injection H as <-. apply IH. reflexivity. }
  destruct (mapM _ parts) as [ss | e']; cbn [bind]; intros He; [discriminate He |].
  injection He as <-. apply H. reflexivity.
Qed.

Lemma methodology_of_error (item : Dict.t) (e : exn) :
  GeneratorAgent.methodology_of item = Raise e -> e = TypeError.
Proof.
  unfold GeneratorAgent.methodology_of. cbv zeta.
  destruct (truthy (Dict.get "table_of_contents" PNone item)).
  - destruct (Dict.get "table_of_contents" PNone item) as [| | | | | lines |];
      cbn [bind];
      try (destruct (_ ++ []) as [| p ps]; [intros H; discriminate H |];
           destruct (GeneratorAgent.py_join _ (p :: ps)) eqn:E; cbn [bind]; intros H;
           [discriminate H | injection H as <-; apply (py_join_error _ _ _ E)]).
    destruct (GeneratorAgent.py_join Str.nl lines) as [s | e'] eqn:E; cbn [bind].
    + destruct (_ ++ _) as [| p ps]; [intros H; discriminate H |].
      destruct (GeneratorAgent.py_join _ (p :: ps)) eqn:E'; cbn [bind]; intros H;
        [discriminate H | injection H as <-; apply (py_join_error _ _ _ E')].
    + intros H. injection H as <-. apply (py_join_error _ _ _ E).
  - cbn [bind]. destruct (_ ++ []) as [| p ps]; [intros H; discriminate H |].
    destruct (GeneratorAgent.py_join _ (p :: ps)) eqn:E; cbn [bind]; intros H;
      [discriminate H | injection H as <-; apply (py_join_error _ _ _ E)].
Qed.

Lemma contents_of_spec (items : list pyval) :
  match GeneratorAgent.contents_of items with
  | Ret contents =>
      map title contents = map (Dict.get "title" (PStr "Untitled")) (mappings items)
      /\ map raw_content contents
         = map (fun item => PStr (Repr.str (PDict item))) (mappings items)
  | Raise e => e = TypeError
  end.
Proof.
  induction items as [| v rest IH]; [split; reflexivity |].
  destruct v as [| | | | | | item]; try exact IH.
  cbn [GeneratorAgent.contents_of]. unfold GeneratorAgent.content_of.
  destruct (GeneratorAgent.methodology_of item) as [m | e] eqn:E; cbn [bind].
  - destruct (GeneratorAgent.contents_of rest) as [contents | e]; cbn [bind]; [| exact IH].
    destruct IH as (IH1 & IH2). unfold mappings. cbn [omap list_omap map title raw_content].
    fold (mappings rest). rewrite IH1, IH2. split; reflexivity.
  - apply (methodology_of_error item e E).
Qed.

Lemma contents_of_no_mapping (items : list pyval) :
  mappings items = [] -> GeneratorAgent.contents_of items = Ret [].
Proof.
  induction items as [| v rest IH]; [reflexivity |].
  destruct v; cbn; try exact IH. intros H. discriminate H.
Qed.

Lemma mappings_of_strings {A : Type} (f : A -> string) (l : list A) :
  mappings (map (fun x => PStr (f x)) l) = [].
Proof. induction l as [| x l IH]; [reflexivity | exact IH]. Qed.

(** X21: [create_drafts] makes one idea for each mapping of the topic
    list, in order, with the title of the topic or "Untitled", and with the
    text of the topic as raw content; what is not a mapping is skipped. *)
Theorem drafts_follow_the_topic_list (data : pyval) (contents : list IdeaContent) :
  GeneratorAgent.drafts_of_data data = Ret contents ->
  exists items,
    GeneratorAgent.iterate (GeneratorAgent.topics_list data) = Ret items
    /\ length contents = length (mappings items)
    /\ map title contents = map (Dict.get "title" (PStr "Untitled")) (mappings items)
    /\ map raw_content contents
       = map (fun item => PStr (Repr.str (PDict item))) (mappings items).
Proof.
  unfold GeneratorAgent.drafts_of_data. intros H.
  apply bind_Ret_inv in H as (items & Hi & H). exists items. split; [exact Hi |].
  pose proof (contents_of_spec items) as Hs. rewrite H in Hs. destruct Hs as (H1 & H2).
  split; [| split; assumption].
  rewrite <- (length_map title contents), H1, length_map. reflexivity.
Qed.

Lemma drafts_follow_the_topic_list_witness :
  match GeneratorAgent.drafts_of_data two_topics with
  | Ret contents => map title contents = [PStr "A"; PStr "Untitled"]
  | Raise _ => False
  end.
Proof.
  destruct (GeneratorAgent.drafts_of_data two_topics) as [contents | e] eqn:E.
  - destruct (drafts_follow_the_topic_list two_topics contents E)
      as (items & Hi & _ & Ht & _).
    vm_compute in Hi. injection Hi as <-. exact Ht.
  - vm_compute in E. discriminate E.
Defined.

(** X22: [create_drafts] makes no idea from data that is neither a list
    nor a mapping with "topics", nor when "topics" is a string or a
    mapping; when "topics" is [None], a Boolean or a number the loop over it
    raises [TypeError]. Building the contents raises nothing but
    [TypeError]. *)
Theorem drafts_of_unexpected_data (data : pyval) :
  match data with
  | PList _ => True
  | PDict d =>
      if Dict.contains "topics" d then
        match Dict.get "topics" PNone d with
        | PList _ => True
        | PStr _ | PDict _ => GeneratorAgent.drafts_of_data data = Ret []
        | _ => GeneratorAgent.drafts_of_data data = Raise TypeError
        end
      else GeneratorAgent.drafts_of_data data = Ret []
  | _ => GeneratorAgent.drafts_of_data data = Ret []
  end
  /\ forall e, GeneratorAgent.drafts_of_data data = Raise e -> e = TypeError.
Proof.
  split.
  - destruct data as [| | | | | | d]; try reflexivity; try exact I.
    unfold GeneratorAgent.drafts_of_data, GeneratorAgent.topics_list.
    destruct (Dict.contains "topics" d); [| reflexivity].
    destruct (Dict.get "topics" PNone d) as [| | | | s | l | d'];
      try reflexivity; try exact I.
    + cbn [GeneratorAgent.iterate bind].
      apply contents_of_no_mapping.
      apply (mappings_of_strings (fun c => String c EmptyString)).
    + cbn [GeneratorAgent.iterate bind].
      apply contents_of_no_mapping. apply (mappings_of_strings fst).
  - intros e. unfold GeneratorAgent.drafts_of_data.
    destruct (GeneratorAgent.iterate (GeneratorAgent.topics_list data)) as [items | e'] eqn:E;
      cbn [bind].
    + intros H. pose proof (contents_of_spec items) as Hs. rewrite H in Hs. exact Hs.
    + intros H. injection H as <-.
      destruct (GeneratorAgent.topics_list data); cbn in E; congruence.
Qed.

Lemma drafts_of_unexpected_data_witness :
  GeneratorAgent.drafts_of_data (PStr "no topics here") = Ret [].
Proof. exact (proj1 (drafts_of_unexpected_data (PStr "no topics here"))). Defined.

Lemma evaluate_unsliceable (ideas : list IdeaObject) :
  forall (w : llm) (idea : IdeaObject) (content : IdeaContent),
    idea ∈ ideas ->
    latest_content idea = Some content ->
    sliceable (title content) = false ->
    exists e, CriticAgent.evaluate ideas w = Raise e.
Proof.
  induction ideas as [| x rest IH]; intros w idea content Hin Hc Ht.
  - apply elem_of_nil in Hin. contradiction.
  - cbn [CriticAgent.evaluate].
    destruct (CriticAgent.evaluate_one x w) as [[critique w'] | e] eqn:E; cbn [bind];
      [| eauto].
    apply elem_of_cons in Hin as [<- | Hin].
    + unfold CriticAgent.evaluate_one in E. rewrite Hc in E.
      destruct (title content); try discriminate Ht; discriminate E.
    + destruct (IH w' idea content Hin Hc Ht) as (e & ->). cbn [bind]. eauto.
Qed.

(** X23: a draft whose title is neither a string nor a list (a topic with
    the title [null], say) stops a run that makes at least one pass: the
    progress line of the critic slices the title, and the run raises. *)
Theorem unsliceable_title_stops_the_run loaded drafts max_loops w
        (id : string) (content : IdeaContent) :
  0 < max_loops ->
  (id, content) ∈ drafts ->
  sliceable (title content) = false ->
  exists e, research_loop loaded drafts max_loops w = Raise e.
Proof.
  intros Hm Hin Ht.
  destruct (research_loop loaded drafts max_loops w) as [r | e] eqn:Hr; [| eauto].
  exfalso. apply research_loop_inv in Hr as (a & d & s & ideas' & w' & Hp & _).
  set (init := map (fun d => new_idea (fst d) (snd d)) drafts) in *.
  destruct (Z.to_nat max_loops) as [| n] eqn:Hn; [lia |].
  assert (Hne : seq 0 (length init) <> []).
  { destruct drafts; [apply elem_of_nil in Hin; contradiction | discriminate]. }
  apply passes_step in Hp as (critiques & w1 & s1 & needs & Hev & _); [| exact Hne].
  cbn [store] in Hev. rewrite objects_seq in Hev.
  destruct (evaluate_unsliceable init w (new_idea id content) content) as (e & He).
  - subst init. apply list_elem_of_fmap. exists (id, content). auto.
  - reflexivity.
  - exact Ht.
  - rewrite He in Hev. discriminate Hev.
Qed.

Lemma unsliceable_title_stops_the_run_witness :
  exists e, untitled_run = Raise e.
Proof.
  apply (unsliceable_title_stops_the_run _ _ 1 _ "idea-1"
           {| title := PNone; methodology := PStr "M";
              description := PNone; raw_content := PNone |}).
  - lia.
  - apply list_elem_of_here.
  - reflexivity.
Defined.
